(** * Prescription OCR server: the persistence and extraction contract

    A shallow embedding of the Express server (the flat-file Result Store,
    the Result File Archive and their HTTP handlers) and of the extraction
    client [processPrescriptionImage], with the properties the specification
    states about them.

    JavaScript strings are sequences of UTF-16 code units; the model keeps
    the code units below 256, one per [ascii].  Numbers are the integer
    valued ones ([Date.now()] ids are).

    After the properties of the specification come those of the routes
    taken together: what each answers and writes, the listing of the
    archive, the start of the server, and the two requests the interface
    sends for an extracted result. *)

From Stdlib Require Import ZArith Ascii String List Lia Bool.
From Stdlib Require Import DecimalString DecimalFacts DecimalN.
From stdpp Require Import gmap strings.

Open Scope string_scope.

(** ** String primitives of the JavaScript runtime used by the sources *)

Module Js.

(** [s.length] *)
Definition len (s : string) : nat := String.length s.

(** The class [\s] of a regular expression, on code units below 256:
    TAB, LF, VT, FF, CR, SPACE and NBSP. *)
Definition is_space (c : ascii) : bool :=
  let n := nat_of_ascii c in
  ((9 <=? n) && (n <=? 13) || (n =? 32) || (n =? 160))%nat.

(** [s.replace(/\s+/g, "_")]: the scan emits one underscore when it
    enters a run of white space and nothing for the rest of the run. *)
Fixpoint replace_spaces_from (in_run : bool) (s : string) : string :=
  match s with
  | EmptyString => EmptyString
  | String c r =>
      if is_space c
      then if in_run then replace_spaces_from true r
           else String "_" (replace_spaces_from true r)
      else String c (replace_spaces_from false r)
  end.

Definition replace_spaces (s : string) : string := replace_spaces_from false s.

(** [s.replace(/[:.]/g, "-")] *)
Definition is_colon_or_dot (c : ascii) : bool :=
  (Ascii.eqb c ":" || Ascii.eqb c ".")%char.

Fixpoint replace_colon_dot (s : string) : string :=
  match s with
  | EmptyString => EmptyString
  | String c r => String (if is_colon_or_dot c then "-"%char else c) (replace_colon_dot r)
  end.

(** [s.slice(0, -k)] for a positive [k]: the end index is
    [max (s.length - k) 0]. *)
Definition slice_drop_last (k : nat) (s : string) : string :=
  String.substring 0 (len s - k) s.

(** [s.split(sep)] for a one-character separator: never empty, the
    empty string splits into one empty piece. *)
Fixpoint split (sep : ascii) (s : string) : list string :=
  match s with
  | EmptyString => [EmptyString]
  | String c r =>
      if Ascii.eqb c sep then EmptyString :: split sep r
      else match split sep r with
           | p :: ps => String c p :: ps
           | [] => [String c EmptyString]
           end
  end.

(** [s.startsWith(p)] *)
Definition startsWith (s p : string) : bool := String.prefix p s.

(** [pieces.join(sep)] *)
Fixpoint join (sep : string) (pieces : list string) : string :=
  match pieces with
  | [] => EmptyString
  | [p] => p
  | p :: ps => p +:+ sep +:+ join sep ps
  end.

(** [v || d] where [v] is a string or [undefined] ([None]): the empty
    string is falsy too. *)
Definition or_default (v : option string) (d : string) : string :=
  match v with
  | Some s => if String.eqb s "" then d else s
  | None => d
  end.

(** [s.endsWith(suffix)] *)
Definition endsWith (s suffix : string) : bool :=
  (len suffix <=? len s)%nat &&
  String.eqb (String.substring (len s - len suffix) (len suffix) s) suffix.

(** [s.includes(c)] for a single character *)
Fixpoint hasChar (c : ascii) (s : string) : bool :=
  match s with
  | EmptyString => false
  | String x r => Ascii.eqb x c || hasChar c r
  end.

(** What follows the prefix [p] in [s], if [s] starts with it *)
Fixpoint dropPrefix (p s : string) : option string :=
  match p with
  | EmptyString => Some s
  | String a p' =>
      match s with
      | String b s' => if Ascii.eqb a b then dropPrefix p' s' else None
      | EmptyString => None
      end
  end.

End Js.

(** ** Node's [path] module (POSIX flavour) *)

Module Path.

Definition sep : ascii := "/"%char.

Definition isAbsolute (p : string) : bool :=
  match p with
  | String c _ => Ascii.eqb c sep
  | EmptyString => false
  end.

Definition endsWithSep (p : string) : bool :=
  match String.get (Js.len p - 1) p with
  | Some c => Ascii.eqb c sep
  | None => false
  end.

(** One step of [normalizeString]: [stack] holds the segments kept so
    far, the last one first.  Empty segments and ["."] are dropped; [".."]
    removes the last kept segment unless there is none or it is [".."]
    itself, where it is kept only if [allowAboveRoot]. *)
Definition normalizeStep (allowAboveRoot : bool) (stack : list string) (seg : string)
  : list string :=
  if decide (seg = "") then stack
  else if decide (seg = ".") then stack
  else if decide (seg = "..") then
    match stack with
    | top :: below =>
        if decide (top = "..")
        then (if allowAboveRoot then ".." :: stack else stack)
        else below
    | [] => if allowAboveRoot then [".."] else []
    end
  else seg :: stack.

(** What holds of the segments [normalizeString] keeps: they are not
    empty and do not start with the separator. *)
Definition kept (seg : string) : Prop :=
  seg <> "" /\ isAbsolute seg = false.

Definition normalizeString (p : string) (allowAboveRoot : bool) : string :=
  Js.join "/" (rev (fold_left (normalizeStep allowAboveRoot) (Js.split sep p) [])).

(** [path.normalize] *)
Definition normalize (p : string) : string :=
  if decide (p = "") then "."
  else
    let isAbs := isAbsolute p in
    let trailing := endsWithSep p in
    let q := normalizeString p (negb isAbs) in
    if decide (q = "") then
      (if isAbs then "/" else if trailing then "./" else ".")
    else
      let q := if trailing then q +:+ "/" else q in
      if isAbs then "/" +:+ q else q.

(** [path.join(...args)]: empty arguments are skipped, the others are
    glued with the separator and the result is normalized. *)
Definition join (args : list string) : string :=
  match filter (fun a => a ≠ "") args with
  | [] => "."
  | parts => normalize (Js.join "/" parts)
  end.

(** [path.basename(p)]: trailing separators are ignored, the result is
    what follows the last separator before them. *)
Fixpoint basename_rev (matchedSlash : bool) (r : list ascii) : list ascii :=
  match r with
  | [] => []
  | c :: r' =>
      if Ascii.eqb c sep
      then (if matchedSlash then basename_rev true r' else [])
      else c :: basename_rev false r'
  end.

Definition basename (p : string) : string :=
  string_of_list_ascii (rev (basename_rev true (rev (list_ascii_of_string p)))).

(** [path.dirname(p)] on the paths the server builds (no trailing
    separator): what precedes the last separator, ["."] if there is none,
    ["/"] for an entry of the root. *)
Fixpoint dirname_rev (r : list ascii) : option (list ascii) :=
  match r with
  | [] => None
  | c :: r' => if Ascii.eqb c sep then Some r' else dirname_rev r'
  end.

Definition dirname (p : string) : string :=
  match dirname_rev (rev (list_ascii_of_string p)) with
  | None => "."
  | Some [] => "/"
  | Some d => string_of_list_ascii (rev d)
  end.

(** [path.resolve(...args)] with [cwd] the value of [process.cwd()]:
    arguments are taken from the right until an absolute one is met, the
    working directory coming last. *)
Fixpoint resolve_from (args_rev : list string) (cwd : string) (resolved : string)
  : string * bool :=
  match args_rev with
  | [] =>
      if decide (cwd = "") then (resolved, false)
      else (cwd +:+ "/" +:+ resolved, isAbsolute cwd)
  | a :: rest =>
      if decide (a = "") then resolve_from rest cwd resolved
      else if isAbsolute a then (a +:+ "/" +:+ resolved, true)
      else resolve_from rest cwd (a +:+ "/" +:+ resolved)
  end.

Definition resolve (cwd : string) (args : list string) : string :=
  let '(resolvedPath, resolvedAbsolute) := resolve_from (rev args) cwd "" in
  let q := normalizeString resolvedPath (negb resolvedAbsolute) in
  if resolvedAbsolute then "/" +:+ q
  else if decide (q = "") then "." else q.

End Path.

(** ** [Date]: the wall clock reading (milliseconds since the epoch) and
    its ISO-8601 rendering *)

Module JsDate.

Local Open Scope Z_scope.

Definition digit (k : Z) : ascii := ascii_of_nat (48 + Z.to_nat (k mod 10)).

(** [String(k).padStart(n, "0")] for [0 <= k < 10^n]: the [n] low
    decimal digits of [k]. *)
Fixpoint pad (n : nat) (k : Z) : string :=
  match n with
  | O => EmptyString
  | S n' => pad n' (k / 10) +:+ String (digit k) EmptyString
  end.

Definition msPerDay : Z := 86400000.

(** Day number (days since 1970-01-01) to proleptic Gregorian
    (year, month, day). *)
Definition civil (days : Z) : Z * Z * Z :=
  let z := days + 719468 in
  let era := z / 146097 in
  let doe := z - era * 146097 in
  let yoe := (doe - doe / 1460 + doe / 36524 - doe / 146096) / 365 in
  let doy := doe - (365 * yoe + yoe / 4 - yoe / 100) in
  let mp := (5 * doy + 2) / 153 in
  let d := doy - (153 * mp + 2) / 5 + 1 in
  let m := if mp <? 10 then mp + 3 else mp - 9 in
  let y := yoe + era * 400 + (if m <=? 2 then 1 else 0) in
  (y, m, d).

(** Years 0 to 9999 take four digits, the others a sign and six. *)
Definition yearString (y : Z) : string :=
  if (0 <=? y) && (y <=? 9999) then pad 4 y
  else (if y <? 0 then "-" else "+") +:+ pad 6 (Z.abs y).

(** The date and the time of day, separated by ["T"], with [tsep]
    between the fields of the time of day. *)
Definition dateTime (tsep : string) (t : Z) : string :=
  let '(y, m, d) := civil (t / msPerDay) in
  let tod := t mod msPerDay in
  yearString y +:+ "-" +:+ pad 2 m +:+ "-" +:+ pad 2 d +:+ "T" +:+
  pad 2 (tod / 3600000) +:+ tsep +:+ pad 2 (tod / 60000 mod 60) +:+ tsep +:+
  pad 2 (tod / 1000 mod 60).

(** [new Date(t).toISOString()] *)
Definition toISOString (t : Z) : string :=
  dateTime ":" t +:+ "." +:+ pad 3 (t mod 1000) +:+ "Z".

End JsDate.

(** ** JavaScript values that travel as JSON *)

(** Objects are property lists in insertion order; a property whose value
    is [JUndefined] is one the program set to [undefined]. *)
#[local] Unset Elimination Schemes.
Inductive jsval : Type :=
| JUndefined
| JNull
| JBool (b : bool)
| JNum (n : Z)
| JStr (s : string)
| JArr (items : list jsval)
| JObj (props : list (string * jsval)).
#[local] Set Elimination Schemes.

(** Induction over values, through the lists of items and properties *)
Section jsval_induction.
Variable P : jsval -> Prop.
Hypothesis Hundef : P JUndefined.
Hypothesis Hnull : P JNull.
Hypothesis Hbool : forall b, P (JBool b).
Hypothesis Hnum : forall n, P (JNum n).
Hypothesis Hstr : forall s, P (JStr s).
Hypothesis Harr : forall items, Forall P items -> P (JArr items).
Hypothesis Hobj : forall props, Forall (fun kv => P (snd kv)) props -> P (JObj props).

Fixpoint jsval_nested_ind (v : jsval) : P v :=
  match v with
  | JUndefined => Hundef
  | JNull => Hnull
  | JBool b => Hbool b
  | JNum n => Hnum n
  | JStr s => Hstr s
  | JArr items =>
      Harr items
        ((fix go (l : list jsval) : Forall P l :=
            match l with
            | [] => @List.Forall_nil _ P
            | x :: l' => @List.Forall_cons _ P x l' (jsval_nested_ind x) (go l')
            end) items)
  | JObj props =>
      Hobj props
        ((fix go (l : list (string * jsval)) : Forall (fun kv => P (snd kv)) l :=
            match l with
            | [] => @List.Forall_nil _ _
            | (k, x) :: l' =>
                @List.Forall_cons _ (fun kv => P (snd kv)) (k, x) l' (jsval_nested_ind x) (go l')
            end) props)
  end.
End jsval_induction.

Module Value.

(** [!v] is [negb (truthy v)] *)
Definition truthy (v : jsval) : bool :=
  match v with
  | JUndefined | JNull => false
  | JBool b => b
  | JNum n => negb (n =? 0)%Z
  | JStr s => negb (String.eqb s "")
  | JArr _ | JObj _ => true
  end.

Definition nullish (v : jsval) : bool :=
  match v with
  | JUndefined | JNull => true
  | _ => false
  end.

Fixpoint lookup (k : string) (props : list (string * jsval)) : jsval :=
  match props with
  | [] => JUndefined
  | (k', v) :: rest => if String.eqb k k' then v else lookup k rest
  end.

(** [v[k]] for a key that no built-in prototype defines, on a value
    that is neither [null] nor [undefined] *)
Definition prop (v : jsval) (k : string) : jsval :=
  match v with
  | JObj props => lookup k props
  | _ => JUndefined
  end.

Definition keys (v : jsval) : list string :=
  match v with
  | JObj props => map fst props
  | _ => []
  end.

(** What a JSON text keeps of a value: a property set to [undefined]
    is left out of its object, an [undefined] array element is written
    as [null]. *)
Fixpoint toJSON (v : jsval) : jsval :=
  match v with
  | JArr items =>
      JArr (map (fun x => match x with JUndefined => JNull | _ => toJSON x end) items)
  | JObj props =>
      JObj ((fix go (ps : list (string * jsval)) : list (string * jsval) :=
               match ps with
               | [] => []
               | (k, JUndefined) :: rest => go rest
               | (k, x) :: rest => (k, toJSON x) :: go rest
               end) props)
  | _ => v
  end.

(** The values a JSON text denotes: no [undefined] anywhere. *)
Fixpoint is_json (v : jsval) : bool :=
  match v with
  | JUndefined => false
  | JArr items => forallb is_json items
  | JObj props => forallb (fun kv => is_json (snd kv)) props
  | _ => true
  end.

End Value.

(** [JSON.stringify(v, null, indent)] and [JSON.parse(text)], the latter
    with [None] for a [SyntaxError].  The program never serializes a top
    level [undefined]. *)
Class JSONApi := {
  JSON_stringify : jsval -> nat -> string;
  JSON_parse : string -> option jsval
}.

(** Parsing a serialized value gives back what the text keeps of it. *)
Definition JSONRoundTrip (J : JSONApi) : Prop :=
  forall (v : jsval) (indent : nat),
    v <> JUndefined -> JSON_parse (JSON_stringify v indent) = Some (Value.toJSON v).

(** ** The process state: file system and clock *)

Inductive node : Type :=
| Dir
| File (data : string).

Inductive exn : Type :=
| TypeError
| SyntaxError
| SystemError (code : string)
| Error (message : string).

(** Files and directories by path relative to the working directory (the
    server hands [fs] normalized relative paths only).  [cwd] is
    [process.cwd()]; [clock] lists the readings the wall clock gives,
    [reads] counts those taken so far. *)
Record world : Type := World {
  fs : gmap string node;
  cwd : string;
  clock : nat -> Z;
  reads : nat
}.

Inductive outcome (A : Type) : Type :=
| Ok (a : A)
| Throw (e : exn).
Arguments Ok {A} a.
Arguments Throw {A} e.

Definition M (A : Type) : Type := world -> outcome A * world.

Definition ret {A} (a : A) : M A := fun w => (Ok a, w).

Definition throw {A} (e : exn) : M A := fun w => (Throw e, w).

Definition bind {A B} (m : M A) (k : A -> M B) : M B :=
  fun w => match m w with
           | (Ok a, w') => k a w'
           | (Throw e, w') => (Throw e, w')
           end.

Definition try_catch {A} (m : M A) (handler : exn -> M A) : M A :=
  fun w => match m w with
           | (Ok a, w') => (Ok a, w')
           | (Throw e, w') => handler e w'
           end.

Notation "x <- m ;; k" := (bind m (fun x => k))
  (at level 100, m at next level, right associativity).
Notation "m ;;; k" := (bind m (fun _ => k))
  (at level 100, right associativity).

(** The world after one more reading of the clock *)
Definition tick (w : world) : world :=
  {| fs := fs w; cwd := cwd w; clock := clock w; reads := S (reads w) |}.

(** [Date.now()] and [new Date()] both read the clock. *)
Definition Date_now : M Z :=
  fun w => (Ok (clock w (reads w)), tick w).

Definition process_cwd : M string := fun w => (Ok (cwd w), w).

Module Fs.

Definition set_fs (f : gmap string node) (w : world) : world :=
  {| fs := f; cwd := cwd w; clock := clock w; reads := reads w |}.

(** The working directory and the directories above it, which are
    always there: ["."], and the paths made of [".."] segments *)
Definition ancestor (p : string) : bool :=
  String.eqb p "." || forallb (String.eqb "..") (Js.split Path.sep p).

(** The bytes a string takes in a path: one for a code unit below 128,
    two for the others. *)
Fixpoint byteLength (s : string) : nat :=
  match s with
  | EmptyString => 0
  | String c r => (if (nat_of_ascii c <? 128)%nat then 1 else 2) + byteLength r
  end.

(** The limits of the file system, in bytes: on one name, and on a path
    with the byte that ends it *)
Definition NAME_MAX : nat := 255.

Definition PATH_MAX : nat := 4096.

Definition NUL : ascii := ascii_of_nat 0.

(** A path the file system takes: within [PATH_MAX], every name of it
    within [NAME_MAX]; a path that holds [NUL] is refused before it gets
    there. *)
Definition withinLimits (p : string) : bool :=
  (byteLength p <? PATH_MAX)%nat
  && forallb (fun seg => (byteLength seg <=? NAME_MAX)%nat) (Js.split Path.sep p).

Definition validPath (p : string) : bool :=
  negb (Js.hasChar NUL p) && withinLimits p.

(** The directory [d] exists.  The entries are kept under the paths
    they were made with, relative to the working directory and normalized;
    a path that leaves the working directory through [..] and comes back
    into it by name is another key here, where the file system has one
    entry for both: the outcome of a write is stated in full only for
    paths that stay below the working directory. *)
Definition dir_exists (f : gmap string node) (d : string) : bool :=
  ancestor d ||
  match f !! d with
  | Some Dir => true
  | _ => false
  end.

(** [fs.existsSync(p)] *)
Definition existsSync (p : string) : M bool :=
  fun w => (Ok (ancestor p ||
                match fs w !! p with Some _ => true | None => false end), w).

(** [fs.readFileSync(p, "utf-8")] *)
Definition readFileSync (p : string) : M string :=
  fun w => match fs w !! p with
           | Some (File data) => (Ok data, w)
           | Some Dir => (Throw (SystemError "EISDIR"), w)
           | None => (Throw (SystemError "ENOENT"), w)
           end.

(** A file can be written at [p]: the path is one the file system
    takes, no directory stands there and the directory [p] goes into
    exists. *)
Definition writable (f : gmap string node) (p : string) : bool :=
  validPath p &&
  match f !! p with
  | Some Dir => false
  | _ => dir_exists f (Path.dirname p)
  end.

(** [fs.writeFileSync(p, data)]: creates or replaces the file; the path
    must hold no [NUL] and keep within the limits, and the directory it
    goes into must exist. *)
Definition writeFileSync (p : string) (data : string) : M unit :=
  fun w => if Js.hasChar NUL p then (Throw TypeError, w)
           else if negb (withinLimits p) then (Throw (SystemError "ENAMETOOLONG"), w)
           else match fs w !! p with
                | Some Dir => (Throw (SystemError "EISDIR"), w)
                | _ =>
                    if dir_exists (fs w) (Path.dirname p)
                    then (Ok tt, set_fs (<[p := File data]> (fs w)) w)
                    else (Throw (SystemError "ENOENT"), w)
                end.

(** [fs.mkdirSync(p)] *)
Definition mkdirSync (p : string) : M unit :=
  fun w => if Js.hasChar NUL p then (Throw TypeError, w)
           else if negb (withinLimits p) then (Throw (SystemError "ENAMETOOLONG"), w)
           else match fs w !! p with
                | Some _ => (Throw (SystemError "EEXIST"), w)
                | None =>
                    if dir_exists (fs w) (Path.dirname p)
                    then (Ok tt, set_fs (<[p := Dir]> (fs w)) w)
                    else (Throw (SystemError "ENOENT"), w)
                end.

(** Paths of the entries of directory [d] start with this. *)
Definition entryPrefix (d : string) : string :=
  if String.eqb d "." then "" else d +:+ "/".

(** The name of the entry at path [k] if it lies directly in [d] *)
Definition childName (d k : string) : option string :=
  match Js.dropPrefix (entryPrefix d) k with
  | Some n => if String.eqb n "" || Js.hasChar Path.sep n then None else Some n
  | None => None
  end.

(** [fs.mkdirSync(p, { recursive: true })] for a relative path, from
    the directory [dir] on: each directory of the path is made unless it is
    there, and a regular file in the place of one stops it. *)
Fixpoint mkdirs (dir : string) (segs : list string) (f : gmap string node)
  : outcome (gmap string node) :=
  match segs with
  | [] => Ok f
  | seg :: rest =>
      let p := entryPrefix dir +:+ seg in
      if ancestor p then mkdirs p rest f
      else match f !! p with
           | Some Dir => mkdirs p rest f
           | Some (File _) => Throw (SystemError "ENOTDIR")
           | None => mkdirs p rest (<[p := Dir]> f)
           end
  end.

Definition mkdirSync_recursive (p : string) : M unit :=
  fun w => if Js.hasChar NUL p then (Throw TypeError, w)
           else if negb (withinLimits p) then (Throw (SystemError "ENAMETOOLONG"), w)
           else match mkdirs "." (List.filter (fun seg => negb (String.eqb seg ""))
                                    (Js.split Path.sep p)) (fs w) with
                | Ok f => (Ok tt, set_fs f w)
                | Throw e => (Throw e, w)
                end.

(** [fs.readdirSync(d)]: the names of the entries of [d], in the order
    the file system lists them *)
Definition readdirSync (d : string) : M (list string) :=
  fun w => match fs w !! d with
           | Some (File _) => (Throw (SystemError "ENOTDIR"), w)
           | _ =>
               if dir_exists (fs w) d
               then (Ok (omap (fun kv => childName d (fst kv)) (map_to_list (fs w))), w)
               else (Throw (SystemError "ENOENT"), w)
           end.

End Fs.

(** ** The server *)

Inductive response : Type :=
| Json (status : Z) (body : jsval)
| Download (path : string) (bytes : string).

Section Server.

Context {J : JSONApi}.

Definition DB_FILE : string := "prescriptions.json".

Definition initDb : M unit :=
  present <- Fs.existsSync DB_FILE ;;
  if negb present
  then Fs.writeFileSync DB_FILE (JSON_stringify (JArr []) 0)
  else ret tt.

Definition getPrescriptions : M jsval :=
  data <- Fs.readFileSync DB_FILE ;;
  match JSON_parse data with
  | Some v => ret v
  | None => throw SyntaxError
  end.

(** [arr.push(x)]: only an array has the method. *)
Definition push (arr x : jsval) : M jsval :=
  match arr with
  | JArr items => ret (JArr (items ++ [x]))
  | _ => throw TypeError
  end.

Definition savePrescription (prescription : jsval) : M jsval :=
  prescriptions <- getPrescriptions ;;
  id <- Date_now ;;
  created <- Date_now ;;
  let newPrescription :=
    JObj [("id", JNum id);
          ("data", prescription);
          ("created_at", JStr (JsDate.toISOString created))] in
  prescriptions' <- push prescriptions newPrescription ;;
  Fs.writeFileSync DB_FILE (JSON_stringify prescriptions' 2) ;;;
  ret newPrescription.

(** [if (!fs.existsSync(d)) fs.mkdirSync(d)] *)
Definition ensureDir (d : string) : M unit :=
  present <- Fs.existsSync d ;;
  if negb present then Fs.mkdirSync d else ret tt.

(** [multer({ dest })]: the disk storage that is built for [dest] makes
    the directory, with those above it, there and then. *)
Definition multer (dest : string) : M unit := Fs.mkdirSync_recursive dest.

(** What [startServer] does to the disk before it listens. *)
Definition startServer : M unit :=
  initDb ;;;
  multer "uploads/" ;;;
  ensureDir "uploads" ;;;
  ensureDir "results".

(** [const { k } = body] *)
Definition destructure (body : jsval) (k : string) : M jsval :=
  if Value.nullish body then throw TypeError else ret (Value.prop body k).

Definition error_body (msg : string) : jsval := JObj [("error", JStr msg)].

(** POST /api/prescriptions *)
Definition post_prescriptions (body : jsval) : M response :=
  try_catch
    (data <- destructure body "data" ;;
     saved <- savePrescription data ;;
     ret (Json 200 (JObj [("success", JBool true); ("id", Value.prop saved "id")])))
    (fun _ => ret (Json 500 (error_body "Failed to save prescription"))).

(** GET /api/prescriptions *)
Definition get_prescriptions : M response :=
  try_catch
    (prescriptions <- getPrescriptions ;;
     ret (Json 200 prescriptions))
    (fun _ => ret (Json 500 (error_body "Failed to fetch history"))).

(** [result.metadata?.doctor_name] *)
Definition metadata_doctor_name (result : jsval) : jsval :=
  let metadata := Value.prop result "metadata" in
  if Value.nullish metadata then JUndefined
  else Value.prop metadata "doctor_name".

(** [result.metadata?.doctor_name?.replace(/\s+/g, "_")]: [None] is
    [undefined]; a doctor name that is neither a string nor nullish has no
    [replace] method. *)
Definition doctor_name_replaced (result : jsval) : M (option string) :=
  match metadata_doctor_name result with
  | JUndefined | JNull => ret None
  | JStr s => ret (Some (Js.replace_spaces s))
  | _ => throw TypeError
  end.

(** POST /api/save-result *)
Definition post_save_result (body : jsval) : M response :=
  try_catch
    (result <- destructure body "result" ;;
     if negb (Value.truthy result)
     then ret (Json 400 (error_body "No result data provided"))
     else
       now <- Date_now ;;
       let timestamp :=
         Js.slice_drop_last 5 (Js.replace_colon_dot (JsDate.toISOString now)) in
       replaced <- doctor_name_replaced result ;;
       let doctorName := Js.or_default replaced "unknown" in
       let filename :=
         "prescription_" +:+ doctorName +:+ "_" +:+ timestamp +:+ ".json" in
       let filepath := Path.join ["results"; filename] in
       Fs.writeFileSync filepath (JSON_stringify result 2) ;;;
       ret (Json 200 (JObj [("success", JBool true);
                            ("filename", JStr filename);
                            ("filepath", JStr filepath);
                            ("message", JStr ("Result saved to " +:+ filename))])))
    (fun _ => ret (Json 500 (error_body "Failed to save result"))).

(** [res.download(p)] sends the bytes of the file. *)
Definition res_download (p : string) : M response :=
  bytes <- Fs.readFileSync p ;;
  ret (Download p bytes).

(** GET /api/results/:filename *)
Definition get_result_file (param : string) : M response :=
  try_catch
    (let filename := Path.basename param in
     let filepath := Path.join ["results"; filename] in
     here <- process_cwd ;;
     if negb (Js.startsWith filepath (Path.resolve here ["results"]))
     then ret (Json 403 (error_body "Access denied"))
     else
       present <- Fs.existsSync filepath ;;
       if present then res_download filepath
       else ret (Json 404 (error_body "File not found")))
    (fun _ => ret (Json 500 (error_body "Failed to download file"))).

(** GET /api/health *)
Definition get_health : M response :=
  ret (Json 200 (JObj [("status", JStr "ok")])).

(** GET /api/results *)
Definition get_results : M response :=
  try_catch
    (present <- Fs.existsSync "results" ;;
     if negb present then ret (Json 200 (JObj [("results", JArr [])]))
     else
       entries <- Fs.readdirSync "results" ;;
       let files := List.filter (fun f => Js.endsWith f ".json") entries in
       ret (Json 200 (JObj [("results", JArr (map JStr files))])))
    (fun _ => ret (Json 500 (error_body "Failed to fetch results"))).

(** The routes that read or write the store and the archive, with what
    each request carries *)
Inductive apiRequest : Type :=
| GetHealth
| PostPrescriptions (body : jsval)
| PostSaveResult (body : jsval)
| GetResults
| GetResultFile (filename : string)
| GetPrescriptions.

Definition handle (req : apiRequest) : M response :=
  match req with
  | GetHealth => get_health
  | PostPrescriptions body => post_prescriptions body
  | PostSaveResult body => post_save_result body
  | GetResults => get_results
  | GetResultFile filename => get_result_file filename
  | GetPrescriptions => get_prescriptions
  end.

(** Requests handled one after the other *)
Fixpoint serve (reqs : list apiRequest) : M (list response) :=
  match reqs with
  | [] => ret []
  | req :: rest =>
      res <- handle req ;;
      others <- serve rest ;;
      ret (res :: others)
  end.

End Server.

(** ** The extraction client *)

Module Gemini.

(** The response schema language of the provider's SDK ([Type.*]) *)
#[local] Unset Elimination Schemes.
Inductive schema : Type :=
| TString
| TNumber
| TBoolean
| TArray (items : schema)
| TObject (properties : list (string * schema)) (required : list string).
#[local] Set Elimination Schemes.

Record request : Type := Request {
  model : string;
  text_part : string;
  inline_data : string;
  inline_mimeType : string;
  responseMimeType : string;
  responseSchema : schema
}.

Definition medicationSchema : schema :=
  TObject [("name", TString); ("dosage", TString); ("frequency", TString);
           ("duration", TString); ("quantity", TNumber);
           ("instructions", TString); ("confidence", TNumber)]
          ["name"; "dosage"; "frequency"; "duration"; "quantity";
           "instructions"; "confidence"].

Definition metadataSchema : schema :=
  TObject [("prescription_date", TString); ("doctor_name", TString);
           ("image_quality", TString); ("has_handwriting", TBoolean)]
          ["prescription_date"; "doctor_name"; "image_quality"; "has_handwriting"].

Definition resultSchema : schema :=
  TObject [("status", TString); ("confidence", TNumber);
           ("extracted_text", TString);
           ("medications", TArray medicationSchema);
           ("metadata", metadataSchema);
           ("errors", TArray TString)]
          ["status"; "confidence"; "extracted_text"; "medications";
           "metadata"; "errors"].

(** A value has the shape a schema asks for. *)
Fixpoint conforms (sc : schema) (v : jsval) : bool :=
  match sc, v with
  | TString, JStr _ => true
  | TNumber, JNum _ => true
  | TBoolean, JBool _ => true
  | TArray items, JArr l => forallb (conforms items) l
  | TObject properties required, JObj props =>
      forallb (fun k => existsb (String.eqb k) (map fst props)) required &&
      (fix each (ps : list (string * schema)) : bool :=
         match ps with
         | [] => true
         | (k, sk) :: rest =>
             (if existsb (String.eqb k) (map fst props)
              then conforms sk (Value.lookup k props) else true) && each rest
         end) properties
  | _, _ => false
  end.

(** The provider answers each call with a response whose [text] is a
    string or [undefined] ([None]), or the call fails.  The client state
    is the log of the calls made so far; the provider sees how many came
    before. *)
Definition provider : Type := nat -> request -> outcome (option string).

Definition Client (A : Type) : Type := list request -> outcome A * list request.

Definition generateContent (ai : provider) (req : request) : Client (option string) :=
  fun log => (ai (List.length log) req, (log ++ [req])%list).

(** [base64Image.split(",")[1] || base64Image] *)
Definition imageData (base64Image : string) : string :=
  Js.or_default (Js.split "," base64Image !! 1%nat) base64Image.

Section Client.

Context {J : JSONApi}.

(** The fixed instruction text sent along with the image *)
Variable prompt : string.

Definition requestFor (base64Image mimeType : string) : request :=
  {| model := "gemini-3-flash-preview";
     text_part := prompt;
     inline_data := imageData base64Image;
     inline_mimeType := mimeType;
     responseMimeType := "application/json";
     responseSchema := resultSchema |}.

Definition processPrescriptionImage (ai : provider) (base64Image mimeType : string)
  : Client jsval :=
  fun log =>
    match generateContent ai (requestFor base64Image mimeType) log with
    | (Throw e, log') => (Throw e, log')
    | (Ok text, log') =>
        match text with
        | None => (Throw (Error "No response from AI"), log')
        | Some t =>
            if String.eqb t "" then (Throw (Error "No response from AI"), log')
            else match JSON_parse t with
                 | Some v => (Ok v, log')
                 | None => (Throw SyntaxError, log')
                 end
        end
    end.

End Client.

End Gemini.

(** ** A reference JSON codec

    [JSON.stringify] as the language defines it on the values of the
    model, and a recursive descent reader for the JSON grammar on the same
    domain (integer numbers, code units below 256).  It shows that the
    round trip law has a model, and lets the server run on concrete
    inputs. *)

Module RefJson.

Local Open Scope list_scope.
Local Open Scope char_scope.

Definition chars (s : string) : list ascii := list_ascii_of_string s.

Definition LF : ascii := ascii_of_nat 10.
Definition dquote : ascii := ascii_of_nat 34.
Definition backslash : ascii := ascii_of_nat 92.

Definition hexDigit (n : nat) : ascii :=
  nth n (chars "0123456789abcdef") "0".

(** [Quote]: the two-character escapes, [\u00XX] for the other control
    characters, everything else as it is. *)
Definition escapeChar (c : ascii) : list ascii :=
  let n := nat_of_ascii c in
  if (n =? 34)%nat then [backslash; dquote]
  else if (n =? 92)%nat then [backslash; backslash]
  else if (n =? 8)%nat then [backslash; "b"]
  else if (n =? 9)%nat then [backslash; "t"]
  else if (n =? 10)%nat then [backslash; "n"]
  else if (n =? 12)%nat then [backslash; "f"]
  else if (n =? 13)%nat then [backslash; "r"]
  else if (n <? 32)%nat
  then [backslash; "u"; "0"; "0"; hexDigit (n / 16); hexDigit (n mod 16)]
  else [c].

Definition printString (s : string) : list ascii :=
  dquote :: flat_map escapeChar (chars s) ++ [dquote].

Definition printZ (z : Z) : list ascii :=
  (if (z <? 0)%Z then ["-"] else []) ++
  chars (NilZero.string_of_uint (N.to_uint (Z.abs_N z))).

(** The line break and indentation before an item at column [cur];
    nothing when the gap is empty. *)
Definition newline (gap cur : nat) : list ascii :=
  if (gap =? 0)%nat then [] else LF :: repeat " " cur.

Definition colon (gap : nat) : list ascii :=
  if (gap =? 0)%nat then [":"] else [":"; " "].

Fixpoint print (gap cur : nat) (v : jsval) : list ascii :=
  match v with
  | JUndefined | JNull => chars "null"
  | JBool b => chars (if b then "true" else "false")
  | JNum n => printZ n
  | JStr s => printString s
  | JArr [] => chars "[]"
  | JArr (x :: rest) =>
      "[" :: newline gap (cur + gap) ++ print gap (cur + gap) x ++
      (fix more (l : list jsval) : list ascii :=
         match l with
         | [] => []
         | y :: l' =>
             "," :: newline gap (cur + gap) ++ print gap (cur + gap) y ++ more l'
         end) rest ++
      newline gap cur ++ ["]"]
  | JObj [] => chars "{}"
  | JObj ((k, x) :: rest) =>
      "{" :: newline gap (cur + gap) ++ printString k ++ colon gap ++
      print gap (cur + gap) x ++
      (fix more (l : list (string * jsval)) : list ascii :=
         match l with
         | [] => []
         | (k', y) :: l' =>
             "," :: newline gap (cur + gap) ++ printString k' ++ colon gap ++
             print gap (cur + gap) y ++ more l'
         end) rest ++
      newline gap cur ++ ["}"]
  end.

(** The items after the first, each behind its comma *)
Fixpoint printElements (gap cur : nat) (l : list jsval) : list ascii :=
  match l with
  | [] => []
  | y :: l' =>
      "," :: newline gap (cur + gap) ++ print gap (cur + gap) y ++
      printElements gap cur l'
  end.

Fixpoint printMembers (gap cur : nat) (l : list (string * jsval)) : list ascii :=
  match l with
  | [] => []
  | (k, y) :: l' =>
      "," :: newline gap (cur + gap) ++ printString k ++ colon gap ++
      print gap (cur + gap) y ++ printMembers gap cur l'
  end.

(** Fuel that reading the text of a value takes at most *)
Fixpoint size (v : jsval) : nat :=
  match v with
  | JArr items => S (S (list_sum (map size items)))
  | JObj props => S (S (list_sum (map (fun kv => S (size (snd kv))) props)))
  | _ => 1
  end.

(** [JSON.stringify(v, null, indent)]: the text of what it keeps of
    [v], indented by at most ten spaces a level. *)
Definition stringify (v : jsval) (indent : nat) : string :=
  string_of_list_ascii (print (Nat.min indent 10) 0 (Value.toJSON v)).

(** *** Reading *)

Definition isWs (c : ascii) : bool :=
  let n := nat_of_ascii c in
  ((n =? 32) || (n =? 9) || (n =? 10) || (n =? 13))%nat.

Fixpoint skipWs (s : list ascii) : list ascii :=
  match s with
  | c :: r => if isWs c then skipWs r else s
  | [] => []
  end.

Definition isDigit (c : ascii) : bool :=
  let n := nat_of_ascii c in ((48 <=? n) && (n <=? 57))%nat.

Fixpoint spanDigits (s : list ascii) : list ascii * list ascii :=
  match s with
  | c :: r =>
      if isDigit c then let '(d, rest) := spanDigits r in (c :: d, rest)
      else ([], s)
  | [] => ([], [])
  end.

Definition leadingZero (tok : list ascii) : bool :=
  match tok with
  | c :: _ :: _ => Ascii.eqb c "0"
  | _ => false
  end.

(** [0], or digits that do not start with zero *)
Definition readNat (s : list ascii) : option (N * list ascii) :=
  let '(tok, rest) := spanDigits s in
  if leadingZero tok then None
  else
    match NilZero.uint_of_string (string_of_list_ascii tok) with
    | Some d => Some (N.of_uint d, rest)
    | None => None
    end.

(** What follows [c] at the head of [s] *)
Definition expect (c : ascii) (s : list ascii) : option (list ascii) :=
  match s with
  | x :: r => if Ascii.eqb x c then Some r else None
  | [] => None
  end.

Definition readNumber (s : list ascii) : option (jsval * list ascii) :=
  match expect "-" s with
  | Some r =>
      match readNat r with
      | Some (n, rest) => Some (JNum (- Z.of_N n), rest)
      | None => None
      end
  | None =>
      match readNat s with
      | Some (n, rest) => Some (JNum (Z.of_N n), rest)
      | None => None
      end
  end.

Definition hexValue (c : ascii) : option nat :=
  let n := nat_of_ascii c in
  if isDigit c then Some (n - 48)%nat
  else if ((97 <=? n) && (n <=? 102))%nat then Some (n - 87)%nat
  else if ((65 <=? n) && (n <=? 70))%nat then Some (n - 55)%nat
  else None.

Definition consChar (c : ascii) (r : option (list ascii * list ascii))
  : option (list ascii * list ascii) :=
  match r with
  | Some (cs, rest) => Some (c :: cs, rest)
  | None => None
  end.

(** The characters of a string literal after its opening quote, and
    what follows the closing quote.  A [\u] escape must denote a code unit
    below 256. *)
Fixpoint readChars (s : list ascii) : option (list ascii * list ascii) :=
  match s with
  | [] => None
  | c :: r =>
      if Ascii.eqb c dquote then Some ([], r)
      else if Ascii.eqb c backslash then
        match r with
        | [] => None
        | e :: r' =>
            if Ascii.eqb e dquote then consChar dquote (readChars r')
            else if Ascii.eqb e backslash then consChar backslash (readChars r')
            else if Ascii.eqb e "/" then consChar "/" (readChars r')
            else if Ascii.eqb e "b" then consChar (ascii_of_nat 8) (readChars r')
            else if Ascii.eqb e "t" then consChar (ascii_of_nat 9) (readChars r')
            else if Ascii.eqb e "n" then consChar (ascii_of_nat 10) (readChars r')
            else if Ascii.eqb e "f" then consChar (ascii_of_nat 12) (readChars r')
            else if Ascii.eqb e "r" then consChar (ascii_of_nat 13) (readChars r')
            else if Ascii.eqb e "u" then
              match r' with
              | "0" :: "0" :: h1 :: h2 :: r'' =>
                  match hexValue h1, hexValue h2 with
                  | Some a, Some b => consChar (ascii_of_nat (16 * a + b)) (readChars r'')
                  | _, _ => None
                  end
              | _ => None
              end
            else None
        end
      else if (nat_of_ascii c <? 32)%nat then None
      else consChar c (readChars r)
  end.

Fixpoint stripPrefix (p s : list ascii) : option (list ascii) :=
  match p, s with
  | [], _ => Some s
  | a :: p', b :: s' => if Ascii.eqb a b then stripPrefix p' s' else None
  | _ :: _, [] => None
  end.

Definition readKeyword (kw : string) (v : jsval) (s : list ascii)
  : option (jsval * list ascii) :=
  match stripPrefix (chars kw) s with
  | Some rest => Some (v, rest)
  | None => None
  end.

(** [readValue] reads a value, [readElements] what follows an element of
    an array, [readMember] a key, a colon and a value, [readMembers] what
    follows a member of an object. *)
Fixpoint readValue (fuel : nat) (s : list ascii) : option (jsval * list ascii) :=
  match fuel with
  | O => None
  | S fuel' =>
      match skipWs s with
      | [] => None
      | c :: r =>
          if Ascii.eqb c "n" then readKeyword "null" JNull (c :: r)
          else if Ascii.eqb c "t" then readKeyword "true" (JBool true) (c :: r)
          else if Ascii.eqb c "f" then readKeyword "false" (JBool false) (c :: r)
          else if Ascii.eqb c dquote then
            match readChars r with
            | Some (cs, rest) => Some (JStr (string_of_list_ascii cs), rest)
            | None => None
            end
          else if Ascii.eqb c "[" then
            match expect "]" (skipWs r) with
            | Some rest => Some (JArr [], rest)
            | None =>
                match readValue fuel' r with
                | Some (x, r1) =>
                    match readElements fuel' r1 with
                    | Some (xs, rest) => Some (JArr (x :: xs), rest)
                    | None => None
                    end
                | None => None
                end
            end
          else if Ascii.eqb c "{" then
            match expect "}" (skipWs r) with
            | Some rest => Some (JObj [], rest)
            | None =>
                match readMember fuel' r with
                | Some (kx, r1) =>
                    match readMembers fuel' r1 with
                    | Some (kxs, rest) => Some (JObj (kx :: kxs), rest)
                    | None => None
                    end
                | None => None
                end
            end
          else if Ascii.eqb c "-" || isDigit c then readNumber (c :: r)
          else None
      end
  end
with readElements (fuel : nat) (s : list ascii) : option (list jsval * list ascii) :=
  match fuel with
  | O => None
  | S fuel' =>
      match expect "]" (skipWs s) with
      | Some rest => Some ([], rest)
      | None =>
          match expect "," (skipWs s) with
          | Some r =>
              match readValue fuel' r with
              | Some (x, r1) =>
                  match readElements fuel' r1 with
                  | Some (xs, rest) => Some (x :: xs, rest)
                  | None => None
                  end
              | None => None
              end
          | None => None
          end
      end
  end
with readMember (fuel : nat) (s : list ascii) : option ((string * jsval) * list ascii) :=
  match fuel with
  | O => None
  | S fuel' =>
      match expect dquote (skipWs s) with
      | Some r =>
          match readChars r with
          | Some (k, r1) =>
              match expect ":" (skipWs r1) with
              | Some r2 =>
                  match readValue fuel' r2 with
                  | Some (x, rest) => Some ((string_of_list_ascii k, x), rest)
                  | None => None
                  end
              | None => None
              end
          | None => None
          end
      | None => None
      end
  end
with readMembers (fuel : nat) (s : list ascii)
  : option (list (string * jsval) * list ascii) :=
  match fuel with
  | O => None
  | S fuel' =>
      match expect "}" (skipWs s) with
      | Some rest => Some ([], rest)
      | None =>
          match expect "," (skipWs s) with
          | Some r =>
              match readMember fuel' r with
              | Some (kx, r1) =>
                  match readMembers fuel' r1 with
                  | Some (kxs, rest) => Some (kx :: kxs, rest)
                  | None => None
                  end
              | None => None
              end
          | None => None
          end
      end
  end.

(** [JSON.parse(text)]: one value, then white space only. *)
Definition parse (text : string) : option jsval :=
  let s := chars text in
  match readValue (S (S (List.length s))) s with
  | Some (v, rest) =>
      match skipWs rest with
      | [] => Some v
      | _ => None
      end
  | None => None
  end.

(** The properties a text keeps: [toJSON] on a property list *)
Definition keptProps : list (string * jsval) -> list (string * jsval) :=
  fix go (ps : list (string * jsval)) : list (string * jsval) :=
    match ps with
    | [] => []
    | (k, JUndefined) :: rest => go rest
    | (k, x) :: rest => (k, Value.toJSON x) :: go rest
    end.

(** The characters a value's text can start with *)
Definition valueStart (c : ascii) : bool :=
  Ascii.eqb c "n" || Ascii.eqb c "t" || Ascii.eqb c "f" || Ascii.eqb c dquote ||
  Ascii.eqb c "[" || Ascii.eqb c "{" || Ascii.eqb c "-" || isDigit c.

(** What may follow a number: not a digit *)
Definition okRest (rest : list ascii) : Prop :=
  match rest with
  | c :: _ => isDigit c = false
  | [] => True
  end.

(** Reading the text of [v], whatever indentation it was written with
    and whatever follows it, gives [v] back. *)
Definition readsBack (v : jsval) : Prop :=
  forall fuel gap cur rest,
    size v <= fuel -> okRest rest ->
    readValue fuel (print gap cur v ++ rest) = Some (v, rest).

End RefJson.

Definition refJson : JSONApi :=
  {| JSON_stringify := RefJson.stringify; JSON_parse := RefJson.parse |}.

(** ** Notions the specification uses *)

(** Running an operation [n] times in a row *)
Fixpoint times (n : nat) (m : M unit) : M unit :=
  match n with
  | O => ret tt
  | S k => m ;;; times k m
  end.

(** A data URL is a metadata prefix, a comma, and the data: what follows
    the first comma of a payload, if it has one. *)
Fixpoint afterFirstComma (s : string) : option string :=
  match s with
  | EmptyString => None
  | String c r => if Ascii.eqb c "," then Some r else afterFirstComma r
  end.

(** The payload with the metadata prefix stripped, as the specification
    words it; a payload without a comma is not a data URL. *)
Definition strippedPayload (payload : string) : string :=
  match afterFirstComma payload with
  | Some data => data
  | None => payload
  end.

(** What precedes the first comma of a string (all of it if it has none) *)
Fixpoint beforeComma (s : string) : string :=
  match s with
  | EmptyString => EmptyString
  | String c r => if Ascii.eqb c "," then EmptyString else String c (beforeComma r)
  end.

(** The falsy values JSON can carry, and [undefined] *)
Definition falsyValues : list jsval :=
  [JUndefined; JNull; JBool false; JNum 0; JStr ""].

(** The maximal runs of white space and of other characters of a
    string, in order, each with its kind *)
Fixpoint runs (s : string) : list (bool * string) :=
  match s with
  | EmptyString => []
  | String c r =>
      match runs r with
      | (ws, run) :: rest =>
          if Bool.eqb ws (Js.is_space c) then (ws, String c run) :: rest
          else (Js.is_space c, String c EmptyString) :: (ws, run) :: rest
      | [] => [(Js.is_space c, String c EmptyString)]
      end
  end.

Fixpoint render (rs : list (bool * string)) : string :=
  match rs with
  | [] => EmptyString
  | (ws, run) :: rest => (if ws then "_" else run) +:+ render rest
  end.

(** A string with each run of white space replaced by one underscore *)
Definition underscored (s : string) : string := render (runs s).

(** The doctor name as the value holds it: a string, or none when the
    field is [undefined] or [null]; nothing for any other value *)
Definition doctorString (v : jsval) : option (option string) :=
  match v with
  | JUndefined | JNull => Some None
  | JStr s => Some (Some s)
  | _ => None
  end.

(** The doctor name a result carries, as the specification words it:
    the [doctor_name] member of the [metadata] member of the payload;
    [undefined] where the payload or its [metadata] is no object or the
    member is missing *)
Definition doctorOf (result : jsval) : jsval :=
  match result with
  | JObj members =>
      match Value.lookup "metadata" members with
      | JObj metadata => Value.lookup "doctor_name" metadata
      | _ => JUndefined
      end
  | _ => JUndefined
  end.

(** The doctor part of an archive name *)
Definition doctorPart (doctor : option string) : string :=
  match doctor with
  | None => "unknown"
  | Some EmptyString => "unknown"
  | Some s => underscored s
  end.

(** The archive name for a doctor and an instant: the date and the time
    of day to the second, hyphens between the fields of both *)
Definition archiveName (doctor : option string) (t : Z) : string :=
  "prescription_" +:+ doctorPart doctor +:+ "_" +:+ JsDate.dateTime "-" t +:+ ".json".

(** The body of a successful save response *)
Definition savedBody (filename filepath : string) : jsval :=
  JObj [("success", JBool true);
        ("filename", JStr filename);
        ("filepath", JStr filepath);
        ("message", JStr ("Result saved to " +:+ filename))].

(** The record [savePrescription] builds from the readings [t_id] and
    [t_created] of the clock *)
Definition newRecord (t_id t_created : Z) (payload : jsval) : jsval :=
  JObj [("id", JNum t_id);
        ("data", payload);
        ("created_at", JStr (JsDate.toISOString t_created))].

(** A payload as a request carries it: a JSON value, or nothing at all *)
Definition isPayload (p : jsval) : Prop := p = JUndefined \/ Value.is_json p = true.

Definition recordId (r : jsval) : Z :=
  match Value.prop r "id" with
  | JNum n => n
  | _ => 0%Z
  end.

(** What the store keeps of a new record: the payload as it is, and no
    [data] property at all for an [undefined] payload. *)
Definition keptRecord (t_id t_created : Z) (payload : jsval) : jsval :=
  match payload with
  | JUndefined =>
      JObj [("id", JNum t_id); ("created_at", JStr (JsDate.toISOString t_created))]
  | _ => newRecord t_id t_created payload
  end.

(** What the store keeps of payloads appended from the [k]-th reading of
    the clock on: each append reads the clock twice. *)
Fixpoint keptFrom (clk : nat -> Z) (k : nat) (payloads : list jsval) : list jsval :=
  match payloads with
  | [] => []
  | p :: ps => keptRecord (clk k) (clk (S k)) p :: keptFrom clk (S (S k)) ps
  end.

Section StoreNotions.

Context {J : JSONApi}.

(** Appending payloads one at a time; the records built, in order *)
Fixpoint appendAll (payloads : list jsval) : M (list jsval) :=
  match payloads with
  | [] => ret []
  | p :: ps =>
      r <- savePrescription p ;;
      rs <- appendAll ps ;;
      ret (r :: rs)
  end.

(** The world after [payload] is appended to a store holding [items] *)
Definition afterAppend (w : world) (items : list jsval) (payload : jsval) : world :=
  Fs.set_fs
    (<[DB_FILE := File (JSON_stringify
                          (JArr (items ++ [newRecord (clock w (reads w))
                                             (clock w (S (reads w))) payload])) 2)]>
       (fs w))
    (tick (tick w)).

(** The store holds the JSON array [items]. *)
Definition holds (w : world) (items : list jsval) : Prop :=
  exists text,
    fs w !! DB_FILE = Some (File text) /\ JSON_parse text = Some (JArr items) /\
    Forall (fun x => Value.is_json x = true) items.

End StoreNotions.

(** An extraction result of the shape the schema asks for *)
Definition sampleMedication : jsval :=
  JObj [("name", JStr "Amoxicillin"); ("dosage", JStr "500mg");
        ("frequency", JStr "twice a day"); ("duration", JStr "7 days");
        ("quantity", JNum 14); ("instructions", JStr "after meals");
        ("confidence", JNum 1)].

Definition sampleResult : jsval :=
  JObj [("status", JStr "success"); ("confidence", JNum 1);
        ("extracted_text", JStr "Amoxicillin 500mg");
        ("medications", JArr [sampleMedication]);
        ("metadata",
         JObj [("prescription_date", JStr "2024-01-15");
               ("doctor_name", JStr "Dr. Jane Smith");
               ("image_quality", JStr "good");
               ("has_handwriting", JBool true)]);
        ("errors", JArr [])].

(** ** Concrete worlds *)

(** A clock that stays within one millisecond, and one that advances *)
Definition stuckClock : nat -> Z := fun _ => 1700000000000%Z.

Definition runningClock : nat -> Z := fun k => (1700000000000 + 7 * Z.of_nat k)%Z.

(** An empty working directory, and the same once the server has
    started *)
Definition freshDisk (clk : nat -> Z) : world :=
  {| fs := ∅; cwd := "/srv/app"; clock := clk; reads := 0 |}.

Definition booted (clk : nat -> Z) : world :=
  snd (startServer (J := refJson) (freshDisk clk)).

(** A result whose doctor name climbs out of the directory it is joined
    to *)
Definition traversalResult : jsval :=
  JObj [("metadata", JObj [("doctor_name", JStr "a/../../x")])].

(** The started server once the sample result has been archived *)
Definition archived : world :=
  snd (post_save_result (J := refJson) (JObj [("result", sampleResult)])
         (booted runningClock)).

(** ** Notions for the routes and the archive *)

(** The store file as a request finds it: the array it holds, if it is a
    file whose text parses to an array *)
Definition storedArray {J : JSONApi} (w : world) : option (list jsval) :=
  match fs w !! DB_FILE with
  | Some (File text) =>
      match JSON_parse text with
      | Some (JArr items) => Some items
      | _ => None
      end
  | _ => None
  end.

(** The status a response carries; a download is sent with 200. *)
Definition statusOf (res : response) : Z :=
  match res with
  | Json status _ => status
  | Download _ _ => 200
  end.

(** A segment that [normalizeString] keeps as it is *)
Definition plain (seg : string) : Prop :=
  seg <> "" /\ seg <> "." /\ seg <> "..".

(** Every character of [s] satisfies [p]. *)
Fixpoint every (p : ascii -> bool) (s : string) : bool :=
  match s with
  | EmptyString => true
  | String c r => p c && every p r
  end.

(** The characters of a timestamp: digits, the hyphen, [T], and the sign
    of a year beyond 9999 *)
Definition stampChar (c : ascii) : bool :=
  let n := nat_of_ascii c in
  ((48 <=? n) && (n <=? 57) || (n =? 45) || (n =? 84) || (n =? 43))%nat.

(** The end of every archive name *)
Definition nameTail (t : Z) : string := "_" +:+ JsDate.dateTime "-" t +:+ ".json".

(** The doctor name has no separator (a missing one has none). *)
Definition plainDoctor (doctor : option string) : bool :=
  match doctor with
  | Some s => negb (Js.hasChar Path.sep s)
  | None => true
  end.

(** The results directory takes a file under [name]: the path is one
    the file system takes, [results] is a directory and no directory stands
    at the place of the file. *)
Definition resultsTakes (f : gmap string node) (name : string) : bool :=
  Fs.validPath ("results/" +:+ name)
  && match f !! "results" with
     | Some Dir =>
         match f !! ("results/" +:+ name) with
         | Some Dir => false
         | _ => true
         end
     | _ => false
     end.

(** The statuses a route can answer with *)
Definition statuses (req : apiRequest) : list Z :=
  match req with
  | GetHealth => [200]
  | PostPrescriptions _ => [200; 500]
  | PostSaveResult _ => [200; 400; 500]
  | GetResults => [200; 500]
  | GetResultFile _ => [200; 403; 404; 500]
  | GetPrescriptions => [200; 500]
  end%Z.

(** The body of a request is a JSON value, as the body parser leaves it. *)
Definition jsonRequest (req : apiRequest) : Prop :=
  match req with
  | PostPrescriptions body | PostSaveResult body => Value.is_json body = true
  | _ => True
  end.

(** The path a request may write: the store file for an append, the
    archive file for a save *)
Definition touches (req : apiRequest) (w : world) (p : string) : Prop :=
  match req with
  | PostPrescriptions _ => p = DB_FILE
  | PostSaveResult body =>
      exists doctor,
        doctorString (metadata_doctor_name (Value.prop body "result")) = Some doctor
        /\ p = Path.join ["results"; archiveName doctor (clock w (reads w))]
  | _ => False
  end.

(** A request that appends to the store when the store is sound *)
Definition isAppend (req : apiRequest) : bool :=
  match req with
  | PostPrescriptions body => negb (Value.nullish body)
  | _ => false
  end.

(** No white space *)
Definition unspaced (c : ascii) : bool := negb (Js.is_space c).

(** An entry of the results directory of the file system [f] *)
Definition resultsEntry (f : gmap string node) (n : string) : Prop :=
  n <> "" /\ Js.hasChar Path.sep n = false /\ is_Some (f !! ("results/" +:+ n)).

(** The JSON body of a listing *)
Definition listing (files : list string) : jsval :=
  JObj [("results", JArr (map JStr files))].

(** Where the download handler looks for the entry named [b] *)
Definition downloadPath (b : string) : string :=
  if decide (b = "" \/ b = ".") then "results"
  else if decide (b = "..") then "."
  else "results/" +:+ b.

(** What [startServer] makes sure is on the disk *)
Definition startEntries {J : JSONApi} : list (string * node) :=
  [(DB_FILE, File (JSON_stringify (JArr []) 0)); ("uploads", Dir); ("results", Dir)].

(** The entry at [p] once [startServer] has run on [f]: what was there,
    or else what [startServer] creates at [p] *)
Definition started {J : JSONApi} (f : gmap string node) (p : string) : option node :=
  match f !! p with
  | Some n => Some n
  | None => snd <$> List.find (fun e => String.eqb (fst e) p) startEntries
  end.

(** The two requests [handleProcess] sends once the extraction has
    returned [data], in order: the record for the history, then the result
    to archive.  Each body is the object the client serializes. *)
Definition handleProcess_requests (data : jsval) : list apiRequest :=
  [PostPrescriptions (JObj [("data", data)]);
   PostSaveResult (JObj [("result", data)])].

(** The body of a successful append response *)
Definition appendedBody (id : Z) : jsval :=
  JObj [("success", JBool true); ("id", JNum id)].

(** A mixed run of requests against the started server *)
Definition sampleRequests : list apiRequest :=
  [PostPrescriptions (JObj [("data", sampleResult)]);
   GetResults;
   PostSaveResult (JObj [("result", sampleResult)]);
   PostPrescriptions JNull;
   GetResultFile "prescription_Dr._Jane_Smith_2023-11-14T22-13-20.json";
   GetPrescriptions].

(** * Properties *)

(** ** Strings and dates *)

Module JsFacts.

Lemma length_append (a b : string) :
  String.length (a +:+ b) = (String.length a + String.length b)%nat.
Proof. induction a as [|c a IH]; simpl; [reflexivity|]. rewrite IH. reflexivity. Qed.

Lemma substring_prefix (a b : string) :
  String.substring 0 (String.length a) (a +:+ b) = a.
Proof.
  induction a as [|c a IH]; simpl.
  - destruct b; reflexivity.
  - rewrite IH. reflexivity.
Qed.

Lemma slice_drop_last_append (a b : string) (k : nat) :
  String.length b = k -> Js.slice_drop_last k (a +:+ b) = a.
Proof.
  intros <-. unfold Js.slice_drop_last, Js.len. rewrite length_append.
  replace (String.length a + String.length b - String.length b)%nat
    with (String.length a) by lia.
  apply substring_prefix.
Qed.

Lemma replace_colon_dot_append (a b : string) :
  Js.replace_colon_dot (a +:+ b) = Js.replace_colon_dot a +:+ Js.replace_colon_dot b.
Proof. induction a as [|c a IH]; simpl; [reflexivity|]. rewrite IH. reflexivity. Qed.

Lemma digit_plain (k : Z) : Js.is_colon_or_dot (JsDate.digit k) = false.
Proof.
  unfold JsDate.digit.
  assert (H : (0 <= k mod 10 < 10)%Z) by (apply Z.mod_pos_bound; lia).
  assert (Hn : (Z.to_nat (k mod 10) < 10)%nat) by lia.
  destruct (Z.to_nat (k mod 10)) as [|[|[|[|[|[|[|[|[|[|n]]]]]]]]]];
    try reflexivity; lia.
Qed.

Lemma replace_colon_dot_pad (n : nat) (k : Z) :
  Js.replace_colon_dot (JsDate.pad n k) = JsDate.pad n k.
Proof.
  revert k. induction n as [|n IH]; intros k; [reflexivity|].
  cbn [JsDate.pad]. rewrite replace_colon_dot_append, IH.
  cbn [Js.replace_colon_dot]. rewrite digit_plain. reflexivity.
Qed.

Lemma length_pad (n : nat) (k : Z) : String.length (JsDate.pad n k) = n.
Proof.
  revert k. induction n as [|n IH]; intros k; [reflexivity|].
  cbn [JsDate.pad]. rewrite length_append, IH. simpl. lia.
Qed.

Lemma replace_colon_dot_year (y : Z) :
  Js.replace_colon_dot (JsDate.yearString y) = JsDate.yearString y.
Proof.
  unfold JsDate.yearString.
  destruct ((0 <=? y)%Z && (y <=? 9999)%Z); [apply replace_colon_dot_pad|].
  rewrite replace_colon_dot_append, replace_colon_dot_pad.
  destruct (y <? 0)%Z; reflexivity.
Qed.

(** Replacing the colons and periods of the ISO rendering and dropping
    its last five characters leaves the date and the time to the second,
    with hyphens. *)
Lemma timestamp_eq (t : Z) :
  Js.slice_drop_last 5 (Js.replace_colon_dot (JsDate.toISOString t))
  = JsDate.dateTime "-" t.
Proof.
  unfold JsDate.toISOString. rewrite replace_colon_dot_append.
  rewrite slice_drop_last_append.
  - unfold JsDate.dateTime. destruct (JsDate.civil (t / JsDate.msPerDay)) as [[y m] d].
    rewrite !replace_colon_dot_append, !replace_colon_dot_pad, replace_colon_dot_year.
    reflexivity.
  - rewrite !replace_colon_dot_append, replace_colon_dot_pad.
    cbn [Js.replace_colon_dot]. rewrite !length_append, length_pad. reflexivity.
Qed.

(** Two instants of the same second have the same date and time. *)
Lemma dateTime_same_second (tsep : string) (t1 t2 : Z) :
  (t1 / 1000 = t2 / 1000)%Z -> JsDate.dateTime tsep t1 = JsDate.dateTime tsep t2.
Proof.
  intros H. unfold JsDate.dateTime, JsDate.msPerDay.
  assert (Hd : (t1 / 86400000 = t2 / 86400000)%Z)
    by (Z.div_mod_to_equations; lia).
  assert (Hh : (t1 mod 86400000 / 3600000 = t2 mod 86400000 / 3600000)%Z)
    by (Z.div_mod_to_equations; lia).
  assert (Hm : (t1 mod 86400000 / 60000 = t2 mod 86400000 / 60000)%Z)
    by (Z.div_mod_to_equations; lia).
  assert (Hs : (t1 mod 86400000 / 1000 = t2 mod 86400000 / 1000)%Z)
    by (Z.div_mod_to_equations; lia).
  rewrite Hd, Hh, Hm, Hs. reflexivity.
Qed.

Lemma render_runs_from (s : string) :
  Js.replace_spaces_from false s = render (runs s)
  /\ Js.replace_spaces_from true s =
       match runs s with
       | (true, _) :: rest => render rest
       | rs => render rs
       end.
Proof.
  induction s as [|c r [IHf IHt]]; [split; reflexivity|].
  cbn [Js.replace_spaces_from runs]. rewrite IHf, IHt.
  destruct (Js.is_space c) eqn:Hc; destruct (runs r) as [|[[] run] rest];
    cbn [Bool.eqb render String.append]; split; reflexivity.
Qed.

(** The global replacement of [\s+] by an underscore replaces each run
    of white space by one underscore. *)
Lemma replace_spaces_underscored (s : string) : Js.replace_spaces s = underscored s.
Proof. apply render_runs_from. Qed.

Lemma replace_spaces_empty (s : string) : Js.replace_spaces s = "" -> s = "".
Proof.
  unfold Js.replace_spaces. destruct s as [|c r]; [reflexivity|].
  cbn [Js.replace_spaces_from]. destruct (Js.is_space c); discriminate.
Qed.

End JsFacts.

(** ** Paths *)

Module PathFacts.

Lemma relative_not_under_absolute (a x : string) :
  Path.isAbsolute a = false -> Js.startsWith a ("/" +:+ x) = false.
Proof.
  unfold Js.startsWith, Path.isAbsolute.
  change ("/" +:+ x) with (String "/" x).
  destruct a as [|c a]; cbn [String.prefix]; [reflexivity|].
  intros Hc. destruct (ascii_dec "/" c) as [<-|]; [discriminate|reflexivity].
Qed.

Lemma split_relative (p : string) :
  Forall (fun seg => Path.isAbsolute seg = false) (Js.split Path.sep p).
Proof.
  induction p as [|c r IH]; simpl.
  - repeat constructor.
  - destruct (Ascii.eqb c Path.sep) eqn:Hc.
    + constructor; [reflexivity|exact IH].
    + destruct (Js.split Path.sep r) as [|q qs].
      * repeat constructor. simpl. exact Hc.
      * inversion IH; subst. constructor; [simpl; exact Hc|assumption].
Qed.

Lemma normalizeStep_kept (above : bool) (stack : list string) (seg : string) :
  Path.isAbsolute seg = false ->
  Forall Path.kept stack -> Forall Path.kept (Path.normalizeStep above stack seg).
Proof.
  intros Hseg Hst. unfold Path.normalizeStep.
  repeat case_decide; subst; try assumption.
  - destruct stack as [|top below].
    + destruct above; repeat constructor; discriminate.
    + case_decide.
      * destruct above; [constructor; [split; [discriminate|reflexivity]|]|]; assumption.
      * inversion Hst; assumption.
  - constructor; [split|]; assumption.
Qed.

Lemma fold_normalizeStep_kept (above : bool) (segs stack : list string) :
  Forall (fun seg => Path.isAbsolute seg = false) segs ->
  Forall Path.kept stack ->
  Forall Path.kept (fold_left (Path.normalizeStep above) segs stack).
Proof.
  revert stack. induction segs as [|seg segs IH]; intros stack Hs Hst; simpl.
  - exact Hst.
  - inversion Hs; subst. apply IH; [assumption|].
    apply normalizeStep_kept; assumption.
Qed.

Lemma join_kept_relative (segs : list string) :
  Forall Path.kept segs -> Path.isAbsolute (Js.join "/" segs) = false.
Proof.
  intros H. destruct segs as [|a rest]; [reflexivity|].
  inversion H as [|? ? [Hne Ha] _]; subst.
  destruct a as [|c a]; [congruence|].
  destruct rest; simpl in *; exact Ha.
Qed.

Lemma normalizeString_relative (p : string) (above : bool) :
  Path.isAbsolute (Path.normalizeString p above) = false.
Proof.
  unfold Path.normalizeString. apply join_kept_relative.
  apply Forall_rev, fold_normalizeStep_kept; [apply split_relative|constructor].
Qed.

Lemma append_relative (a b : string) :
  a <> "" -> Path.isAbsolute a = false -> Path.isAbsolute (a +:+ b) = false.
Proof. destruct a; [congruence|intros _ H; exact H]. Qed.

Lemma normalize_relative (p : string) :
  Path.isAbsolute p = false -> Path.isAbsolute (Path.normalize p) = false.
Proof.
  intros Hp. unfold Path.normalize. rewrite Hp. simpl negb.
  case_decide; [reflexivity|].
  case_decide as Hq.
  - destruct (Path.endsWithSep p); reflexivity.
  - destruct (Path.endsWithSep p).
    + apply append_relative; [exact Hq|apply normalizeString_relative].
    + apply normalizeString_relative.
Qed.

(** Whatever is joined to the relative ["results"] stays relative. *)
Lemma join_results_relative (name : string) :
  Path.isAbsolute (Path.join ["results"; name]) = false.
Proof.
  unfold Path.join. destruct name as [|c name].
  - reflexivity.
  - assert (Hf : filter (fun a : string => a ≠ "") ["results"; String c name]
                 = ["results"; String c name]).
    { do 2 (rewrite filter_cons_True by discriminate). reflexivity. }
    rewrite Hf. apply normalize_relative. reflexivity.
Qed.

(** Resolving against an absolute working directory gives a path that
    starts with the separator. *)
Lemma resolve_results_absolute (here : string) :
  Path.isAbsolute here = true ->
  exists q, Path.resolve here ["results"] = "/" +:+ q.
Proof.
  intros Habs. unfold Path.resolve. simpl.
  case_decide as He; [subst; discriminate|].
  rewrite Habs. eexists. reflexivity.
Qed.

End PathFacts.

(** ** The reference codec *)

Module RefJsonFacts.
Import RefJson.
Local Open Scope list_scope.
Local Open Scope char_scope.

Lemma skipWs_start (c : ascii) (s : list ascii) :
  isWs c = false -> skipWs (c :: s) = c :: s.
Proof. intros H. simpl. rewrite H. reflexivity. Qed.

Lemma skipWs_spaces (n : nat) (s : list ascii) : skipWs (repeat " " n ++ s) = skipWs s.
Proof. induction n; simpl; auto. Qed.

Lemma skipWs_newline (gap cur : nat) (s : list ascii) :
  skipWs (newline gap cur ++ s) = skipWs s.
Proof.
  unfold newline. destruct (gap =? 0)%nat; [reflexivity|].
  simpl. apply skipWs_spaces.
Qed.

Lemma valueStart_facts (c : ascii) :
  valueStart c = true ->
  isWs c = false /\ Ascii.eqb c "]" = false /\ Ascii.eqb c "}" = false /\
  Ascii.eqb c "," = false.
Proof.
  destruct c as [[] [] [] [] [] [] [] []]; intros H; try discriminate H;
    repeat split; reflexivity.
Qed.

Lemma readEscaped (c : ascii) (tail : list ascii) :
  readChars (escapeChar c ++ tail) = consChar c (readChars tail).
Proof.
  destruct c as [[] [] [] [] [] [] [] []]; reflexivity.
Qed.

Lemma readChars_print (cs rest : list ascii) :
  readChars (flat_map escapeChar cs ++ dquote :: rest) = Some (cs, rest).
Proof.
  induction cs as [|c cs IH]; [reflexivity|].
  cbn [flat_map]. rewrite <- app_assoc, readEscaped, IH. reflexivity.
Qed.

Lemma digits_of_uint (d : Decimal.uint) :
  Forall (fun c => isDigit c = true) (chars (NilEmpty.string_of_uint d)).
Proof. induction d; simpl; constructor; auto. Qed.

Lemma spanDigits_app (ds rest : list ascii) :
  Forall (fun c => isDigit c = true) ds -> okRest rest ->
  spanDigits (ds ++ rest) = (ds, rest).
Proof.
  intros Hds Hrest. induction Hds as [|c ds Hc _ IH]; cbn [spanDigits app].
  - destruct rest as [|c rest]; [reflexivity|]. cbn [spanDigits].
    unfold okRest in Hrest. rewrite Hrest. reflexivity.
  - rewrite Hc, IH. reflexivity.
Qed.

Lemma to_uint_normal (n : N) : N.to_uint n = Decimal.unorm (N.to_uint n).
Proof.
  rewrite <- (DecimalN.Unsigned.of_to n) at 1. apply DecimalN.Unsigned.to_of.
Qed.

Lemma to_uint_shape (n : N) :
  match N.to_uint n with
  | Decimal.Nil => False
  | Decimal.D0 u => u = Decimal.Nil
  | _ => True
  end.
Proof.
  rewrite to_uint_normal. unfold Decimal.unorm.
  pose proof (DecimalFacts.nzhead_nonzero (N.to_uint n)) as Hnz.
  destruct (Decimal.nzhead (N.to_uint n)); try exact I; try reflexivity.
  exfalso. eapply Hnz. reflexivity.
Qed.

Lemma readNat_print (n : N) (rest : list ascii) :
  okRest rest ->
  readNat (chars (NilZero.string_of_uint (N.to_uint n)) ++ rest) = Some (n, rest).
Proof.
  intros Hrest. unfold readNat.
  pose proof (to_uint_shape n) as Hshape.
  assert (Hne : N.to_uint n <> Decimal.Nil)
    by (intros E; rewrite E in Hshape; exact Hshape).
  assert (Hstr : NilZero.string_of_uint (N.to_uint n)
                 = NilEmpty.string_of_uint (N.to_uint n))
    by (destruct (N.to_uint n); [congruence|reflexivity..]).
  rewrite spanDigits_app; [|rewrite Hstr; apply digits_of_uint|exact Hrest].
  assert (Hlz : leadingZero (chars (NilZero.string_of_uint (N.to_uint n))) = false).
  { rewrite Hstr. destruct (N.to_uint n) as [|u|u|u|u|u|u|u|u|u|u];
      try contradiction; subst; try reflexivity;
      simpl; destruct (chars (NilEmpty.string_of_uint u)); reflexivity. }
  rewrite Hlz. unfold chars. rewrite string_of_list_ascii_of_string.
  rewrite NilZero.usu by exact Hne.
  rewrite DecimalN.Unsigned.of_to. reflexivity.
Qed.

Lemma printNat_start (n : N) :
  exists c r, chars (NilZero.string_of_uint (N.to_uint n)) = c :: r /\ isDigit c = true.
Proof.
  pose proof (to_uint_shape n) as Hshape.
  destruct (N.to_uint n); try contradiction; simpl; eauto.
Qed.

Lemma readNumber_print (z : Z) (rest : list ascii) :
  okRest rest -> readNumber (printZ z ++ rest) = Some (JNum z, rest).
Proof.
  intros Hrest. unfold readNumber, printZ.
  destruct (Z.ltb_spec z 0) as [Hneg|Hpos].
  - simpl. rewrite readNat_print by exact Hrest.
    rewrite N2Z.inj_abs_N. repeat f_equal. lia.
  - destruct (printNat_start (Z.abs_N z)) as (c & r & Hp & Hc).
    assert (He : expect "-" (([] ++ chars (NilZero.string_of_uint (N.to_uint (Z.abs_N z))))
                             ++ rest) = None).
    { simpl. rewrite Hp. simpl.
      destruct (Ascii.eqb_spec c "-"); [subst; discriminate|reflexivity]. }
    rewrite He. simpl. rewrite readNat_print by exact Hrest.
    rewrite N2Z.inj_abs_N. repeat f_equal. lia.
Qed.

Lemma skipWs_idem (s : list ascii) : skipWs (skipWs s) = skipWs s.
Proof.
  induction s as [|c s IH]; [reflexivity|]. cbn [skipWs].
  destruct (isWs c) eqn:E; [exact IH|]. cbn [skipWs]. rewrite E. reflexivity.
Qed.

Lemma readValue_skip (fuel : nat) (s : list ascii) :
  readValue fuel (skipWs s) = readValue fuel s.
Proof. destruct fuel; [reflexivity|]. simpl. rewrite skipWs_idem. reflexivity. Qed.

Lemma readValue_newline (fuel gap cur : nat) (s : list ascii) :
  readValue fuel (newline gap cur ++ s) = readValue fuel s.
Proof.
  rewrite <- readValue_skip, skipWs_newline. apply readValue_skip.
Qed.

Lemma readValue_number (fuel : nat) (c : ascii) (r : list ascii) :
  Ascii.eqb c "-" || isDigit c = true ->
  readValue (S fuel) (c :: r) = readNumber (c :: r).
Proof.
  destruct c as [[] [] [] [] [] [] [] []]; intros H; try discriminate H; reflexivity.
Qed.

Lemma readValue_array (fuel : nat) (r : list ascii) :
  readValue (S fuel) ("[" :: r) =
    match expect "]" (skipWs r) with
    | Some rest => Some (JArr [], rest)
    | None =>
        match readValue fuel r with
        | Some (x, r1) =>
            match readElements fuel r1 with
            | Some (xs, rest) => Some (JArr (x :: xs), rest)
            | None => None
            end
        | None => None
        end
    end.
Proof. reflexivity. Qed.

Lemma readValue_object (fuel : nat) (r : list ascii) :
  readValue (S fuel) ("{" :: r) =
    match expect "}" (skipWs r) with
    | Some rest => Some (JObj [], rest)
    | None =>
        match readMember fuel r with
        | Some (kx, r1) =>
            match readMembers fuel r1 with
            | Some (kxs, rest) => Some (JObj (kx :: kxs), rest)
            | None => None
            end
        | None => None
        end
    end.
Proof. reflexivity. Qed.

Lemma readElements_S (fuel : nat) (s : list ascii) :
  readElements (S fuel) s =
    match expect "]" (skipWs s) with
    | Some rest => Some ([], rest)
    | None =>
        match expect "," (skipWs s) with
        | Some r =>
            match readValue fuel r with
            | Some (x, r1) =>
                match readElements fuel r1 with
                | Some (xs, rest) => Some (x :: xs, rest)
                | None => None
                end
            | None => None
            end
        | None => None
        end
    end.
Proof. reflexivity. Qed.

Lemma readMember_S (fuel : nat) (s : list ascii) :
  readMember (S fuel) s =
    match expect dquote (skipWs s) with
    | Some r =>
        match readChars r with
        | Some (k, r1) =>
            match expect ":" (skipWs r1) with
            | Some r2 =>
                match readValue fuel r2 with
                | Some (x, rest) => Some ((string_of_list_ascii k, x), rest)
                | None => None
                end
            | None => None
            end
        | None => None
        end
    | None => None
    end.
Proof. reflexivity. Qed.

Lemma readMembers_S (fuel : nat) (s : list ascii) :
  readMembers (S fuel) s =
    match expect "}" (skipWs s) with
    | Some rest => Some ([], rest)
    | None =>
        match expect "," (skipWs s) with
        | Some r =>
            match readMember fuel r with
            | Some (kx, r1) =>
                match readMembers fuel r1 with
                | Some (kxs, rest) => Some (kx :: kxs, rest)
                | None => None
                end
            | None => None
            end
        | None => None
        end
    end.
Proof. reflexivity. Qed.

Lemma print_start (v : jsval) (gap cur : nat) :
  exists c r, print gap cur v = c :: r /\ valueStart c = true.
Proof.
  destruct v as [| |[]|z|s|[|x xs]|[|[k x] ps]]; simpl; eauto.
  unfold printZ. destruct (z <? 0)%Z; simpl; eauto.
  destruct (printNat_start (Z.abs_N z)) as (c & r & -> & Hc).
  exists c, r. split; [reflexivity|]. unfold valueStart. rewrite Hc.
  rewrite !orb_true_r. reflexivity.
Qed.

Lemma okRest_newline (gap cur : nat) (c : ascii) (rest : list ascii) :
  isDigit c = false -> okRest (newline gap cur ++ c :: rest).
Proof. unfold newline. destruct (gap =? 0)%nat; simpl; auto. Qed.

Lemma okRest_elements (gap cur : nat) (xs : list jsval) (rest : list ascii) :
  okRest (printElements gap cur xs ++ newline gap cur ++ "]" :: rest).
Proof.
  destruct xs; [apply okRest_newline|]; reflexivity.
Qed.

Lemma okRest_members (gap cur : nat) (ps : list (string * jsval)) (rest : list ascii) :
  okRest (printMembers gap cur ps ++ newline gap cur ++ "}" :: rest).
Proof.
  destruct ps as [|[k x] ps]; [apply okRest_newline|]; reflexivity.
Qed.

Lemma print_array (gap cur : nat) (x : jsval) (xs : list jsval) :
  print gap cur (JArr (x :: xs)) =
    "[" :: newline gap (cur + gap) ++ print gap (cur + gap) x ++
    printElements gap cur xs ++ newline gap cur ++ ["]"].
Proof.
  cbn [print]. do 4 f_equal.
  induction xs as [|y ys IH]; [reflexivity|]. cbn [printElements]. rewrite <- IH.
  reflexivity.
Qed.

Lemma print_object (gap cur : nat) (k : string) (x : jsval) (ps : list (string * jsval)) :
  print gap cur (JObj ((k, x) :: ps)) =
    "{" :: newline gap (cur + gap) ++ printString k ++ colon gap ++
    print gap (cur + gap) x ++ printMembers gap cur ps ++ newline gap cur ++ ["}"].
Proof.
  cbn [print]. do 6 f_equal.
  induction ps as [|[k' y] ys IH]; [reflexivity|]. cbn [printMembers]. rewrite <- IH.
  reflexivity.
Qed.

Lemma size_pos (v : jsval) : 1 <= size v.
Proof. destruct v; simpl; lia. Qed.

Lemma expect_value_start (c : ascii) (v : jsval) (gap cur n : nat) (rest : list ascii) :
  (Ascii.eqb c "]" || Ascii.eqb c "}" || Ascii.eqb c ",") = true ->
  expect c (skipWs (newline gap n ++ print gap cur v ++ rest)) = None.
Proof.
  intros Hc. rewrite skipWs_newline.
  destruct (print_start v gap cur) as (x & r & -> & Hx).
  destruct (valueStart_facts x Hx) as (Hws & H1 & H2 & H3).
  cbn [app]. rewrite skipWs_start by exact Hws. cbn [expect].
  destruct (Ascii.eqb_spec x c) as [->|]; [|reflexivity].
  rewrite H1, H2, H3 in Hc. discriminate.
Qed.

Lemma readElements_print (xs : list jsval) :
  Forall readsBack xs ->
  forall fuel gap cur rest,
    S (list_sum (map size xs)) <= fuel ->
    readElements fuel (printElements gap cur xs ++ newline gap cur ++ "]" :: rest)
    = Some (xs, rest).
Proof.
  induction 1 as [|y ys Hy _ IH]; intros fuel gap cur rest Hfuel;
    (destruct fuel as [|fuel]; [simpl in Hfuel; lia|]); rewrite readElements_S.
  - cbn [printElements app]. rewrite skipWs_newline. reflexivity.
  - cbn [printElements app map list_sum] in *.
    change (skipWs ("," :: ?s)) with ("," :: s). cbn [expect]. cbn [Ascii.eqb Bool.eqb].
    rewrite <- !app_assoc, readValue_newline. simpl in Hfuel.
    pose proof (size_pos y).
    rewrite Hy; [|lia|apply okRest_elements].
    rewrite IH by lia. reflexivity.
Qed.

Lemma readValue_colon (fuel gap : nat) (s r : list ascii) :
  expect ":" (skipWs (colon gap ++ s)) = Some r ->
  readValue fuel r = readValue fuel s.
Proof.
  unfold colon. destruct (gap =? 0)%nat; cbn; intros [= <-]; [reflexivity|].
  rewrite <- readValue_skip. cbn [skipWs]. 
  change (isWs " ") with true. cbn iota. apply readValue_skip.
Qed.

Lemma expect_colon (gap : nat) (s : list ascii) :
  exists r, expect ":" (skipWs (colon gap ++ s)) = Some r.
Proof. unfold colon. destruct (gap =? 0)%nat; cbn; eauto. Qed.

Lemma readMember_print (k : string) (x : jsval) :
  readsBack x ->
  forall fuel gap cur n rest,
    S (size x) <= fuel -> okRest rest ->
    readMember fuel (newline gap n ++ printString k ++ colon gap ++ print gap cur x ++ rest)
    = Some ((k, x), rest).
Proof.
  intros Hx fuel gap cur n rest Hfuel Hrest.
  destruct fuel as [|fuel]; [lia|]. rewrite readMember_S, skipWs_newline.
  unfold printString. cbn [app]. change (skipWs (dquote :: ?s)) with (dquote :: s).
  cbn [expect]. change (Ascii.eqb dquote dquote) with true. cbn iota.
  rewrite <- !app_assoc. cbn [app]. rewrite readChars_print.
  destruct (expect_colon gap (print gap cur x ++ rest)) as [r Hr].
  rewrite Hr, (readValue_colon _ _ _ _ Hr).
  rewrite Hx; [|lia|exact Hrest].
  unfold chars. rewrite string_of_list_ascii_of_string. reflexivity.
Qed.

Lemma readMembers_print (ps : list (string * jsval)) :
  Forall (fun kv => readsBack (snd kv)) ps ->
  forall fuel gap cur rest,
    S (list_sum (map (fun kv => S (size (snd kv))) ps)) <= fuel ->
    readMembers fuel (printMembers gap cur ps ++ newline gap cur ++ "}" :: rest)
    = Some (ps, rest).
Proof.
  induction 1 as [|[k y] ys Hy _ IH]; intros fuel gap cur rest Hfuel;
    (destruct fuel as [|fuel]; [simpl in Hfuel; lia|]); rewrite readMembers_S.
  - cbn [printMembers app]. rewrite skipWs_newline. reflexivity.
  - cbn [printMembers app].
    change (skipWs ("," :: ?s)) with ("," :: s). cbn [expect]. cbn [Ascii.eqb Bool.eqb].
    rewrite <- !app_assoc. simpl in Hfuel, Hy.
    rewrite readMember_print; [|exact Hy|lia|apply okRest_members].
    rewrite IH by lia. reflexivity.
Qed.

Lemma expect_member_start (c : ascii) (gap n : nat) (k : string) (rest : list ascii) :
  Ascii.eqb dquote c = false ->
  expect c (skipWs (newline gap n ++ printString k ++ rest)) = None.
Proof.
  intros Hc. rewrite skipWs_newline. unfold printString. cbn [app].
  change (skipWs (dquote :: ?s)) with (dquote :: s). cbn [expect].
  rewrite Hc. reflexivity.
Qed.

Theorem reads_json (v : jsval) : Value.is_json v = true -> readsBack v.
Proof.
  induction v as [| |b|z|s|items IH|props IH] using jsval_nested_ind;
    intros Hj fuel gap cur rest Hfuel Hrest;
    (destruct fuel as [|fuel]; [simpl in Hfuel; lia|]).
  - discriminate.
  - reflexivity.
  - destruct b; reflexivity.
  - cbn [print]. destruct (print_start (JNum z) gap cur) as (c & r & Hp & Hc).
    cbn [print] in Hp. 
    assert (Hd : Ascii.eqb c "-" || isDigit c = true).
    { unfold printZ in Hp. destruct (z <? 0)%Z.
      - injection Hp as <- _. reflexivity.
      - destruct (printNat_start (Z.abs_N z)) as (c' & r' & Hp' & Hc').
        cbn [app] in Hp. rewrite Hp' in Hp. injection Hp as <- _.
        rewrite Hc'. apply orb_true_r. }
    rewrite <- (readNumber_print z rest Hrest). rewrite Hp. cbn [app].
    apply readValue_number, Hd.
  - cbn [print]. unfold printString. cbn [app].
    change (readValue (S fuel) (dquote :: ?r))
      with (match readChars r with
            | Some (cs, rest) => Some (JStr (string_of_list_ascii cs), rest)
            | None => None
            end).
    rewrite <- app_assoc. cbn [app]. rewrite readChars_print.
    unfold chars. rewrite string_of_list_ascii_of_string. reflexivity.
  - assert (Hall : Forall readsBack items).
    { cbn [Value.is_json] in Hj. rewrite forallb_forall in Hj.
      rewrite Forall_forall in *. intros x Hin. apply IH; [exact Hin|].
      apply Hj. apply list_elem_of_In. exact Hin. }
    destruct items as [|x xs].
    + reflexivity.
    + inversion Hall as [|? ? Hx Hxs]; subst.
      rewrite print_array. cbn [app]. rewrite readValue_array.
      rewrite <- !app_assoc. cbn [app].
      rewrite expect_value_start by reflexivity.
      rewrite readValue_newline. simpl in Hfuel.
      rewrite Hx; [|lia|apply okRest_elements].
      rewrite readElements_print; [reflexivity|exact Hxs|lia].
  - assert (Hall : Forall (fun kv => readsBack (snd kv)) props).
    { cbn [Value.is_json] in Hj. rewrite forallb_forall in Hj.
      rewrite Forall_forall in *. intros kx Hin. apply IH; [exact Hin|].
      apply Hj. apply list_elem_of_In. exact Hin. }
    destruct props as [|[k x] ps].
    + reflexivity.
    + inversion Hall as [|? ? Hx Hxs]; subst. simpl in Hx.
      rewrite print_object. cbn [app]. rewrite readValue_object.
      rewrite <- !app_assoc. cbn [app].
      rewrite expect_member_start by reflexivity.
      simpl in Hfuel.
      rewrite readMember_print; [|exact Hx|lia|apply okRest_members].
      rewrite readMembers_print; [reflexivity|exact Hxs|lia].
Qed.

(** *** What a text keeps of a value is a JSON value *)

Lemma toJSON_object (props : list (string * jsval)) :
  Value.toJSON (JObj props) = JObj (keptProps props).
Proof. reflexivity. Qed.

Lemma toJSON_is_json (v : jsval) :
  v <> JUndefined -> Value.is_json (Value.toJSON v) = true.
Proof.
  induction v as [| |b|z|s|items IH|props IH] using jsval_nested_ind;
    intros Hv; try reflexivity; [congruence| |].
  - cbn [Value.toJSON Value.is_json].
    induction IH as [|x xs Hx _ IHxs]; [reflexivity|].
    cbn [map forallb]. rewrite IHxs by discriminate. rewrite andb_true_r.
    destruct x; try reflexivity; apply Hx; discriminate.
  - rewrite toJSON_object. cbn [Value.is_json].
    induction IH as [|[k x] xs Hx _ IHxs]; [reflexivity|].
    specialize (IHxs ltac:(discriminate)). simpl in Hx.
    destruct x; cbn [keptProps forallb snd]; try exact IHxs;
      rewrite IHxs, andb_true_r; try reflexivity; apply Hx; discriminate.
Qed.

Lemma toJSON_json (v : jsval) : Value.is_json v = true -> Value.toJSON v = v.
Proof.
  induction v as [| |b|z|s|items IH|props IH] using jsval_nested_ind;
    intros Hv; try reflexivity.
  - cbn [Value.toJSON Value.is_json] in *. f_equal.
    induction IH as [|x xs Hx _ IHxs]; [reflexivity|].
    cbn [map forallb] in *. apply andb_true_iff in Hv as [Hx' Hxs'].
    rewrite IHxs by exact Hxs'. f_equal.
    destruct x; try reflexivity; try discriminate; apply Hx; exact Hx'.
  - rewrite toJSON_object. cbn [Value.is_json] in Hv. f_equal.
    induction IH as [|[k x] xs Hx _ IHxs]; [reflexivity|].
    cbn [forallb snd] in *. apply andb_true_iff in Hv as [Hx' Hxs'].
    destruct x; cbn [keptProps]; try discriminate;
      rewrite IHxs by exact Hxs'; try reflexivity;
      f_equal; f_equal; apply Hx; exact Hx'.
Qed.

(** *** The fuel the text of a value gives is enough *)

Lemma printString_length (k : string) : 2 <= List.length (printString k).
Proof. unfold printString. cbn [List.length]. rewrite length_app. simpl. lia. Qed.

Lemma colon_length (gap : nat) : 1 <= List.length (colon gap).
Proof. unfold colon. destruct (gap =? 0)%nat; simpl; lia. Qed.

Lemma size_le_length (v : jsval) (gap cur : nat) :
  size v <= S (List.length (print gap cur v)).
Proof.
  revert gap cur.
  induction v as [| |b|z|s|items IH|props IH] using jsval_nested_ind;
    intros gap cur; try (simpl; lia).
  - destruct items as [|x xs]; [simpl; lia|].
    inversion IH as [|? ? Hx Hxs]; subst. rewrite print_array.
    cbn [size map List.length]. change (list_sum (?a :: ?l)) with (a + list_sum l). rewrite !length_app.
    specialize (Hx gap (cur + gap)).
    assert (list_sum (map size xs) <= List.length (printElements gap cur xs)).
    { clear Hx IH. induction Hxs as [|y ys Hy _ IHys]; [simpl; lia|].
      cbn [map printElements List.length]. change (list_sum (?a :: ?l)) with (a + list_sum l). rewrite !length_app.
      specialize (Hy gap (cur + gap)). lia. }
    simpl. lia.
  - destruct props as [|[k x] xs]; [simpl; lia|].
    inversion IH as [|? ? Hx Hxs]; subst. rewrite print_object.
    cbn [size map List.length snd]. change (list_sum (?a :: ?l)) with (a + list_sum l). rewrite !length_app.
    specialize (Hx gap (cur + gap)). simpl in Hx.
    pose proof (printString_length k). pose proof (colon_length gap).
    assert (list_sum (map (fun kv => S (size (snd kv))) xs)
            <= List.length (printMembers gap cur xs)).
    { clear Hx IH. induction Hxs as [|[k' y] ys Hy _ IHys]; [simpl; lia|].
      cbn [map printMembers List.length snd]. change (list_sum (?a :: ?l)) with (a + list_sum l). rewrite !length_app.
      specialize (Hy gap (cur + gap)). simpl in Hy.
      pose proof (printString_length k'). lia. }
    simpl. lia.
Qed.

(** The reference codec satisfies the round trip law. *)
Theorem refJson_round_trip : JSONRoundTrip refJson.
Proof.
  intros v indent Hv. cbn [JSON_parse JSON_stringify refJson].
  unfold parse, stringify, chars.
  rewrite list_ascii_of_string_of_list_ascii.
  pose proof (size_le_length (Value.toJSON v) (Nat.min indent 10) 0) as Hsize.
  pose proof (reads_json _ (toJSON_is_json v Hv)
                (S (S (List.length (print (Nat.min indent 10) 0 (Value.toJSON v)))))
                (Nat.min indent 10) 0 [] ltac:(lia) I) as Hread.
  rewrite app_nil_r in Hread. rewrite Hread. reflexivity.
Qed.

End RefJsonFacts.

(** ** The server *)

Section ServerFacts.

Context {J : JSONApi}.

Lemma falsy_iff (v : jsval) : Value.truthy v = false <-> In v falsyValues.
Proof.
  unfold falsyValues. simpl. split.
  - destruct v as [| |[]|n|s| |]; simpl; intros H; try discriminate; auto.
    + apply negb_false_iff, Z.eqb_eq in H. subst. auto 6.
    + apply negb_false_iff, String.eqb_eq in H. subst. auto 6.
  - intros [<-|[<-|[<-|[<-|[<-|[]]]]]]; reflexivity.
Qed.

(** The joined path is relative and the resolved results directory
    absolute, so the prefix test of the download handler never succeeds. *)
Lemma get_result_file_denied (w : world) (param : string) :
  Path.isAbsolute (cwd w) = true ->
  get_result_file param w = (Ok (Json 403 (error_body "Access denied")), w).
Proof.
  intros Habs. unfold get_result_file, try_catch, bind, process_cwd.
  destruct (PathFacts.resolve_results_absolute (cwd w) Habs) as [q ->].
  rewrite PathFacts.relative_not_under_absolute
    by apply PathFacts.join_results_relative.
  reflexivity.
Qed.

(** C1, on the code: with an absolute working directory the download
    handler answers 403 to every request, whether the file is there or not:
    it never sends a file and never answers 404. *)
Theorem get_result_file_always_denied (w : world) (param : string) :
  Path.isAbsolute (cwd w) = true ->
  get_result_file param w = (Ok (Json 403 (error_body "Access denied")), w)
  /\ (forall p bytes, fst (get_result_file param w) <> Ok (Download p bytes))
  /\ fst (get_result_file param w) <> Ok (Json 404 (error_body "File not found")).
Proof.
  intros Habs. rewrite (get_result_file_denied w param Habs).
  repeat split; intros; discriminate.
Qed.

(** C9: the save handler answers 400 and writes nothing whenever the
    [result] property of the body is falsy: absent ([undefined]), [null],
    [false], [0] or the empty string. *)
Theorem save_result_rejects_falsy (body : jsval) (w : world) :
  Value.nullish body = false ->
  In (Value.prop body "result") falsyValues ->
  post_save_result body w = (Ok (Json 400 (error_body "No result data provided")), w).
Proof.
  intros Hb Hf. apply falsy_iff in Hf.
  unfold post_save_result, try_catch, bind, destructure.
  rewrite Hb. unfold ret. rewrite Hf. reflexivity.
Qed.

Lemma times_S_world (m : M unit) (n : nat) (w : world) :
  (forall w', fst (m w') = Ok tt) ->
  (forall w', snd (m (snd (m w'))) = snd (m w')) ->
  times (S n) m w = (Ok tt, snd (m w)).
Proof.
  intros Hok Hidem. revert w. induction n as [|n IH]; intros w.
  - simpl. unfold bind. specialize (Hok w). destruct (m w) as [[[]|e] w1];
      simpl in *; [reflexivity|discriminate].
  - change (times (S (S n)) m) with (m ;;; times (S n) m). unfold bind.
    pose proof (Hok w) as H1. destruct (m w) as [[[]|e] w1] eqn:Hm;
      simpl in H1; [|discriminate].
    rewrite IH. simpl. f_equal.
    specialize (Hidem w). rewrite Hm in Hidem. exact Hidem.
Qed.

Lemma existsSync_lookup (p : string) (w : world) :
  Fs.ancestor p = false ->
  Fs.existsSync p w =
    (Ok (match fs w !! p with Some _ => true | None => false end), w).
Proof. intros Hp. unfold Fs.existsSync. rewrite Hp. reflexivity. Qed.

Lemma dir_exists_here (f : gmap string node) : Fs.dir_exists f "." = true.
Proof. reflexivity. Qed.

Lemma validPath_split (p : string) :
  Fs.validPath p = true -> Js.hasChar Fs.NUL p = false /\ Fs.withinLimits p = true.
Proof.
  unfold Fs.validPath. intros H. apply andb_true_iff in H as [H1 H2].
  split; [apply negb_true_iff, H1|exact H2].
Qed.

Lemma writeFileSync_ok (p data : string) (w : world) :
  Fs.validPath p = true ->
  fs w !! p <> Some Dir ->
  Fs.dir_exists (fs w) (Path.dirname p) = true ->
  Fs.writeFileSync p data w = (Ok tt, Fs.set_fs (<[p := File data]> (fs w)) w).
Proof.
  intros Hv Hp Hd. destruct (validPath_split p Hv) as [Hn Hl].
  unfold Fs.writeFileSync. rewrite Hn, Hl, Hd. cbn [negb].
  destruct (fs w !! p) as [[|]|]; congruence.
Qed.

Lemma DB_FILE_valid : Fs.validPath DB_FILE = true.
Proof. reflexivity. Qed.

Lemma DB_FILE_not_here : Fs.ancestor DB_FILE = false.
Proof. reflexivity. Qed.

Lemma initDb_absent (w : world) :
  fs w !! DB_FILE = None ->
  initDb w = (Ok tt, Fs.set_fs (<[DB_FILE := File (JSON_stringify (JArr []) 0)]> (fs w)) w).
Proof.
  intros H. unfold initDb, bind.
  rewrite (existsSync_lookup _ _ DB_FILE_not_here), H. cbn [negb].
  apply writeFileSync_ok; [apply DB_FILE_valid|congruence|apply dir_exists_here].
Qed.

Lemma initDb_present (w : world) :
  is_Some (fs w !! DB_FILE) -> initDb w = (Ok tt, w).
Proof.
  intros [x H]. unfold initDb, bind.
  rewrite (existsSync_lookup _ _ DB_FILE_not_here), H. reflexivity.
Qed.

Lemma initDb_cases (w : world) :
  fst (initDb w) = Ok tt /\ is_Some (fs (snd (initDb w)) !! DB_FILE).
Proof.
  destruct (fs w !! DB_FILE) as [x|] eqn:H.
  - rewrite initDb_present by eauto. simpl. eauto.
  - rewrite initDb_absent by exact H. simpl.
    rewrite lookup_insert_eq. eauto.
Qed.

(** C8: [initDb] creates the store file holding the serialized empty
    array when it is absent (a file that reads back as the empty array,
    given the round trip law), leaves the world alone when the file is
    there, and run any positive number of times it ends as one run does. *)
Theorem initDb_idempotent (w : world) (n : nat) :
  (fs w !! DB_FILE = None ->
   initDb w = (Ok tt, Fs.set_fs (<[DB_FILE := File (JSON_stringify (JArr []) 0)]> (fs w)) w)
   /\ (JSONRoundTrip J ->
       getPrescriptions (snd (initDb w)) = (Ok (JArr []), snd (initDb w))))
  /\ (is_Some (fs w !! DB_FILE) -> initDb w = (Ok tt, w))
  /\ times (S n) initDb w = initDb w.
Proof.
  split; [|split].
  - intros H. split; [apply initDb_absent, H|]. intros HJ.
    rewrite initDb_absent by exact H. simpl.
    unfold getPrescriptions, bind, Fs.readFileSync. simpl.
    rewrite lookup_insert_eq, HJ by discriminate. reflexivity.
  - apply initDb_present.
  - rewrite times_S_world.
    + destruct (initDb_cases w) as [H1 _]. destruct (initDb w); simpl in *; congruence.
    + intros w'. apply initDb_cases.
    + intros w'. rewrite (initDb_present (snd (initDb w'))); [reflexivity|].
      apply initDb_cases.
Qed.

Lemma getPrescriptions_stored (text : string) (v : jsval) (w : world) :
  fs w !! DB_FILE = Some (File text) -> JSON_parse text = Some v ->
  getPrescriptions w = (Ok v, w).
Proof.
  intros Hf Hp. unfold getPrescriptions, bind, Fs.readFileSync.
  rewrite Hf, Hp. reflexivity.
Qed.

Lemma savePrescription_stored (text : string) (items : list jsval) (p : jsval) (w : world) :
  fs w !! DB_FILE = Some (File text) -> JSON_parse text = Some (JArr items) ->
  savePrescription p w =
    (Ok (newRecord (clock w (reads w)) (clock w (S (reads w))) p), afterAppend w items p).
Proof.
  intros Hf Hp. unfold savePrescription.
  unfold bind at 1. rewrite (getPrescriptions_stored _ _ _ Hf Hp).
  unfold bind, Date_now, push, ret. cbn [reads clock tick].
  rewrite writeFileSync_ok.
  - reflexivity.
  - apply DB_FILE_valid.
  - cbn [fs tick]. rewrite Hf. discriminate.
  - apply dir_exists_here.
Qed.

Lemma toJSON_snoc (items : list jsval) (r : jsval) :
  Forall (fun x => Value.is_json x = true) items -> r <> JUndefined ->
  Value.toJSON (JArr (items ++ [r])) = JArr (items ++ [Value.toJSON r]).
Proof.
  intros Hall Hr. cbn [Value.toJSON]. f_equal. rewrite map_app. f_equal.
  - induction Hall as [|x xs Hx _ IH]; [reflexivity|]. cbn [map]. rewrite IH. f_equal.
    destruct x; try reflexivity; try discriminate;
      apply (RefJsonFacts.toJSON_json _ Hx).
  - cbn [map]. destruct r; try reflexivity. congruence.
Qed.

Lemma toJSON_newRecord (t_id t_created : Z) (p : jsval) :
  isPayload p ->
  Value.toJSON (newRecord t_id t_created p) = keptRecord t_id t_created p.
Proof.
  intros [->|Hp]; [reflexivity|].
  unfold newRecord, keptRecord. rewrite RefJsonFacts.toJSON_object.
  cbn [RefJson.keptProps]. rewrite (RefJsonFacts.toJSON_json _ Hp).
  destruct p; reflexivity.
Qed.

Lemma keptRecord_json (t_id t_created : Z) (p : jsval) :
  isPayload p -> Value.is_json (keptRecord t_id t_created p) = true.
Proof.
  intros Hp. rewrite <- toJSON_newRecord by exact Hp.
  apply RefJsonFacts.toJSON_is_json. discriminate.
Qed.

Lemma keptRecord_data (t_id t_created : Z) (p : jsval) :
  Value.prop (keptRecord t_id t_created p) "data" = p.
Proof. destruct p; reflexivity. Qed.

Lemma keptRecord_id (t_id t_created : Z) (p : jsval) :
  recordId (keptRecord t_id t_created p) = t_id.
Proof. destruct p; reflexivity. Qed.

Lemma holds_list (w : world) (items : list jsval) :
  holds w items -> getPrescriptions w = (Ok (JArr items), w).
Proof. intros (text & Hf & Hp & _). eapply getPrescriptions_stored; eassumption. Qed.

Lemma savePrescription_holds (items : list jsval) (p : jsval) (w : world) :
  JSONRoundTrip J -> holds w items -> isPayload p ->
  exists w',
    savePrescription p w =
      (Ok (newRecord (clock w (reads w)) (clock w (S (reads w))) p), w')
    /\ holds w' (items ++ [keptRecord (clock w (reads w)) (clock w (S (reads w))) p])
    /\ clock w' = clock w /\ reads w' = S (S (reads w)).
Proof.
  intros HJ (text & Hf & Hp & Hall) Hpay.
  exists (afterAppend w items p). split; [|split; [|split]].
  - eapply savePrescription_stored; eassumption.
  - eexists. split; [|split].
    + unfold afterAppend. cbn [fs Fs.set_fs]. apply lookup_insert_eq.
    + rewrite HJ by discriminate.
      rewrite toJSON_snoc by (exact Hall || discriminate).
      rewrite toJSON_newRecord by exact Hpay. reflexivity.
    + apply Forall_app. split; [exact Hall|].
      constructor; [|constructor]. apply keptRecord_json, Hpay.
  - reflexivity.
  - reflexivity.
Qed.

Lemma keptFrom_length (clk : nat -> Z) (k : nat) (payloads : list jsval) :
  List.length (keptFrom clk k payloads) = List.length payloads.
Proof.
  revert k. induction payloads as [|p ps IH]; intros k; [reflexivity|].
  cbn [keptFrom List.length]. rewrite IH. reflexivity.
Qed.

Lemma keptFrom_lookup (clk : nat -> Z) (k i : nat) (payloads : list jsval) (p : jsval) :
  payloads !! i = Some p ->
  keptFrom clk k payloads !! i = Some (keptRecord (clk (k + 2 * i)) (clk (S (k + 2 * i))) p).
Proof.
  revert k i. induction payloads as [|q ps IH]; intros k i Hi; [discriminate|].
  destruct i as [|i]; cbn [keptFrom] in *.
  - injection Hi as ->. replace (k + 2 * 0) with k by lia. reflexivity.
  - change ((q :: ps) !! S i) with (ps !! i) in Hi.
    change ((?x :: ?l) !! S i) with (l !! i).
    rewrite (IH (S (S k)) i Hi). do 3 f_equal; lia.
Qed.

Lemma appendAll_holds (payloads : list jsval) :
  JSONRoundTrip J ->
  Forall isPayload payloads ->
  forall (w : world) (items : list jsval),
    holds w items ->
    exists built w',
      appendAll payloads w = (Ok built, w')
      /\ holds w' (items ++ keptFrom (clock w) (reads w) payloads)
      /\ clock w' = clock w.
Proof.
  intros HJ Hall. induction Hall as [|p ps Hp _ IH]; intros w items Hw.
  - exists [], w. cbn [keptFrom]. rewrite app_nil_r. repeat split; assumption.
  - destruct (savePrescription_holds items p w HJ Hw Hp) as (w1 & Hsave & Hw1 & Hclk & Hrd).
    destruct (IH w1 _ Hw1) as (built & w2 & Hrun & Hw2 & Hclk2).
    exists (newRecord (clock w (reads w)) (clock w (S (reads w))) p :: built), w2.
    split; [|split].
    + cbn [appendAll]. unfold bind at 1. rewrite Hsave.
      unfold bind at 1. rewrite Hrun. reflexivity.
    + rewrite Hclk, Hrd, <- app_assoc in Hw2. exact Hw2.
    + congruence.
Qed.

(** C3, amended: [n] payloads appended one at a time to the empty store
    are listed as [n] records in the order of the appends, each with the
    payload of its append, and with the reading the clock gave at its append
    for id; the ids increase strictly (so no two are equal) when the
    readings of the appends do, and never decrease when the clock does
    not. *)
Theorem append_then_list (payloads : list jsval) (w : world) :
  JSONRoundTrip J ->
  fs w !! DB_FILE = Some (File (JSON_stringify (JArr []) 0)) ->
  Forall isPayload payloads ->
  exists built records w',
    appendAll payloads w = (Ok built, w')
    /\ getPrescriptions w' = (Ok (JArr records), w')
    /\ List.length records = List.length payloads
    /\ (forall i p,
          payloads !! i = Some p ->
          exists r, records !! i = Some r /\ Value.prop r "data" = p
                    /\ recordId r = clock w (reads w + 2 * i))
    /\ ((forall i j, i < j < List.length payloads ->
           (clock w (reads w + 2 * i) < clock w (reads w + 2 * j))%Z) ->
        forall i j ri rj,
          i < j -> records !! i = Some ri -> records !! j = Some rj ->
          (recordId ri < recordId rj)%Z)
    /\ ((forall i j, i <= j -> (clock w i <= clock w j)%Z) ->
        forall i j ri rj,
          i < j -> records !! i = Some ri -> records !! j = Some rj ->
          (recordId ri <= recordId rj)%Z).
Proof.
  intros HJ Hf Hall.
  assert (Hw : holds w []).
  { eexists. split; [exact Hf|]. split; [apply HJ; discriminate|constructor]. }
  destruct (appendAll_holds payloads HJ Hall w [] Hw) as (built & w' & Hrun & Hw' & _).
  cbn [app] in Hw'. set (records := keptFrom (clock w) (reads w) payloads) in *.
  assert (Hlen : List.length records = List.length payloads) by apply keptFrom_length.
  assert (Hid : forall i r, records !! i = Some r ->
                  recordId r = clock w (reads w + 2 * i)).
  { intros i r Hr.
    destruct (payloads !! i) as [p|] eqn:Hp.
    - unfold records in Hr. rewrite (keptFrom_lookup _ _ _ _ _ Hp) in Hr.
      injection Hr as <-. apply keptRecord_id.
    - apply lookup_ge_None in Hp. apply lookup_lt_Some in Hr. lia. }
  exists built, records, w'. repeat split.
  - exact Hrun.
  - apply holds_list, Hw'.
  - exact Hlen.
  - intros i p Hp. eexists. split; [apply keptFrom_lookup, Hp|].
    split; [apply keptRecord_data|apply keptRecord_id].
  - intros Hinc i j ri rj Hij Hi Hj.
    rewrite (Hid _ _ Hi), (Hid _ _ Hj). apply Hinc.
    apply lookup_lt_Some in Hj. lia.
  - intros Hmono i j ri rj Hij Hi Hj.
    rewrite (Hid _ _ Hi), (Hid _ _ Hj). apply Hmono. lia.
Qed.

(** C10: a body without [data] is stored all the same: the response is a
    success with the reading of the clock for id, and the record the store
    keeps has an [id] and a [created_at] and no [data] property. *)
Theorem post_prescriptions_without_data
    (body : jsval) (items : list jsval) (w : world) :
  JSONRoundTrip J ->
  Value.nullish body = false ->
  Value.prop body "data" = JUndefined ->
  holds w items ->
  let id := clock w (reads w) in
  let kept := JObj [("id", JNum id);
                    ("created_at", JStr (JsDate.toISOString (clock w (S (reads w)))))] in
  exists w',
    post_prescriptions body w
      = (Ok (Json 200 (JObj [("success", JBool true); ("id", JNum id)])), w')
    /\ getPrescriptions w' = (Ok (JArr (items ++ [kept])), w')
    /\ Value.keys kept = ["id"; "created_at"].
Proof.
  intros HJ Hb Hd Hw id kept.
  destruct (savePrescription_holds items JUndefined w HJ Hw (or_introl eq_refl))
    as (w' & Hsave & Hw' & _).
  exists w'. split; [|split].
  - unfold post_prescriptions, try_catch, destructure. unfold bind at 1.
    rewrite Hb. unfold ret at 1. rewrite Hd. unfold bind at 1. rewrite Hsave.
    reflexivity.
  - apply holds_list, Hw'.
  - reflexivity.
Qed.

Lemma writeFileSync_writable (p data : string) (w : world) :
  Fs.writable (fs w) p = true ->
  Fs.writeFileSync p data w = (Ok tt, Fs.set_fs (<[p := File data]> (fs w)) w).
Proof.
  unfold Fs.writable. intros H. apply andb_true_iff in H as [Hv H].
  apply writeFileSync_ok; [exact Hv| |];
    destruct (fs w !! p) as [[|]|]; (discriminate || exact H).
Qed.

Lemma writeFileSync_not_writable (p data : string) (w : world) :
  Fs.writable (fs w) p = false ->
  exists e, Fs.writeFileSync p data w = (Throw e, w).
Proof.
  unfold Fs.writable, Fs.validPath, Fs.writeFileSync.
  destruct (Js.hasChar Fs.NUL p); [eauto|].
  destruct (Fs.withinLimits p); [|eauto]. cbn [negb andb].
  destruct (fs w !! p) as [[|]|]; intros H; try rewrite H; eauto.
Qed.

Lemma or_default_doctor (s : string) :
  Js.or_default (Some (Js.replace_spaces s)) "unknown" = doctorPart (Some s).
Proof.
  unfold Js.or_default, doctorPart.
  destruct (String.eqb_spec (Js.replace_spaces s) "") as [He|Hne].
  - apply JsFacts.replace_spaces_empty in He. subst. reflexivity.
  - destruct s; [contradiction Hne; reflexivity|].
    apply JsFacts.replace_spaces_underscored.
Qed.

Lemma doctor_name_replaced_eq (result : jsval) (doctor : option string) (w : world) :
  doctorString (metadata_doctor_name result) = Some doctor ->
  doctor_name_replaced result w = (Ok (option_map Js.replace_spaces doctor), w)
  /\ Js.or_default (option_map Js.replace_spaces doctor) "unknown" = doctorPart doctor.
Proof.
  unfold doctor_name_replaced.
  destruct (metadata_doctor_name result); intros [= <-]; split;
    try reflexivity. apply or_default_doctor.
Qed.

(** What the save handler does with a result it accepts *)
Lemma post_save_result_accepts
    (body result : jsval) (doctor : option string) (w : world) :
  Value.nullish body = false ->
  Value.prop body "result" = result ->
  Value.truthy result = true ->
  doctorString (metadata_doctor_name result) = Some doctor ->
  let name := archiveName doctor (clock w (reads w)) in
  let path := Path.join ["results"; name] in
  post_save_result body w =
    if Fs.writable (fs w) path
    then (Ok (Json 200 (savedBody name path)),
          Fs.set_fs (<[path := File (JSON_stringify result 2)]> (fs w)) (tick w))
    else (Ok (Json 500 (error_body "Failed to save result")), tick w).
Proof.
  intros Hb Hr Ht Hd name path.
  unfold post_save_result, try_catch, destructure. unfold bind at 1.
  rewrite Hb. unfold ret at 1. rewrite Hr, Ht. cbn [negb].
  unfold bind at 1, Date_now. rewrite JsFacts.timestamp_eq.
  unfold bind at 1.
  destruct (doctor_name_replaced_eq result doctor (tick w) Hd) as [-> ->].
  fold (archiveName doctor (clock w (reads w))). fold name. fold path.
  unfold bind. destruct (Fs.writable (fs w) path) eqn:Hw.
  - rewrite writeFileSync_writable by exact Hw. reflexivity.
  - destruct (writeFileSync_not_writable path (JSON_stringify result 2) (tick w) Hw)
      as [e ->]. reflexivity.
Qed.

(** A doctor name that is neither a string nor missing has no [replace]
    method: the handler answers 500 and writes nothing. *)
Lemma post_save_result_bad_doctor (body result : jsval) (w : world) :
  Value.nullish body = false ->
  Value.prop body "result" = result ->
  Value.truthy result = true ->
  doctorString (metadata_doctor_name result) = None ->
  post_save_result body w
  = (Ok (Json 500 (error_body "Failed to save result")), tick w).
Proof.
  intros Hb Hr Ht Hd.
  unfold post_save_result, try_catch, destructure. unfold bind at 1.
  rewrite Hb. unfold ret at 1. rewrite Hr, Ht. cbn [negb].
  unfold bind at 1, Date_now. unfold bind, doctor_name_replaced.
  destruct (metadata_doctor_name result); try discriminate; reflexivity.
Qed.

Lemma writable_after_write (f : gmap string node) (p data : string) :
  Fs.writable f p = true -> Fs.writable (<[p := File data]> f) p = true.
Proof.
  unfold Fs.writable, Fs.dir_exists. rewrite lookup_insert_eq.
  destruct (Fs.validPath p); [cbn [andb]|discriminate].
  destruct (Fs.ancestor (Path.dirname p)); [destruct (f !! p) as [[|]|]; auto|].
  cbn [orb]. destruct (decide (p = Path.dirname p)) as [<-|Hne].
  - destruct (f !! p) as [[|]|]; discriminate.
  - rewrite lookup_insert_ne by exact Hne.
    destruct (f !! p) as [[|]|]; auto; discriminate.
Qed.

Lemma writable_not_dir (f : gmap string node) (p : string) :
  Fs.writable f p = true -> f !! p <> Some Dir.
Proof.
  unfold Fs.writable. intros H E. rewrite E, andb_false_r in H. discriminate.
Qed.

(** The handler reads the doctor name the payload carries. *)
Lemma metadata_doctor_name_payload (result : jsval) :
  metadata_doctor_name result = doctorOf result.
Proof.
  unfold metadata_doctor_name, doctorOf.
  destruct result as [| | | | | |members]; try reflexivity. cbn [Value.prop].
  destruct (Value.lookup "metadata" members); reflexivity.
Qed.

(** C6, on the code: a result the save handler has just written under
    the results directory cannot be read back through the download handler,
    which answers 403 instead of the bytes that were written. *)
Theorem saved_result_not_read_back
    (body result : jsval) (doctor : option string) (w : world) :
  Value.nullish body = false ->
  Value.prop body "result" = result ->
  Value.truthy result = true ->
  doctorString (metadata_doctor_name result) = Some doctor ->
  Path.isAbsolute (cwd w) = true ->
  let name := archiveName doctor (clock w (reads w)) in
  let path := Path.join ["results"; name] in
  Fs.writable (fs w) path = true ->
  exists w',
    post_save_result body w = (Ok (Json 200 (savedBody name path)), w')
    /\ fs w' !! path = Some (File (JSON_stringify result 2))
    /\ get_result_file name w' = (Ok (Json 403 (error_body "Access denied")), w').
Proof.
  intros Hb Hr Ht Hd Habs name path Hw.
  pose proof (post_save_result_accepts body result doctor w Hb Hr Ht Hd) as Hsave.
  cbv zeta in Hsave. fold name in Hsave. fold path in Hsave. rewrite Hw in Hsave.
  eexists. split; [exact Hsave|]. split.
  - cbn [fs Fs.set_fs]. apply lookup_insert_eq.
  - apply get_result_file_denied. exact Habs.
Qed.

End ServerFacts.

(** ** The extraction client *)

Module GeminiFacts.

Import Gemini.

Lemma split_head (s : string) : Js.split "," s !! 0%nat = Some (beforeComma s).
Proof.
  induction s as [|c r IH]; simpl; [reflexivity|].
  destruct (Ascii.eqb c ","); [reflexivity|].
  destruct (Js.split "," r) as [|q qs]; [discriminate|].
  simpl in *. congruence.
Qed.

Lemma split_second (s : string) :
  Js.split "," s !! 1%nat = option_map beforeComma (afterFirstComma s).
Proof.
  induction s as [|c r IH]; simpl; [reflexivity|].
  destruct (Ascii.eqb c ",").
  - apply split_head.
  - pose proof (split_head r) as Hh.
    destruct (Js.split "," r) as [|q qs]; [discriminate|]. exact IH.
Qed.

Lemma beforeComma_all (s : string) : afterFirstComma s = None -> beforeComma s = s.
Proof.
  induction s as [|c r IH]; simpl; [reflexivity|].
  destruct (Ascii.eqb c ","); [discriminate|]. intros H. f_equal. auto.
Qed.

Lemma imageData_eq (payload : string) :
  imageData payload =
    match afterFirstComma payload with
    | None => payload
    | Some data =>
        if String.eqb (beforeComma data) "" then payload else beforeComma data
    end.
Proof.
  unfold imageData. rewrite split_second.
  destruct (afterFirstComma payload); reflexivity.
Qed.

(** C7, on the code: a data URL whose data part is empty is transmitted
    whole, prefix included, not stripped. *)
Lemma imageData_keeps_prefix_of_empty_data :
  afterFirstComma "data:image/png;base64," = Some "" /\
  imageData "data:image/png;base64," <> strippedPayload "data:image/png;base64,".
Proof. split; [reflexivity|discriminate]. Qed.

(** C7, amended: a payload without a comma is transmitted unchanged; a
    payload with exactly one comma and something after it is transmitted
    with the prefix up to that comma stripped; in general the transmitted
    data is what stands between the first comma and the next one, or the
    whole payload when nothing stands there. *)
Theorem imageData_spec (payload : string) :
  (afterFirstComma payload = None -> imageData payload = payload)
  /\ (forall data,
        afterFirstComma payload = Some data ->
        afterFirstComma data = None -> data <> "" ->
        imageData payload = data /\ data = strippedPayload payload)
  /\ (forall data,
        afterFirstComma payload = Some data ->
        imageData payload =
          if String.eqb (beforeComma data) "" then payload else beforeComma data).
Proof.
  rewrite imageData_eq. unfold strippedPayload. split; [|split].
  - intros ->. reflexivity.
  - intros data -> Hnone Hne. rewrite (beforeComma_all _ Hnone).
    destruct (String.eqb_spec data ""); [contradiction|]. split; reflexivity.
  - intros data ->. reflexivity.
Qed.

Section ClientFacts.

Context {J : JSONApi}.
Variable prompt : string.

(** C5: the client calls the provider once, whatever it answers; a
    non-empty text that parses (in particular to a value of the schema's
    shape) is returned as parsed, an absent or empty text fails with the
    empty-response error, a non-empty text that does not parse fails with
    the parser's error. *)
Theorem processPrescriptionImage_outcomes
    (ai : provider) (img mime : string) (log : list request) :
  let req := requestFor prompt img mime in
  let run := processPrescriptionImage prompt ai img mime log in
  snd run = (log ++ [req])%list
  /\ (forall text v,
        ai (List.length log) req = Ok (Some text) -> text <> "" ->
        JSON_parse text = Some v -> conforms resultSchema v = true ->
        fst run = Ok v)
  /\ (ai (List.length log) req = Ok None \/ ai (List.length log) req = Ok (Some "") ->
      fst run = Throw (Error "No response from AI"))
  /\ (forall text,
        ai (List.length log) req = Ok (Some text) -> text <> "" ->
        JSON_parse text = None ->
        fst run = Throw SyntaxError).
Proof.
  intros req run. subst run. unfold processPrescriptionImage, generateContent.
  fold req. destruct (ai (List.length log) req) as [[t|]|e] eqn:Hai.
  - destruct (String.eqb_spec t "") as [->|Hne]; [|destruct (JSON_parse t) eqn:Hp];
      simpl; repeat split; intros;
      try match goal with H : _ \/ _ |- _ => destruct H end; congruence.
  - simpl; repeat split; intros; congruence.
  - simpl; repeat split; intros;
      try match goal with H : _ \/ _ |- _ => destruct H end; congruence.
Qed.

(** X12: what is not of the schema's shape passes through just the
    same: nothing is validated on the client. *)
Lemma processPrescriptionImage_no_validation
    (ai : provider) (img mime text : string) (v : jsval) (log : list request) :
  ai (List.length log) (requestFor prompt img mime) = Ok (Some text) ->
  text <> "" -> JSON_parse text = Some v ->
  fst (processPrescriptionImage prompt ai img mime log) = Ok v.
Proof.
  intros Hai Hne Hp. unfold processPrescriptionImage, generateContent.
  rewrite Hai. destruct (String.eqb_spec text ""); [contradiction|].
  rewrite Hp. reflexivity.
Qed.

End ClientFacts.

End GeminiFacts.

(** ** The routes, the archive and the start of the server *)

(** *** The store routes *)

Section StoreFacts.

Context {J : JSONApi}.

(** X1: GET /api/prescriptions reads only: it answers 200 with whatever
    the store file parses to, and 500 when the file is missing, is a
    directory, or does not parse. *)
Theorem get_prescriptions_cases (w : world) :
  get_prescriptions w =
    (Ok (match fs w !! DB_FILE with
         | Some (File text) =>
             match JSON_parse text with
             | Some v => Json 200 v
             | None => Json 500 (error_body "Failed to fetch history")
             end
         | _ => Json 500 (error_body "Failed to fetch history")
         end), w).
Proof.
  unfold get_prescriptions, try_catch, getPrescriptions, bind, Fs.readFileSync.
  destruct (fs w !! DB_FILE) as [[|text]|]; try reflexivity.
  destruct (JSON_parse text); reflexivity.
Qed.

Lemma storedArray_Some (w : world) (items : list jsval) :
  storedArray w = Some items ->
  exists text, fs w !! DB_FILE = Some (File text) /\ JSON_parse text = Some (JArr items).
Proof.
  unfold storedArray. destruct (fs w !! DB_FILE) as [[|text]|]; try discriminate.
  destruct (JSON_parse text) as [[| | | | |l|]|] eqn:Hp; try discriminate.
  intros [= <-]. eauto.
Qed.

Lemma savePrescription_fails (p : jsval) (w : world) :
  storedArray w = None ->
  exists e w', savePrescription p w = (Throw e, w') /\ fs w' = fs w.
Proof.
  unfold storedArray, savePrescription, getPrescriptions, bind, Fs.readFileSync.
  destruct (fs w !! DB_FILE) as [[|text]|]; [intros _; eauto| |intros _; eauto].
  destruct (JSON_parse text) as [[| | | | |l|]|] eqn:Hp; try discriminate;
    intros _; cbn; eauto.
Qed.

(** An append request, run *)
Lemma post_prescriptions_run (body : jsval) (w : world) :
  match (if Value.nullish body then None else storedArray w) with
  | Some items =>
      post_prescriptions body w =
        (Ok (Json 200 (JObj [("success", JBool true);
                             ("id", JNum (clock w (reads w)))])),
         afterAppend w items (Value.prop body "data"))
  | None =>
      exists w',
        post_prescriptions body w =
          (Ok (Json 500 (error_body "Failed to save prescription")), w')
        /\ fs w' = fs w
  end.
Proof.
  destruct (Value.nullish body) eqn:Hb; [|destruct (storedArray w) as [items|] eqn:Hs];
    unfold post_prescriptions, try_catch, destructure; unfold bind at 1; rewrite Hb.
  - eexists. split; reflexivity.
  - unfold ret at 1. unfold bind at 1.
    destruct (storedArray_Some w items Hs) as (text & Hf & Hp).
    rewrite (savePrescription_stored text items _ w Hf Hp). reflexivity.
  - unfold ret at 1. unfold bind at 1.
    destruct (savePrescription_fails (Value.prop body "data") w Hs)
      as (e & w' & He & Hfs).
    exists w'. rewrite He. split; [reflexivity|exact Hfs].
Qed.

(** X2: POST /api/prescriptions is all or nothing.  With a body to take
    [data] from and a store file that parses to an array, it answers 200
    with the first clock reading as id and rewrites the store with the new
    record appended; in every other case it answers 500 and the files are
    as they were. *)
Theorem post_prescriptions_cases (body : jsval) (w : world) :
  exists res w',
    post_prescriptions body w = (Ok res, w')
    /\ ((res = Json 200 (appendedBody (clock w (reads w)))
         /\ Value.nullish body = false
         /\ exists items,
              storedArray w = Some items
              /\ w' = afterAppend w items (Value.prop body "data"))
        \/ (res = Json 500 (error_body "Failed to save prescription")
            /\ (Value.nullish body = true \/ storedArray w = None)
            /\ fs w' = fs w)).
Proof.
  pose proof (post_prescriptions_run body w) as Hrun.
  destruct (Value.nullish body) eqn:Hb; [|destruct (storedArray w) as [items|] eqn:Hs].
  - destruct Hrun as (w' & Hrun & Hfs). exists (Json 500 (error_body "Failed to save prescription")), w'.
    split; [exact Hrun|]. right. auto.
  - do 2 eexists. split; [exact Hrun|]. left. split; [reflexivity|]. split; [reflexivity|].
    exists items. split; reflexivity.
  - destruct Hrun as (w' & Hrun & Hfs). exists (Json 500 (error_body "Failed to save prescription")), w'.
    split; [exact Hrun|]. right. auto.
Qed.

End StoreFacts.

(** *** Strings, path segments and the archive path *)

Module StringFacts.

Lemma append_cons (x : ascii) (a b : string) : String x a +:+ b = String x (a +:+ b).
Proof. reflexivity. Qed.

Lemma append_assoc (a b c : string) : (a +:+ b) +:+ c = a +:+ (b +:+ c).
Proof.
  induction a as [|x a IH]; [reflexivity|]. rewrite !append_cons, IH. reflexivity.
Qed.

Lemma chars_append (a b : string) :
  list_ascii_of_string (a +:+ b) = (list_ascii_of_string a ++ list_ascii_of_string b)%list.
Proof.
  induction a as [|x a IH]; simpl; [reflexivity|]. rewrite IH. reflexivity.
Qed.

Lemma chars_inj (a b : string) :
  list_ascii_of_string a = list_ascii_of_string b -> a = b.
Proof.
  intros H. rewrite <- (string_of_list_ascii_of_string a),
    <- (string_of_list_ascii_of_string b), H. reflexivity.
Qed.

Lemma append_inv_tail (a b c : string) : a +:+ c = b +:+ c -> a = b.
Proof.
  intros H. apply chars_inj. apply (f_equal list_ascii_of_string) in H.
  rewrite !chars_append in H. exact (app_inv_tail _ _ _ H).
Qed.

Lemma append_snoc_inj (a b : string) (x y : ascii) :
  a +:+ String x "" = b +:+ String y "" -> a = b /\ x = y.
Proof.
  intros H. apply (f_equal list_ascii_of_string) in H.
  rewrite !chars_append in H. cbn [list_ascii_of_string] in H.
  apply app_inj_tail in H as [H1 H2]. split; [apply chars_inj, H1|exact H2].
Qed.

Lemma hasChar_append (c : ascii) (a b : string) :
  Js.hasChar c (a +:+ b) = Js.hasChar c a || Js.hasChar c b.
Proof.
  induction a as [|x a IH]; simpl; [reflexivity|]. rewrite IH. apply orb_assoc.
Qed.

Lemma split_nosep (c : ascii) (s : string) :
  Js.hasChar c s = false -> Js.split c s = [s].
Proof.
  induction s as [|x s IH]; [reflexivity|]. cbn [Js.hasChar Js.split].
  intros H. apply orb_false_iff in H as [Hx Hs]. rewrite Hx, (IH Hs). reflexivity.
Qed.

Lemma split_pieces (c : ascii) (s : string) :
  Forall (fun p => Js.hasChar c p = false) (Js.split c s).
Proof.
  induction s as [|x s IH]; [repeat constructor|]. cbn [Js.split].
  destruct (Ascii.eqb x c) eqn:Hx.
  - constructor; [reflexivity|exact IH].
  - destruct (Js.split c s) as [|p ps].
    + repeat constructor. cbn [Js.hasChar]. rewrite Hx. reflexivity.
    + inversion IH; subst. constructor; [|assumption].
      cbn [Js.hasChar]. rewrite Hx. assumption.
Qed.

(** Appending text without separator extends the last piece. *)
Lemma split_append_nosep (c : ascii) (a b : string) :
  Js.hasChar c b = false ->
  exists init last,
    Js.split c a = (init ++ [last])%list
    /\ Js.split c (a +:+ b) = (init ++ [last +:+ b])%list.
Proof.
  intros Hb. induction a as [|x a (init & last & Ha & Hab)].
  - exists [], "". split; [reflexivity|]. apply split_nosep, Hb.
  - rewrite append_cons. cbn [Js.split]. rewrite Ha, Hab.
    destruct (Ascii.eqb x c).
    + exists ("" :: init), last. split; reflexivity.
    + destruct init as [|i init]; cbn [app].
      * exists [], (String x last). split; reflexivity.
      * exists (String x i :: init), last. split; reflexivity.
Qed.

Lemma join_snoc (l : list string) (x : string) :
  Js.join "/" (l ++ [x]) =
    match l with
    | [] => x
    | _ => Js.join "/" l +:+ "/" +:+ x
    end.
Proof.
  induction l as [|a l IH]; [reflexivity|].
  destruct l as [|b l]; [reflexivity|].
  change (Js.join "/" ((a :: b :: l) ++ [x]))
    with (a +:+ "/" +:+ Js.join "/" ((b :: l) ++ [x])).
  rewrite IH. change (Js.join "/" (a :: b :: l)) with (a +:+ "/" +:+ Js.join "/" (b :: l)).
  rewrite !append_assoc. reflexivity.
Qed.

Lemma split_nonempty (c : ascii) (s : string) : Js.split c s <> [].
Proof.
  destruct s as [|x s]; [discriminate|]. cbn [Js.split].
  destruct (Ascii.eqb x c); [discriminate|].
  destruct (Js.split c s); discriminate.
Qed.

Lemma join_split (s : string) : Js.join "/" (Js.split Path.sep s) = s.
Proof.
  induction s as [|x s IH]; [reflexivity|]. cbn [Js.split].
  pose proof (split_nonempty Path.sep s) as Hne.
  destruct (Js.split Path.sep s) as [|p ps] eqn:Hs; [contradiction|].
  destruct (Ascii.eqb_spec x Path.sep) as [->|Hx].
  - change (Js.join "/" ("" :: p :: ps)) with ("" +:+ "/" +:+ Js.join "/" (p :: ps)).
    rewrite IH. reflexivity.
  - destruct ps as [|p' ps].
    + simpl in IH. subst. reflexivity.
    + change (Js.join "/" (String x p :: p' :: ps))
        with (String x (p +:+ "/" +:+ Js.join "/" (p' :: ps))).
      change (Js.join "/" (p :: p' :: ps)) with (p +:+ "/" +:+ Js.join "/" (p' :: ps)) in IH.
      rewrite IH. reflexivity.
Qed.

Lemma get_at_length (a b : string) (x : ascii) :
  String.get (String.length a) (a +:+ String x b) = Some x.
Proof. induction a as [|y a IH]; [reflexivity|]. exact IH. Qed.

Lemma endsWithSep_snoc (a : string) (x : ascii) :
  Path.endsWithSep (a +:+ String x "") = Ascii.eqb x Path.sep.
Proof.
  unfold Path.endsWithSep, Js.len. rewrite JsFacts.length_append.
  cbn [String.length]. replace (String.length a + 1 - 1)%nat with (String.length a) by lia.
  rewrite get_at_length. reflexivity.
Qed.

(** A string that is not empty ends with some character. *)
Lemma snoc_view (s : string) : s <> "" -> exists a x, s = a +:+ String x "".
Proof.
  induction s as [|y s IH]; [congruence|]. intros _.
  destruct s as [|z s].
  - exists "", y. reflexivity.
  - destruct IH as (a & x & Ha); [discriminate|].
    exists (String y a), x. rewrite Ha. reflexivity.
Qed.

Lemma hasChar_snoc (c : ascii) (a : string) (x : ascii) :
  Js.hasChar c (a +:+ String x "") = false -> Ascii.eqb x c = false.
Proof.
  rewrite hasChar_append. intros H. apply orb_false_iff in H as [_ H].
  cbn [Js.hasChar] in H. apply orb_false_iff in H as [H _]. exact H.
Qed.

End StringFacts.

Module SegmentFacts.

Import StringFacts.

Lemma normalizeStep_plain (above : bool) (stack : list string) (seg : string) :
  plain seg -> Path.normalizeStep above stack seg = seg :: stack.
Proof.
  intros (H1 & H2 & H3). unfold Path.normalizeStep.
  repeat case_decide; try contradiction. reflexivity.
Qed.

(** Normalizing a relative path whose last segment is plain keeps that
    segment last, behind what the segments before it normalize to. *)
Lemma normalize_last_plain (q seg : string) (init : list string) :
  Path.isAbsolute q = false ->
  Js.split Path.sep q = (init ++ [seg])%list ->
  plain seg ->
  Path.normalize q =
    Js.join "/" (rev (fold_left (Path.normalizeStep true) init []) ++ [seg]).
Proof.
  intros Habs Hsplit Hseg.
  assert (Hq : q = Js.join "/" (init ++ [seg])) by (rewrite <- Hsplit, join_split; reflexivity).
  assert (Hpieces := split_pieces Path.sep q). rewrite Hsplit in Hpieces.
  apply Forall_app in Hpieces as [_ Hlast].
  assert (Hnosep : Js.hasChar Path.sep seg = false) by (inversion Hlast; assumption).
  destruct Hseg as (Hne & Hdot & Hdots).
  destruct (snoc_view seg Hne) as (s' & x & Hs').
  assert (Hx : Ascii.eqb x Path.sep = false) by (rewrite Hs' in Hnosep; exact (hasChar_snoc _ _ _ Hnosep)).
  assert (Hend : Path.endsWithSep q = false).
  { rewrite Hq, join_snoc, Hs'. destruct init.
    - rewrite endsWithSep_snoc. exact Hx.
    - rewrite <- !append_assoc, endsWithSep_snoc. exact Hx. }
  assert (Hns : Path.normalizeString q true =
                Js.join "/" (rev (fold_left (Path.normalizeStep true) init []) ++ [seg])).
  { unfold Path.normalizeString. rewrite Hsplit, fold_left_app. cbn [fold_left].
    rewrite normalizeStep_plain by (repeat split; assumption). reflexivity. }
  unfold Path.normalize. rewrite Habs, Hend. cbn [negb]. rewrite Hns.
  assert (Hnonempty : Js.join "/" (rev (fold_left (Path.normalizeStep true) init []) ++ [seg]) <> "").
  { rewrite join_snoc. destruct (rev _).
    - exact Hne.
    - rewrite Hs', <- !append_assoc. intros E.
      apply (f_equal String.length) in E. rewrite JsFacts.length_append in E.
      simpl in E. lia. }
  case_decide as Hq0.
  - rewrite Hq0 in Hsplit. simpl in Hsplit.
    destruct init as [|? [|? ?]]; simpl in Hsplit; congruence.
  - case_decide; [contradiction|reflexivity].
Qed.

End SegmentFacts.

Module ArchivePathFacts.

Import StringFacts SegmentFacts.

Lemma every_append (p : ascii -> bool) (a b : string) :
  every p (a +:+ b) = every p a && every p b.
Proof.
  induction a as [|x a IH]; [reflexivity|].
  rewrite append_cons. cbn [every]. rewrite IH. apply andb_assoc.
Qed.

Lemma every_hasChar (p : ascii -> bool) (c : ascii) (s : string) :
  every p s = true -> p c = false -> Js.hasChar c s = false.
Proof.
  intros Hs Hc. induction s as [|x s IH]; [reflexivity|].
  cbn [every Js.hasChar] in *. apply andb_true_iff in Hs as [Hx Hs].
  rewrite (IH Hs), orb_false_r.
  destruct (Ascii.eqb_spec x c) as [->|]; [congruence|reflexivity].
Qed.

Lemma digit_stamp (k : Z) : stampChar (JsDate.digit k) = true.
Proof.
  unfold JsDate.digit.
  assert (H : (0 <= k mod 10 < 10)%Z) by (apply Z.mod_pos_bound; lia).
  assert (Hn : (Z.to_nat (k mod 10) < 10)%nat) by lia.
  destruct (Z.to_nat (k mod 10)) as [|[|[|[|[|[|[|[|[|[|n]]]]]]]]]];
    try reflexivity; lia.
Qed.

Lemma pad_stamp (n : nat) (k : Z) : every stampChar (JsDate.pad n k) = true.
Proof.
  revert k. induction n as [|n IH]; intros k; [reflexivity|].
  cbn [JsDate.pad]. rewrite every_append, IH. cbn [every].
  rewrite digit_stamp. reflexivity.
Qed.

Lemma year_stamp (y : Z) : every stampChar (JsDate.yearString y) = true.
Proof.
  unfold JsDate.yearString.
  destruct ((0 <=? y)%Z && (y <=? 9999)%Z); [apply pad_stamp|].
  rewrite every_append, pad_stamp. destruct (y <? 0)%Z; reflexivity.
Qed.

Lemma dateTime_stamp (t : Z) : every stampChar (JsDate.dateTime "-" t) = true.
Proof.
  unfold JsDate.dateTime. destruct (JsDate.civil (t / JsDate.msPerDay)) as [[y m] d].
  rewrite !every_append, !pad_stamp, year_stamp. reflexivity.
Qed.

Lemma nameTail_nosep (t : Z) : Js.hasChar Path.sep (nameTail t) = false.
Proof.
  unfold nameTail. rewrite !hasChar_append.
  rewrite (every_hasChar stampChar Path.sep _ (dateTime_stamp t)) by reflexivity.
  reflexivity.
Qed.

Lemma archiveName_tail (doctor : option string) (t : Z) :
  archiveName doctor t = ("prescription_" +:+ doctorPart doctor) +:+ nameTail t.
Proof. unfold archiveName, nameTail. rewrite !append_assoc. reflexivity. Qed.

Lemma plain_with_tail (stem : string) (t : Z) : plain (stem +:+ nameTail t).
Proof.
  assert (H : Js.hasChar "_" (stem +:+ nameTail t) = true).
  { rewrite hasChar_append. unfold nameTail. rewrite append_cons.
    cbn [Js.hasChar]. rewrite orb_true_r. reflexivity. }
  repeat split; intros E; rewrite E in H; discriminate.
Qed.

Lemma join_results (name : string) :
  name <> "" -> Path.join ["results"; name] = Path.normalize ("results/" +:+ name).
Proof.
  intros Hne. unfold Path.join.
  do 2 (rewrite filter_cons_True by (discriminate || exact Hne)). reflexivity.
Qed.

Lemma archiveName_nonempty (doctor : option string) (t : Z) : archiveName doctor t <> "".
Proof. unfold archiveName. rewrite append_cons. discriminate. Qed.

(** Where a save writes: the path, whatever the doctor name, is a
    directory part, empty or ended by the separator, and a last segment
    that ends with the underscore, the timestamp and [.json]. *)
Lemma save_path_shape (doctor : option string) (t : Z) :
  exists dir stem,
    Path.join ["results"; archiveName doctor t] = dir +:+ stem +:+ nameTail t
    /\ Js.hasChar Path.sep stem = false
    /\ (dir = "" \/ exists d, dir = d +:+ "/").
Proof.
  rewrite join_results by apply archiveName_nonempty.
  set (A := "results/" +:+ "prescription_" +:+ doctorPart doctor).
  assert (Hq0 : "results/" +:+ archiveName doctor t = A +:+ nameTail t).
  { rewrite archiveName_tail. unfold A. rewrite !append_assoc. reflexivity. }
  rewrite Hq0.
  destruct (split_append_nosep Path.sep A (nameTail t) (nameTail_nosep t))
    as (init & last & Ha & Hq).
  assert (Habs : Path.isAbsolute (A +:+ nameTail t) = false) by reflexivity.
  rewrite (normalize_last_plain _ _ _ Habs Hq (plain_with_tail last t)).
  assert (Hlast : Js.hasChar Path.sep last = false).
  { pose proof (split_pieces Path.sep A) as Hp.
    rewrite Ha in Hp. apply Forall_app in Hp as [_ Hp]. inversion Hp; assumption. }
  rewrite join_snoc.
  destruct (rev (fold_left (Path.normalizeStep true) init [])) as [|a l].
  - exists "", last. repeat split; [exact Hlast|left; reflexivity].
  - exists (Js.join "/" (a :: l) +:+ "/"), last.
    rewrite !append_assoc. repeat split; [exact Hlast|right; eauto].
Qed.

Lemma dateTime_last_digit (t : Z) :
  exists a k, JsDate.dateTime "-" t = a +:+ String (JsDate.digit k) "".
Proof.
  unfold JsDate.dateTime. destruct (JsDate.civil (t / JsDate.msPerDay)) as [[y m] d].
  cbn [JsDate.pad]. eexists _, _. rewrite <- !append_assoc. reflexivity.
Qed.

(** No save writes over the store file. *)
Lemma save_path_not_store (doctor : option string) (t : Z) :
  Path.join ["results"; archiveName doctor t] <> DB_FILE.
Proof.
  destruct (save_path_shape doctor t) as (dir & stem & -> & _ & _).
  unfold nameTail. destruct (dateTime_last_digit t) as (a & k & ->).
  intros E. change DB_FILE with (("prescription" +:+ String "s" "") +:+ ".json") in E.
  rewrite <- !append_assoc in E. apply append_inv_tail in E.
  apply append_snoc_inj in E as [_ E].
  pose proof (digit_stamp k) as Hk. rewrite E in Hk. discriminate.
Qed.

Lemma hasChar_replace_spaces (b : bool) (s : string) :
  Js.hasChar Path.sep (Js.replace_spaces_from b s) = Js.hasChar Path.sep s.
Proof.
  revert b. induction s as [|c s IH]; intros b; [reflexivity|].
  cbn [Js.replace_spaces_from Js.hasChar].
  destruct (Js.is_space c) eqn:Hc.
  - assert (Hx : Ascii.eqb c Path.sep = false).
    { destruct (Ascii.eqb_spec c Path.sep) as [->|]; [discriminate|reflexivity]. }
    rewrite Hx. destruct b; cbn [Js.hasChar orb]; apply IH.
  - cbn [Js.hasChar]. rewrite IH. reflexivity.
Qed.

Lemma doctorPart_nosep (doctor : option string) :
  plainDoctor doctor = true -> Js.hasChar Path.sep (doctorPart doctor) = false.
Proof.
  destruct doctor as [[|c s]|]; try reflexivity. intros H.
  unfold doctorPart. rewrite <- JsFacts.replace_spaces_underscored.
  unfold Js.replace_spaces. rewrite hasChar_replace_spaces.
  apply negb_true_iff, H.
Qed.

Lemma split_at_sep (a b : string) :
  Js.hasChar Path.sep a = false ->
  Js.split Path.sep (a +:+ "/" +:+ b) = a :: Js.split Path.sep b.
Proof.
  induction a as [|x a IH]; [reflexivity|]. cbn [Js.hasChar]. intros H.
  apply orb_false_iff in H as [Hx Ha]. rewrite append_cons. cbn [Js.split].
  rewrite Hx, (IH Ha). reflexivity.
Qed.

(** A name without separator that is neither empty, [.] nor [..] is
    joined to the results directory as it is. *)
Lemma join_results_plain (name : string) :
  Js.hasChar Path.sep name = false -> plain name ->
  Path.join ["results"; name] = "results/" +:+ name.
Proof.
  intros Hsep Hplain. rewrite join_results by apply Hplain.
  assert (Habs : Path.isAbsolute ("results/" +:+ name) = false) by reflexivity.
  rewrite (normalize_last_plain ("results/" +:+ name) name ["results"] Habs).
  - reflexivity.
  - change ("results/" +:+ name) with ("results" +:+ "/" +:+ name).
    rewrite split_at_sep by reflexivity. rewrite split_nosep by exact Hsep. reflexivity.
  - exact Hplain.
Qed.

Lemma save_path_plain (doctor : option string) (t : Z) :
  plainDoctor doctor = true ->
  Path.join ["results"; archiveName doctor t] = "results/" +:+ archiveName doctor t.
Proof.
  intros Hd. apply join_results_plain.
  - rewrite archiveName_tail, !hasChar_append, nameTail_nosep, (doctorPart_nosep _ Hd).
    reflexivity.
  - rewrite archiveName_tail. apply plain_with_tail.
Qed.

End ArchivePathFacts.

(** *** One request *)

Section RouterFacts.

Context {J : JSONApi}.

Import StringFacts SegmentFacts ArchivePathFacts.

(** What the save handler does, case by case *)
Lemma post_save_result_cases (body : jsval) (w : world) :
  post_save_result body w =
    if Value.nullish body
    then (Ok (Json 500 (error_body "Failed to save result")), w)
    else if negb (Value.truthy (Value.prop body "result"))
    then (Ok (Json 400 (error_body "No result data provided")), w)
    else match doctorString (metadata_doctor_name (Value.prop body "result")) with
         | None => (Ok (Json 500 (error_body "Failed to save result")), tick w)
         | Some doctor =>
             let name := archiveName doctor (clock w (reads w)) in
             let path := Path.join ["results"; name] in
             if Fs.writable (fs w) path
             then (Ok (Json 200 (savedBody name path)),
                   Fs.set_fs (<[path := File (JSON_stringify (Value.prop body "result") 2)]>
                                (fs w)) (tick w))
             else (Ok (Json 500 (error_body "Failed to save result")), tick w)
         end.
Proof.
  destruct (Value.nullish body) eqn:Hb.
  - unfold post_save_result, try_catch, destructure, bind. rewrite Hb. reflexivity.
  - destruct (Value.truthy (Value.prop body "result")) eqn:Ht; cbn [negb].
    + destruct (doctorString (metadata_doctor_name (Value.prop body "result")))
        as [doctor|] eqn:Hd.
      * apply (post_save_result_accepts body _ doctor w Hb eq_refl Ht Hd).
      * apply (post_save_result_bad_doctor body _ w Hb eq_refl Ht Hd).
    + unfold post_save_result, try_catch, destructure. unfold bind at 1.
      rewrite Hb. unfold ret at 1. rewrite Ht. reflexivity.
Qed.

(** X3: a save answers 200, 400 or 500, and only with 200 is anything
    written: then exactly one file, the serialized result, at a path whose
    last segment ends with the underscore, the timestamp and [.json], and
    which is never the store file.  With 400 or 500 the files are as they
    were. *)
Theorem save_result_effect (body : jsval) (w : world) :
  exists res w',
    post_save_result body w = (Ok res, w')
    /\ ((statusOf res = 200%Z
         /\ exists path dir stem,
              fs w' = <[path := File (JSON_stringify (Value.prop body "result") 2)]> (fs w)
              /\ path = dir +:+ stem +:+ nameTail (clock w (reads w))
              /\ Js.hasChar Path.sep stem = false
              /\ (dir = "" \/ exists d, dir = d +:+ "/")
              /\ path <> DB_FILE
              /\ fs w !! path <> Some Dir)
        \/ ((statusOf res = 400%Z \/ statusOf res = 500%Z) /\ fs w' = fs w)).
Proof.
  rewrite post_save_result_cases.
  destruct (Value.nullish body); [do 2 eexists; split; [reflexivity|right; auto]|].
  destruct (negb _); [do 2 eexists; split; [reflexivity|right; auto]|].
  destruct (doctorString _) as [doctor|];
    [|do 2 eexists; split; [reflexivity|right; auto]].
  cbv zeta. destruct (Fs.writable _ _) eqn:Hw;
    [|do 2 eexists; split; [reflexivity|right; auto]].
  do 2 eexists. split; [reflexivity|]. left. split; [reflexivity|].
  destruct (save_path_shape doctor (clock w (reads w))) as (dir & stem & Hp & Hs & Hd).
  exists (Path.join ["results"; archiveName doctor (clock w (reads w))]), dir, stem.
  repeat split; try assumption.
  - apply save_path_not_store.
  - apply writable_not_dir, Hw.
Qed.

Lemma get_result_file_total (param : string) (w : world) :
  exists res, get_result_file param w = (Ok res, w)
              /\ In (statusOf res) [200; 403; 404; 500]%Z.
Proof.
  unfold get_result_file, try_catch, bind, process_cwd.
  destruct (negb _).
  - eexists. split; [reflexivity|simpl; auto].
  - unfold Fs.existsSync. destruct (_ || _).
    + unfold res_download, bind, Fs.readFileSync.
      destruct (fs w !! _) as [[|data]|]; eexists; (split; [reflexivity|simpl; auto]).
    + eexists. split; [reflexivity|simpl; auto 6].
Qed.

Lemma get_results_total (w : world) :
  exists res, get_results w = (Ok res, w) /\ In (statusOf res) [200; 500]%Z.
Proof.
  unfold get_results, try_catch, bind, Fs.existsSync.
  destruct (negb _).
  - eexists. split; [reflexivity|simpl; auto].
  - unfold Fs.readdirSync.
    destruct (fs w !! "results") as [[|data]|];
      try (destruct (Fs.dir_exists (fs w) "results"));
      eexists; (split; [reflexivity|simpl; auto]).
Qed.

(** One request: it is answered, with a status of its route; no path
    changes but the one the route writes, nothing is deleted and a
    directory stays one. *)
Lemma handle_answers (req : apiRequest) (w : world) :
  exists res w',
    handle req w = (Ok res, w')
    /\ In (statusOf res) (statuses req)
    /\ (forall p, ~ touches req w p -> fs w' !! p = fs w !! p)
    /\ (forall p, is_Some (fs w !! p) -> is_Some (fs w' !! p))
    /\ (forall p, fs w !! p = Some Dir -> fs w' !! p = Some Dir).
Proof.
  destruct req as [|body|body| |param|]; cbn [handle statuses touches].
  - exists (Json 200 (JObj [("status", JStr "ok")])), w.
    repeat split; simpl; auto.
  - pose proof (post_prescriptions_run body w) as H.
    destruct (if Value.nullish body then None else storedArray w) as [items|] eqn:Hs.
    + do 2 eexists. split; [exact H|]. split; [simpl; auto|].
      assert (Hfile : exists text, fs w !! DB_FILE = Some (File text)).
      { destruct (Value.nullish body); [discriminate|].
        destruct (storedArray_Some w items Hs) as (text & Hf & _). eauto. }
      destruct Hfile as [text Hfile].
      unfold afterAppend. cbn [fs Fs.set_fs tick]. repeat split.
      * intros p Hp. apply lookup_insert_ne. congruence.
      * intros p Hp. destruct (decide (DB_FILE = p)) as [<-|Hne];
          [rewrite lookup_insert_eq; eauto|rewrite lookup_insert_ne by exact Hne; exact Hp].
      * intros p Hp. destruct (decide (DB_FILE = p)) as [<-|Hne];
          [congruence|rewrite lookup_insert_ne by exact Hne; exact Hp].
    + destruct H as (w' & H & Hfs). do 2 eexists. split; [exact H|].
      rewrite Hfs. repeat split; simpl; auto.
  - rewrite post_save_result_cases.
    destruct (Value.nullish body);
      [do 2 eexists; split; [reflexivity|repeat split; simpl; auto]|].
    destruct (negb _); [do 2 eexists; split; [reflexivity|repeat split; simpl; auto]|].
    destruct (doctorString _) as [doctor|] eqn:Hd;
      [|do 2 eexists; split; [reflexivity|repeat split; simpl; auto]].
    cbv zeta. destruct (Fs.writable _ _) eqn:Hw;
      [|do 2 eexists; split; [reflexivity|repeat split; simpl; auto]].
    do 2 eexists. split; [reflexivity|]. cbn [fs Fs.set_fs tick statusOf].
    set (path := Path.join ["results"; archiveName doctor (clock w (reads w))]) in *.
    assert (Hnd : fs w !! path <> Some Dir).
    { apply writable_not_dir, Hw. }
    repeat split.
    + simpl; auto.
    + intros p Hp. apply lookup_insert_ne. intros <-. apply Hp. eauto.
    + intros p Hp. destruct (decide (path = p)) as [<-|Hne];
        [rewrite lookup_insert_eq; eauto|rewrite lookup_insert_ne by exact Hne; exact Hp].
    + intros p Hp. destruct (decide (path = p)) as [<-|Hne];
        [congruence|rewrite lookup_insert_ne by exact Hne; exact Hp].
  - destruct (get_results_total w) as (res & H & Hs).
    exists res, w. repeat split; auto.
  - destruct (get_result_file_total param w) as (res & H & Hs).
    exists res, w. repeat split; auto.
  - exists (match fs w !! DB_FILE with
            | Some (File text) =>
                match JSON_parse text with
                | Some v => Json 200 v
                | None => Json 500 (error_body "Failed to fetch history")
                end
            | _ => Json 500 (error_body "Failed to fetch history")
            end), w.
    split.
    { unfold handle, get_prescriptions, try_catch, getPrescriptions, bind, Fs.readFileSync.
      destruct (fs w !! DB_FILE) as [[|text]|]; try reflexivity.
      destruct (JSON_parse text); reflexivity. }
    repeat split; auto.
    destruct (fs w !! DB_FILE) as [[|text]|]; try (simpl; auto; fail).
    destruct (JSON_parse text); simpl; auto.
Qed.

End RouterFacts.

(** *** Archive names *)

Module NameFacts.

Import StringFacts ArchivePathFacts.

Lemma dropPrefix_spec (p s n : string) : Js.dropPrefix p s = Some n <-> s = p +:+ n.
Proof.
  revert s. induction p as [|a p IH]; intros s; cbn [Js.dropPrefix].
  - split; [intros [= ->]; reflexivity|intros ->; reflexivity].
  - rewrite append_cons. destruct s as [|b s]; [split; discriminate|].
    destruct (Ascii.eqb_spec a b) as [->|Hne].
    + rewrite IH. split; [intros ->; reflexivity|intros [= ->]; reflexivity].
    + split; [discriminate|intros [= E _]; congruence].
Qed.

Lemma substring_all (b : string) : String.substring 0 (String.length b) b = b.
Proof. induction b as [|c b IH]; [reflexivity|]. cbn. rewrite IH. reflexivity. Qed.

Lemma substring_suffix (a b : string) :
  String.substring (String.length a) (String.length b) (a +:+ b) = b.
Proof.
  induction a as [|c a IH]; [apply substring_all|].
  rewrite append_cons. cbn [String.length String.substring]. exact IH.
Qed.

Lemma endsWith_append (a b : string) : Js.endsWith (a +:+ b) b = true.
Proof.
  unfold Js.endsWith, Js.len. rewrite JsFacts.length_append.
  apply andb_true_intro. split; [apply Nat.leb_le; lia|].
  replace (String.length a + String.length b - String.length b)%nat
    with (String.length a) by lia.
  rewrite substring_suffix. apply String.eqb_refl.
Qed.

Lemma hasChar_of_list (c : ascii) (l : list ascii) :
  Js.hasChar c (string_of_list_ascii l) = existsb (fun x => Ascii.eqb x c) l.
Proof. induction l as [|x l IH]; [reflexivity|]. cbn. rewrite IH. reflexivity. Qed.

Lemma existsb_rev {A} (f : A -> bool) (l : list A) : existsb f (rev l) = existsb f l.
Proof.
  induction l as [|x l IH]; [reflexivity|]. cbn [rev existsb].
  rewrite existsb_app, IH. cbn. rewrite orb_false_r. apply orb_comm.
Qed.

Lemma hasChar_chars (c : ascii) (s : string) :
  existsb (fun x => Ascii.eqb x c) (list_ascii_of_string s) = Js.hasChar c s.
Proof. induction s as [|x s IH]; [reflexivity|]. cbn. rewrite IH. reflexivity. Qed.

Lemma every_impl (p q : ascii -> bool) (s : string) :
  (forall c, p c = true -> q c = true) -> every p s = true -> every q s = true.
Proof.
  intros Hpq. induction s as [|c s IH]; [reflexivity|]. cbn [every].
  intros H. apply andb_true_iff in H as [Hc Hs]. rewrite (Hpq _ Hc), (IH Hs). reflexivity.
Qed.

Lemma stampChar_unspaced (c : ascii) : stampChar c = true -> unspaced c = true.
Proof.
  unfold stampChar, unspaced, Js.is_space. cbv zeta.
  generalize (nat_of_ascii c). intros n H.
  apply negb_true_iff.
  repeat (apply orb_true_iff in H as [H|H]);
    repeat (apply orb_false_iff; split);
    try (apply andb_true_iff in H as [H1 H2]; apply Nat.leb_le in H1, H2);
    try apply Nat.eqb_eq in H;
    try (apply andb_false_iff; left; apply Nat.leb_gt; lia);
    try (apply andb_false_iff; right; apply Nat.leb_gt; lia);
    try (apply Nat.eqb_neq; lia).
Qed.

Lemma replace_spaces_unspaced (b : bool) (s : string) :
  every unspaced (Js.replace_spaces_from b s) = true.
Proof.
  revert b. induction s as [|c s IH]; intros b; [reflexivity|].
  cbn [Js.replace_spaces_from]. destruct (Js.is_space c) eqn:Hc.
  - destruct b; [apply IH|]. cbn [every]. rewrite IH. reflexivity.
  - cbn [every]. unfold unspaced at 1. rewrite Hc, IH. reflexivity.
Qed.

Lemma doctorPart_unspaced (doctor : option string) :
  every unspaced (doctorPart doctor) = true.
Proof.
  destruct doctor as [[|c s]|]; try reflexivity.
  unfold doctorPart. rewrite <- JsFacts.replace_spaces_underscored.
  apply replace_spaces_unspaced.
Qed.

Lemma archiveName_unspaced (doctor : option string) (t : Z) :
  every unspaced (archiveName doctor t) = true.
Proof.
  unfold archiveName. rewrite !every_append.
  rewrite doctorPart_unspaced.
  rewrite (every_impl _ _ _ stampChar_unspaced (dateTime_stamp t)).
  reflexivity.
Qed.

Lemma archiveName_json (doctor : option string) (t : Z) :
  Js.endsWith (archiveName doctor t) ".json" = true.
Proof.
  unfold archiveName. rewrite <- !append_assoc. apply endsWith_append.
Qed.

End NameFacts.

(** *** The listing of the archive *)

Section ListingFacts.

Context {J : JSONApi}.

Import StringFacts SegmentFacts ArchivePathFacts NameFacts.

Lemma append_inv_head (a b c : string) : a +:+ b = a +:+ c -> b = c.
Proof.
  induction a as [|x a IH]; [auto|]. rewrite !append_cons. intros [= E]. auto.
Qed.

Lemma childName_results (k n : string) :
  Fs.childName "results" k = Some n <->
  k = "results/" +:+ n /\ n <> "" /\ Js.hasChar Path.sep n = false.
Proof.
  unfold Fs.childName.
  change (Fs.entryPrefix "results") with "results/".
  destruct (Js.dropPrefix "results/" k) as [m|] eqn:Hd.
  - apply dropPrefix_spec in Hd.
    destruct (String.eqb_spec m "") as [->|Hne]; cbn [orb].
    + split; [discriminate|].
      intros (Hk & Hn & _). rewrite Hk in Hd. apply append_inv_head in Hd. congruence.
    + destruct (Js.hasChar Path.sep m) eqn:Hs.
      * split; [discriminate|].
        intros (Hk & _ & Hc). rewrite Hk in Hd. apply append_inv_head in Hd. congruence.
      * split.
        -- intros [= <-]. auto.
        -- intros (Hk & _ & _). rewrite Hk in Hd. apply append_inv_head in Hd. congruence.
  - split; [discriminate|]. intros (Hk & _).
    apply dropPrefix_spec in Hk. congruence.
Qed.

Lemma readdirSync_results (w : world) :
  fs w !! "results" = Some Dir ->
  exists names,
    Fs.readdirSync "results" w = (Ok names, w)
    /\ forall n, In n names <-> resultsEntry (fs w) n.
Proof.
  intros Hdir. unfold Fs.readdirSync, Fs.dir_exists. rewrite Hdir, orb_true_r.
  eexists. split; [reflexivity|]. intros n.
  rewrite <- list_elem_of_In, list_elem_of_omap. unfold resultsEntry. split.
  - intros ([k v] & Hin & Hc). apply elem_of_map_to_list in Hin.
    cbn [fst] in Hc. apply childName_results in Hc as (-> & Hn & Hs).
    repeat split; eauto.
  - intros (Hn & Hs & [v Hv]). exists ("results/" +:+ n, v). split.
    + apply elem_of_map_to_list. exact Hv.
    + cbn [fst]. apply childName_results. auto.
Qed.

Lemma get_results_dir (w : world) :
  fs w !! "results" = Some Dir ->
  exists files,
    get_results w = (Ok (Json 200 (listing files)), w)
    /\ forall n, In n files <->
                 resultsEntry (fs w) n /\ Js.endsWith n ".json" = true.
Proof.
  intros Hr. destruct (readdirSync_results w Hr) as (names & Hread & Hnames).
  exists (List.filter (fun f => Js.endsWith f ".json") names). split.
  - unfold get_results, try_catch. unfold bind at 1.
    unfold Fs.existsSync. rewrite Hr. rewrite orb_true_r. cbn [negb].
    unfold bind. rewrite Hread. reflexivity.
  - intros n. rewrite filter_In, Hnames. reflexivity.
Qed.

(** X5: GET /api/results reads only.  Without an entry [results] it
    answers 200 with the empty list; where [results] is a regular file,
    500; where it is a directory, 200 with exactly the names of its entries
    that end with [.json], whatever kind of entry they name. *)
Theorem get_results_cases (w : world) :
  match fs w !! "results" with
  | None => get_results w = (Ok (Json 200 (listing [])), w)
  | Some (File _) =>
      get_results w = (Ok (Json 500 (error_body "Failed to fetch results")), w)
  | Some Dir =>
      exists files,
        get_results w = (Ok (Json 200 (listing files)), w)
        /\ forall n, In n files <->
                     resultsEntry (fs w) n /\ Js.endsWith n ".json" = true
  end.
Proof.
  destruct (fs w !! "results") as [[|data]|] eqn:Hr.
  - apply get_results_dir, Hr.
  - unfold get_results, try_catch. unfold bind at 1.
    unfold Fs.existsSync. rewrite Hr. rewrite orb_true_r. cbn [negb].
    unfold bind, Fs.readdirSync. rewrite Hr. reflexivity.
  - unfold get_results, try_catch, bind, Fs.existsSync. rewrite Hr. reflexivity.
Qed.

Lemma dirname_rev_nosep (l1 l2 : list ascii) :
  existsb (fun x => Ascii.eqb x Path.sep) l1 = false ->
  Path.dirname_rev (l1 ++ Path.sep :: l2) = Some l2.
Proof.
  induction l1 as [|x l1 IH]; [reflexivity|]. cbn [existsb app Path.dirname_rev].
  intros H. apply orb_false_iff in H as [Hx Hl]. rewrite Hx. auto.
Qed.

Lemma dirname_results (n : string) :
  Js.hasChar Path.sep n = false -> Path.dirname ("results/" +:+ n) = "results".
Proof.
  intros Hn. unfold Path.dirname.
  change ("results/" +:+ n) with ("results" +:+ String Path.sep n).
  rewrite chars_append. cbn [list_ascii_of_string]. rewrite rev_app_distr.
  cbn [rev]. rewrite <- app_assoc. cbn [app].
  rewrite dirname_rev_nosep by (rewrite existsb_rev, hasChar_chars; exact Hn).
  reflexivity.
Qed.

Lemma archiveName_nosep (doctor : option string) (t : Z) :
  plainDoctor doctor = true -> Js.hasChar Path.sep (archiveName doctor t) = false.
Proof.
  intros Hplain. rewrite archiveName_tail, !hasChar_append, nameTail_nosep,
    (doctorPart_nosep _ Hplain). reflexivity.
Qed.

(** A save into the results directory itself *)
Lemma post_save_result_plain (body : jsval) (doctor : option string) (w : world) :
  Value.nullish body = false ->
  Value.truthy (Value.prop body "result") = true ->
  doctorString (doctorOf (Value.prop body "result")) = Some doctor ->
  plainDoctor doctor = true ->
  let name := archiveName doctor (clock w (reads w)) in
  Path.join ["results"; name] = "results/" +:+ name
  /\ Fs.writable (fs w) ("results/" +:+ name) = resultsTakes (fs w) name
  /\ post_save_result body w
     = if Fs.writable (fs w) ("results/" +:+ name)
       then (Ok (Json 200 (savedBody name ("results/" +:+ name))),
             Fs.set_fs (<[("results/" +:+ name) :=
                            File (JSON_stringify (Value.prop body "result") 2)]> (fs w))
               (tick w))
       else (Ok (Json 500 (error_body "Failed to save result")), tick w).
Proof.
  intros Hb Ht Hd Hplain name.
  pose proof (archiveName_nosep doctor (clock w (reads w)) Hplain) as Hsep. fold name in Hsep.
  rewrite <- metadata_doctor_name_payload in Hd.
  pose proof (post_save_result_cases body w) as Hsave.
  rewrite Hb, Ht, Hd in Hsave. cbn [negb] in Hsave. cbv zeta in Hsave.
  rewrite (save_path_plain _ _ Hplain) in Hsave. fold name in Hsave.
  split; [apply (save_path_plain _ _ Hplain)|]. split; [|exact Hsave].
  unfold Fs.writable, resultsTakes. rewrite (dirname_results _ Hsep). f_equal.
  unfold Fs.dir_exists. change (Fs.ancestor "results") with false. cbn [orb].
  destruct (fs w !! "results") as [[|d]|];
    destruct (fs w !! ("results/" +:+ name)) as [[|d']|]; reflexivity.
Qed.

(** The same, where the place takes the file *)
Lemma post_save_result_written (body : jsval) (doctor : option string) (w : world) :
  Value.nullish body = false ->
  Value.truthy (Value.prop body "result") = true ->
  doctorString (doctorOf (Value.prop body "result")) = Some doctor ->
  plainDoctor doctor = true ->
  fs w !! "results" = Some Dir ->
  let name := archiveName doctor (clock w (reads w)) in
  Fs.validPath ("results/" +:+ name) = true ->
  fs w !! ("results/" +:+ name) <> Some Dir ->
  post_save_result body w
  = (Ok (Json 200 (savedBody name ("results/" +:+ name))),
     Fs.set_fs (<[("results/" +:+ name) :=
                    File (JSON_stringify (Value.prop body "result") 2)]> (fs w)) (tick w)).
Proof.
  intros Hb Ht Hd Hplain Hdir name Hvalid Hfree.
  destruct (post_save_result_plain body doctor w Hb Ht Hd Hplain) as (_ & Hw & Hsave).
  fold name in Hw, Hsave. rewrite Hsave, Hw. unfold resultsTakes.
  rewrite Hvalid, Hdir. cbn [andb].
  destruct (fs w !! ("results/" +:+ name)) as [[|d]|]; [contradiction|reflexivity..].
Qed.

(** C4: for every result the handler accepts, at every instant: when the
    doctor name the payload carries is a string or missing, the archive
    name is [prescription_], the doctor name with each run of white space
    replaced by one underscore (["unknown"] when missing or empty), an
    underscore, the ISO rendering of the instant cut to the second with
    hyphens for its colons, and [.json].  The handler answers 200 with that
    name and has written the serialized result at the name joined to the
    results directory, or answers 500 and has written nothing; for a doctor
    name without separator the file goes into the results directory itself,
    and is written exactly when that directory takes it (a doctor name of
    another kind has no [replace]: the answer is 500).  Two instants of one
    second give one name, and a later save that computes the name of a save
    answered 200 replaces what that one wrote. *)
Theorem save_result_filename (body : jsval) (w : world) :
  Value.nullish body = false ->
  let result := Value.prop body "result" in
  Value.truthy result = true ->
  let t := clock w (reads w) in
  match doctorString (doctorOf result) with
  | None =>
      post_save_result body w
      = (Ok (Json 500 (error_body "Failed to save result")), tick w)
  | Some doctor =>
      let name := archiveName doctor t in
      let path := Path.join ["results"; name] in
      let written :=
        (Ok (Json 200 (savedBody name path)),
         Fs.set_fs (<[path := File (JSON_stringify result 2)]> (fs w)) (tick w)) in
      let refused := (Ok (Json 500 (error_body "Failed to save result")), tick w) in
      (post_save_result body w = written \/ post_save_result body w = refused)
      /\ (plainDoctor doctor = true ->
          path = "results/" +:+ name
          /\ post_save_result body w
             = if resultsTakes (fs w) name then written else refused)
      /\ name = "prescription_" +:+ doctorPart doctor +:+ "_" +:+
                Js.slice_drop_last 5 (Js.replace_colon_dot (JsDate.toISOString t)) +:+
                ".json"
      /\ (doctor = Some "Dr. Jane Smith" ->
          name = "prescription_Dr._Jane_Smith_" +:+ JsDate.dateTime "-" t +:+ ".json")
      /\ (forall t', (t' / 1000 = t / 1000)%Z -> archiveName doctor t' = name)
      /\ (forall body' doctor',
            Value.nullish body' = false ->
            Value.truthy (Value.prop body' "result") = true ->
            doctorString (doctorOf (Value.prop body' "result")) = Some doctor' ->
            archiveName doctor' (clock w (S (reads w))) = name ->
            post_save_result body w = written ->
            exists w'',
              post_save_result body' (snd written)
              = (Ok (Json 200 (savedBody name path)), w'')
              /\ fs w'' !! path
                 = Some (File (JSON_stringify (Value.prop body' "result") 2)))
  end.
Proof.
  intros Hb result Ht t. rewrite <- metadata_doctor_name_payload.
  destruct (doctorString (metadata_doctor_name result)) as [doctor|] eqn:Hd;
    [|apply (post_save_result_bad_doctor body result w); auto].
  intros name path written refused.
  pose proof (post_save_result_accepts body result doctor w Hb eq_refl Ht Hd) as Hfirst.
  cbv zeta in Hfirst. fold t in Hfirst. fold name in Hfirst. fold path in Hfirst.
  fold written in Hfirst. fold refused in Hfirst.
  split; [destruct (Fs.writable (fs w) path); auto|].
  split.
  { intros Hplain. rewrite metadata_doctor_name_payload in Hd.
    destruct (post_save_result_plain body doctor w Hb Ht Hd Hplain) as (Hpath & Hw & _).
    fold t in Hpath, Hw. fold name in Hpath, Hw. fold path in Hpath.
    split; [exact Hpath|]. rewrite Hfirst, Hpath, Hw. reflexivity. }
  split; [unfold name, archiveName; rewrite JsFacts.timestamp_eq; reflexivity|].
  split; [intros ->; reflexivity|]. split.
  - intros t' Ht'. unfold name, archiveName.
    rewrite (JsFacts.dateTime_same_second "-" _ _ Ht'). reflexivity.
  - intros body' doctor' Hb' Ht' Hd' Hname Hdone.
    assert (Hw : Fs.writable (fs w) path = true).
    { rewrite Hfirst in Hdone. destruct (Fs.writable (fs w) path); [reflexivity|].
      unfold written, refused in Hdone. discriminate. }
    rewrite <- metadata_doctor_name_payload in Hd'.
    pose proof (post_save_result_accepts body' _ doctor' (snd written)
                  Hb' eq_refl Ht' Hd') as Hsecond.
    cbv zeta in Hsecond. unfold written in Hsecond |- *.
    cbn [snd clock reads fs Fs.set_fs tick] in Hsecond |- *.
    rewrite Hname in Hsecond. fold path in Hsecond.
    rewrite writable_after_write in Hsecond by exact Hw.
    eexists. split; [exact Hsecond|]. cbn [fs Fs.set_fs]. apply lookup_insert_eq.
Qed.

Lemma results_entry_not_dir (n : string) : "results" <> "results/" +:+ n.
Proof.
  intros E. apply (f_equal String.length) in E.
  rewrite JsFacts.length_append in E. cbn in E. lia.
Qed.

(** X6: a saved result is listed.  With a body that carries a truthy
    result whose doctor name is a string without separator, or missing, a
    name that the file system takes, and a results directory with no
    directory at the name's place, the save answers 200, the file stands
    directly in the results directory under the name answered, and the
    listing of the results that follows contains that name. *)
Theorem saved_result_is_listed
    (body : jsval) (doctor : option string) (w : world) :
  Value.nullish body = false ->
  Value.truthy (Value.prop body "result") = true ->
  doctorString (doctorOf (Value.prop body "result")) = Some doctor ->
  plainDoctor doctor = true ->
  fs w !! "results" = Some Dir ->
  let name := archiveName doctor (clock w (reads w)) in
  Fs.validPath ("results/" +:+ name) = true ->
  fs w !! ("results/" +:+ name) <> Some Dir ->
  exists w' files,
    post_save_result body w
    = (Ok (Json 200 (savedBody name ("results/" +:+ name))), w')
    /\ fs w' = <[("results/" +:+ name) :=
                   File (JSON_stringify (Value.prop body "result") 2)]> (fs w)
    /\ get_results w' = (Ok (Json 200 (listing files)), w')
    /\ In name files.
Proof.
  intros Hb Ht Hd Hplain Hdir name Hvalid Hfree.
  pose proof (post_save_result_written body doctor w Hb Ht Hd Hplain Hdir Hvalid Hfree)
    as Hsave.
  fold name in Hsave. set (w' := Fs.set_fs _ (tick w)) in Hsave.
  assert (Hdir' : fs w' !! "results" = Some Dir).
  { unfold w'. cbn [fs Fs.set_fs]. rewrite lookup_insert_ne; [exact Hdir|].
    intros E. symmetry in E. exact (results_entry_not_dir _ E). }
  destruct (get_results_dir w' Hdir') as (files & Hlist & Hfiles).
  exists w', files. split; [exact Hsave|]. split; [reflexivity|].
  split; [exact Hlist|]. apply Hfiles. split; [|apply archiveName_json].
  repeat split.
  - apply archiveName_nonempty.
  - apply archiveName_nosep, Hplain.
  - unfold w'. cbn [fs Fs.set_fs]. rewrite lookup_insert_eq. eauto.
Qed.

End ListingFacts.

(** *** The name answered and the path downloaded *)

Section AnswerFacts.

Context {J : JSONApi}.

Import StringFacts SegmentFacts ArchivePathFacts NameFacts.

Lemma startsWith_append (p s : string) : Js.startsWith (p +:+ s) p = true.
Proof.
  unfold Js.startsWith. induction p as [|c p IH]; [destruct s; reflexivity|].
  rewrite append_cons. cbn [String.prefix].
  destruct (ascii_dec c c); [exact IH|contradiction].
Qed.

(** X4: the name a save answers with has no white space, starts with
    [prescription_] and ends with [.json], whatever the doctor name is. *)
Theorem save_result_name (body answer : jsval) (w w' : world) :
  post_save_result body w = (Ok (Json 200 answer), w') ->
  exists name path,
    answer = savedBody name path
    /\ every unspaced name = true
    /\ Js.startsWith name "prescription_" = true
    /\ Js.endsWith name ".json" = true.
Proof.
  rewrite post_save_result_cases.
  destruct (Value.nullish body); [discriminate|].
  destruct (negb _); [discriminate|].
  destruct (doctorString _) as [doctor|]; [|discriminate].
  cbv zeta. destruct (Fs.writable _ _); [|discriminate].
  intros [= <- _]. do 2 eexists. split; [reflexivity|].
  split; [apply archiveName_unspaced|]. split; [|apply archiveName_json].
  unfold archiveName. apply startsWith_append.
Qed.

Lemma basename_rev_nosep (b : bool) (r : list ascii) :
  existsb (fun x => Ascii.eqb x Path.sep) (Path.basename_rev b r) = false.
Proof.
  revert b. induction r as [|c r IH]; intros b; [reflexivity|].
  cbn [Path.basename_rev]. destruct (Ascii.eqb c Path.sep) eqn:Hc.
  - destruct b; [apply IH|reflexivity].
  - cbn [existsb]. rewrite Hc, IH. reflexivity.
Qed.

Lemma basename_nosep (p : string) : Js.hasChar Path.sep (Path.basename p) = false.
Proof.
  unfold Path.basename. rewrite hasChar_of_list, existsb_rev. apply basename_rev_nosep.
Qed.

(** X7: the path the download handler looks at.  The base name of the
    parameter has no separator, and joined to [results] it gives the
    results directory itself for an empty name or [.], the working
    directory for [..], and the entry of that name directly in the results
    directory in every other case. *)
Theorem download_path_confined (param : string) :
  Js.hasChar Path.sep (Path.basename param) = false
  /\ Path.join ["results"; Path.basename param] = downloadPath (Path.basename param).
Proof.
  split; [apply basename_nosep|].
  pose proof (basename_nosep param) as Hsep.
  unfold downloadPath. generalize dependent (Path.basename param). intros b Hsep.
  destruct (decide (b = "" \/ b = ".")) as [[->| ->]|Hn]; [reflexivity|reflexivity|].
  destruct (decide (b = "..")) as [->|Hdd]; [reflexivity|].
  apply join_results_plain; [exact Hsep|].
  repeat split; intros E; auto.
Qed.

End AnswerFacts.

(** *** Requests in a row *)

Section ServeFacts.

Context {J : JSONApi}.

Import StringFacts SegmentFacts ArchivePathFacts NameFacts.

(** X8: requests handled in a row are all answered, in order and each
    with a status of its route: no exception escapes a handler.  Nothing a
    handler does deletes an entry or puts a file where a directory was. *)
Theorem serve_answers (reqs : list apiRequest) (w : world) :
  exists ress w',
    serve reqs w = (Ok ress, w')
    /\ Forall2 (fun req res => In (statusOf res) (statuses req)) reqs ress
    /\ (forall p, is_Some (fs w !! p) -> is_Some (fs w' !! p))
    /\ (forall p, fs w !! p = Some Dir -> fs w' !! p = Some Dir).
Proof.
  revert w. induction reqs as [|req rest IH]; intros w.
  - exists [], w. repeat split; auto.
  - destruct (handle_answers req w) as (res & w1 & Hh & Hs & _ & Hkeep & Hdir).
    destruct (IH w1) as (ress & w' & Hr & Hall & Hkeep' & Hdir').
    exists (res :: ress), w'. cbn [serve]. unfold bind at 1. rewrite Hh.
    unfold bind at 1. rewrite Hr. repeat split; auto.
Qed.

Lemma holds_fs (w w' : world) (items : list jsval) :
  fs w' !! DB_FILE = fs w !! DB_FILE -> holds w items -> holds w' items.
Proof. intros E (text & Hf & Hp). exists text. rewrite E. auto. Qed.

Lemma holds_storedArray (w : world) (items : list jsval) :
  holds w items -> storedArray w = Some items.
Proof. intros (text & Hf & Hp & _). unfold storedArray. rewrite Hf, Hp. reflexivity. Qed.

Lemma prop_payload (body : jsval) (k : string) :
  Value.is_json body = true -> isPayload (Value.prop body k).
Proof.
  unfold isPayload. destruct body as [| | | | | |props]; cbn [Value.prop]; auto.
  cbn [Value.is_json]. induction props as [|[k' v] props IH]; cbn; [auto|].
  intros H. apply andb_true_iff in H as [Hv Hrest].
  destruct (String.eqb k k'); [right; exact Hv|]. apply IH, Hrest.
Qed.

Lemma handle_holds (req : apiRequest) (w : world) (items : list jsval) :
  JSONRoundTrip J -> jsonRequest req -> holds w items ->
  exists res w' more,
    handle req w = (Ok res, w')
    /\ holds w' (items ++ more)
    /\ List.length more = (if isAppend req then 1 else 0)%nat
    /\ (isAppend req = true -> statusOf res = 200%Z).
Proof.
  intros HJ Hjson Hholds.
  destruct (decide (isAppend req = true)) as [Happ|Hno].
  - destruct req as [|body| | | |]; try discriminate. cbn [isAppend] in Happ.
    apply negb_true_iff in Happ. cbn [handle jsonRequest] in *.
    pose proof (post_prescriptions_run body w) as Hrun.
    rewrite Happ, (holds_storedArray _ _ Hholds) in Hrun.
    destruct (savePrescription_holds items (Value.prop body "data") w HJ Hholds
                (prop_payload _ _ Hjson)) as (w1 & Hsave & Hh & _).
    destruct Hholds as (text & Hf & Hp & Hall).
    rewrite (savePrescription_stored text items _ w Hf Hp) in Hsave.
    injection Hsave as <-.
    do 3 eexists. split; [exact Hrun|]. split; [exact Hh|].
    cbn [isAppend]. rewrite Happ. auto.
  - destruct (handle_answers req w) as (res & w' & Hh & _ & Hsame & _).
    exists res, w', []. split; [exact Hh|]. rewrite app_nil_r.
    destruct (isAppend req) eqn:Happ; [contradiction|].
    split; [|split; [reflexivity|discriminate]].
    destruct req as [|body|body| | |]; cbn [touches] in Hsame;
      try (apply (holds_fs w); [apply Hsame; tauto|exact Hholds]).
    + cbn [isAppend] in Happ. apply negb_false_iff in Happ.
      pose proof (post_prescriptions_run body w) as Hrun. rewrite Happ in Hrun.
      destruct Hrun as (w1 & Hrun & Hfs). cbn [handle] in Hh.
      rewrite Hrun in Hh. injection Hh as _ <-.
      apply (holds_fs w); [rewrite Hfs; reflexivity|exact Hholds].
    + apply (holds_fs w); [|exact Hholds]. apply Hsame.
      intros (doctor & _ & E). symmetry in E. exact (save_path_not_store _ _ E).
Qed.

(** X9: the store only grows.  With a JSON codec that round-trips and
    request bodies that are JSON values, a store that holds an array of
    JSON values holds, after any sequence of requests, the same items
    followed by one new record for each append that had a body, and each
    of those appends was answered 200; the history endpoint then answers
    200 with that array. *)
Theorem serve_store_grows (reqs : list apiRequest) (w : world) (items : list jsval) :
  JSONRoundTrip J -> Forall jsonRequest reqs -> holds w items ->
  exists ress w' more,
    serve reqs w = (Ok ress, w')
    /\ holds w' (items ++ more)
    /\ List.length more = List.length (List.filter isAppend reqs)
    /\ Forall2 (fun req res => isAppend req = true -> statusOf res = 200%Z) reqs ress
    /\ get_prescriptions w' = (Ok (Json 200 (JArr (items ++ more))), w').
Proof.
  intros HJ Hjson. revert w items.
  induction Hjson as [|req rest Hreq Hrest IH]; intros w items Hholds.
  - exists [], w, []. rewrite app_nil_r. repeat split; auto.
    unfold get_prescriptions, try_catch. unfold bind at 1.
    rewrite (holds_list _ _ Hholds). reflexivity.
  - destruct (handle_holds req w items HJ Hreq Hholds) as (res & w1 & m1 & Hh & Hh1 & Hlen & Hst).
    destruct (IH w1 _ Hh1) as (ress & w' & m2 & Hr & Hh2 & Hlen2 & Hall & Hget).
    exists (res :: ress), w', (m1 ++ m2)%list.
    rewrite app_assoc. split; [|split; [exact Hh2|split; [|split; [|exact Hget]]]].
    + cbn [serve]. unfold bind at 1. rewrite Hh. unfold bind at 1. rewrite Hr. reflexivity.
    + rewrite length_app, Hlen, Hlen2. cbn [List.filter].
      destruct (isAppend req); reflexivity.
    + constructor; assumption.
Qed.

End ServeFacts.

(** *** The start of the server *)

Section StartFacts.

Context {J : JSONApi}.

Lemma set_fs_same (w : world) : Fs.set_fs (fs w) w = w.
Proof. destruct w. reflexivity. Qed.

Lemma ensureDir_run (d : string) (w : world) :
  Fs.validPath d = true -> Fs.ancestor d = false -> Path.dirname d = "." ->
  ensureDir d w =
    (Ok tt, match fs w !! d with
            | Some _ => w
            | None => Fs.set_fs (<[d := Dir]> (fs w)) w
            end).
Proof.
  intros Hv Ha Hd. destruct (validPath_split d Hv) as [Hn Hl].
  unfold ensureDir, bind. rewrite (existsSync_lookup _ _ Ha).
  destruct (fs w !! d) eqn:Hf; cbn [negb]; [reflexivity|].
  unfold Fs.mkdirSync. rewrite Hn, Hl, Hf, Hd. reflexivity.
Qed.

Lemma initDb_run (w : world) :
  initDb w =
    (Ok tt, match fs w !! DB_FILE with
            | Some _ => w
            | None => Fs.set_fs (<[DB_FILE := File (JSON_stringify (JArr []) 0)]> (fs w)) w
            end).
Proof.
  destruct (fs w !! DB_FILE) eqn:Hf; [apply initDb_present; eauto|apply initDb_absent, Hf].
Qed.

(** The storage directory of the uploads: made where nothing stands,
    refused where a regular file does *)
Lemma multer_uploads (w : world) :
  multer "uploads/" w =
    match fs w !! "uploads" with
    | Some (File _) => (Throw (SystemError "ENOTDIR"), w)
    | Some Dir => (Ok tt, w)
    | None => (Ok tt, Fs.set_fs (<["uploads" := Dir]> (fs w)) w)
    end.
Proof.
  unfold multer, Fs.mkdirSync_recursive.
  change (Js.hasChar Fs.NUL "uploads/") with false.
  change (Fs.withinLimits "uploads/") with true. cbn [negb].
  change (List.filter _ (Js.split Path.sep "uploads/")) with ["uploads"].
  cbn [Fs.mkdirs]. change (Fs.entryPrefix "." +:+ "uploads") with "uploads".
  change (Fs.ancestor "uploads") with false. cbv iota.
  destruct (fs w !! "uploads") as [[|data]|]; try reflexivity.
  rewrite set_fs_same. reflexivity.
Qed.

Lemma insert_absent (f : gmap string node) (k p : string) (n : node) :
  (match f !! k with Some _ => f | None => <[k := n]> f end) !! p
  = match f !! p with
    | Some x => Some x
    | None => if String.eqb k p then Some n else None
    end.
Proof.
  destruct (String.eqb_spec k p) as [<-|Hne].
  - destruct (f !! k) eqn:Hf; [rewrite Hf; reflexivity|].
    rewrite lookup_insert_eq. reflexivity.
  - destruct (f !! k); [destruct (f !! p); reflexivity|].
    rewrite lookup_insert_ne by exact Hne. destruct (f !! p); reflexivity.
Qed.

Lemma fs_if_absent (w : world) (k : string) (n : node) :
  fs (match fs w !! k with Some _ => w | None => Fs.set_fs (<[k := n]> (fs w)) w end)
  = match fs w !! k with Some _ => fs w | None => <[k := n]> (fs w) end.
Proof. destruct (fs w !! k); reflexivity. Qed.

(** The start where no regular file stands in the place of the uploads *)
Lemma startServer_run (w : world) :
  (forall data, fs w !! "uploads" <> Some (File data)) ->
  exists w',
    startServer w = (Ok tt, w')
    /\ (forall p, fs w' !! p = started (fs w) p)
    /\ cwd w' = cwd w /\ clock w' = clock w /\ reads w' = reads w.
Proof.
  intros Hup. unfold startServer. unfold bind at 1. rewrite initDb_run.
  set (w1 := match fs w !! DB_FILE with Some _ => w | None => _ end).
  assert (H1 : forall p, fs w1 !! p =
                 match fs w !! p with
                 | Some n => Some n
                 | None => if String.eqb DB_FILE p
                           then Some (File (JSON_stringify (JArr []) 0)) else None
                 end).
  { intros p. unfold w1. rewrite fs_if_absent. apply insert_absent. }
  assert (Hw1 : cwd w1 = cwd w /\ clock w1 = clock w /\ reads w1 = reads w).
  { unfold w1. destruct (fs w !! DB_FILE); auto. }
  unfold bind at 1. rewrite multer_uploads.
  set (w2 := match fs w1 !! "uploads" with
             | Some _ => w1
             | None => Fs.set_fs (<["uploads" := Dir]> (fs w1)) w1
             end).
  assert (Hm : match fs w1 !! "uploads" with
               | Some (File _) => (Throw (SystemError "ENOTDIR"), w1)
               | Some Dir => (Ok tt, w1)
               | None => (Ok tt, Fs.set_fs (<["uploads" := Dir]> (fs w1)) w1)
               end = (Ok tt, w2)).
  { unfold w2. pose proof (H1 "uploads") as Hu.
    destruct (fs w1 !! "uploads") as [[|data]|]; try reflexivity.
    exfalso. destruct (fs w !! "uploads") as [n|]; [|discriminate].
    injection Hu as <-. exact (Hup data eq_refl). }
  rewrite Hm.
  assert (H2 : forall p, fs w2 !! p =
                 match fs w1 !! p with
                 | Some n => Some n
                 | None => if String.eqb "uploads" p then Some Dir else None
                 end).
  { intros p. unfold w2. rewrite fs_if_absent. apply insert_absent. }
  assert (Hw2 : cwd w2 = cwd w1 /\ clock w2 = clock w1 /\ reads w2 = reads w1).
  { unfold w2. destruct (fs w1 !! "uploads"); auto. }
  unfold bind. rewrite (ensureDir_run "uploads" w2) by reflexivity.
  assert (Hup2 : is_Some (fs w2 !! "uploads")).
  { rewrite H2. destruct (fs w1 !! "uploads"); cbn; eauto. }
  destruct Hup2 as [n2 Hup2]. rewrite Hup2.
  rewrite (ensureDir_run "results" w2) by reflexivity.
  eexists. split; [reflexivity|]. split.
  - intros p. rewrite fs_if_absent, insert_absent, H2, H1.
    unfold started, startEntries.
    destruct (fs w !! p); [reflexivity|]. cbn [List.find fst snd].
    destruct (String.eqb DB_FILE p); [reflexivity|].
    destruct (String.eqb "uploads" p); [reflexivity|].
    destruct (String.eqb "results" p); reflexivity.
  - destruct Hw1 as (? & ? & ?), Hw2 as (? & ? & ?).
    destruct (fs w2 !! "results"); cbn [cwd clock reads Fs.set_fs];
      repeat split; congruence.
Qed.

(** X10: starting the server prepares the disk.  Where a regular file
    stands in the place of the uploads directory the start fails when the
    upload storage is built: the store file has been made sure of, no other
    path has changed, and the results directory is not created.  In every
    other case no structural error of the file system stops it: every entry
    that was there is kept as it was, also a regular file named [results];
    the store file, [uploads] and [results] are created where nothing
    stood, the store holding the serialized empty array; nothing else
    changes, and starting again changes nothing. *)
Theorem startServer_prepares (w : world) :
  match fs w !! "uploads" with
  | Some (File _) =>
      exists e w',
        startServer w = (Throw e, w')
        /\ is_Some (fs w' !! DB_FILE)
        /\ (forall p, p <> DB_FILE -> fs w' !! p = fs w !! p)
  | _ =>
      exists w',
        startServer w = (Ok tt, w')
        /\ (forall p, fs w' !! p = started (fs w) p)
        /\ (forall p n, fs w !! p = Some n -> fs w' !! p = Some n)
        /\ (forall e, In e startEntries -> is_Some (fs w' !! fst e))
        /\ startServer w' = (Ok tt, w')
  end.
Proof.
  assert (Hok : (forall data, fs w !! "uploads" <> Some (File data)) ->
                exists w',
                  startServer w = (Ok tt, w')
                  /\ (forall p, fs w' !! p = started (fs w) p)
                  /\ (forall p n, fs w !! p = Some n -> fs w' !! p = Some n)
                  /\ (forall e, In e startEntries -> is_Some (fs w' !! fst e))
                  /\ startServer w' = (Ok tt, w')).
  { intros Hup. destruct (startServer_run w Hup) as (w' & Hrun & Hfs & Hc & Hk & Hr).
    exists w'. split; [exact Hrun|]. split; [exact Hfs|]. split; [|split].
    - intros p n Hp. rewrite Hfs. unfold started. rewrite Hp. reflexivity.
    - intros e He. rewrite Hfs. unfold started.
      destruct (fs w !! fst e); [eauto|].
      unfold startEntries in *. cbn [In] in He.
      destruct He as [<-|[<-|[<-|[]]]]; cbn; eauto.
    - assert (Hup' : forall data, fs w' !! "uploads" <> Some (File data)).
      { intros data. rewrite Hfs. unfold started.
        pose proof (Hup data) as Hd.
        destruct (fs w !! "uploads"); [exact Hd|discriminate]. }
      destruct (startServer_run w' Hup') as (w2 & Hrun2 & Hfs2 & Hc2 & Hk2 & Hr2).
      rewrite Hrun2. f_equal.
      assert (Hsame : fs w2 = fs w').
      { apply map_eq. intros p. rewrite Hfs2. unfold started at 1.
        destruct (fs w' !! p) eqn:Hp; [reflexivity|].
        rewrite Hfs in Hp. unfold started in Hp.
        destruct (fs w !! p); [discriminate|]. exact Hp. }
      destruct w2, w'. cbn in *. congruence. }
  destruct (fs w !! "uploads") as [[|data]|] eqn:Hf;
    [apply Hok; intros; discriminate| |apply Hok; intros; discriminate].
  unfold startServer. unfold bind at 1. rewrite initDb_run.
  set (w1 := match fs w !! DB_FILE with Some _ => w | None => _ end).
  assert (H1 : forall p, p <> DB_FILE -> fs w1 !! p = fs w !! p).
  { intros p Hp. unfold w1. rewrite fs_if_absent, insert_absent.
    destruct (fs w !! p); [reflexivity|].
    destruct (String.eqb_spec DB_FILE p); [congruence|reflexivity]. }
  unfold bind at 1. rewrite multer_uploads, (H1 "uploads"), Hf by discriminate.
  exists (SystemError "ENOTDIR"), w1. split; [reflexivity|]. split; [|exact H1].
  unfold w1. rewrite fs_if_absent, insert_absent.
  destruct (fs w !! DB_FILE); [eauto|]. rewrite String.eqb_refl. eauto.
Qed.

End StartFacts.

(** *** The image data sent to the provider *)

Module ImageDataFacts.

Import Gemini GeminiFacts StringFacts.

Lemma beforeComma_nocomma (s : string) : Js.hasChar "," (beforeComma s) = false.
Proof.
  induction s as [|c s IH]; [reflexivity|]. cbn [beforeComma].
  destruct (Ascii.eqb c ",") eqn:Hc; [reflexivity|].
  cbn [Js.hasChar]. rewrite Hc, IH. reflexivity.
Qed.

Lemma afterFirstComma_nocomma (s : string) :
  Js.hasChar "," s = false -> afterFirstComma s = None.
Proof.
  induction s as [|c s IH]; [reflexivity|]. cbn [Js.hasChar afterFirstComma].
  intros H. apply orb_false_iff in H as [Hc Hs]. rewrite Hc. auto.
Qed.

(** X11: the data sent for an image is the whole payload or a piece of
    it without comma; it is empty only for the empty payload; and taking
    the data of the data changes nothing. *)
Theorem imageData_stable (payload : string) :
  (imageData payload = payload \/ Js.hasChar "," (imageData payload) = false)
  /\ (imageData payload = "" <-> payload = "")
  /\ imageData (imageData payload) = imageData payload.
Proof.
  rewrite (imageData_eq payload).
  destruct (afterFirstComma payload) as [data|] eqn:Ha.
  - destruct (String.eqb_spec (beforeComma data) "") as [He|Hne].
    + split; [left; reflexivity|]. split; [reflexivity|].
      rewrite imageData_eq, Ha, He. reflexivity.
    + split; [right; apply beforeComma_nocomma|]. split.
      * split; [contradiction|]. intros ->. discriminate.
      * rewrite imageData_eq.
        rewrite (afterFirstComma_nocomma _ (beforeComma_nocomma data)). reflexivity.
  - split; [left; reflexivity|]. split; [reflexivity|].
    rewrite imageData_eq, Ha. reflexivity.
Qed.

End ImageDataFacts.

(** *** The requests of the interface *)

Section SubmitFacts.

Context {J : JSONApi}.

Import StringFacts SegmentFacts ArchivePathFacts NameFacts.

Lemma keptRecord_of_json (t_id t_created : Z) (data : jsval) :
  Value.is_json data = true -> keptRecord t_id t_created data = newRecord t_id t_created data.
Proof. destruct data; (discriminate || reflexivity). Qed.

Lemma append_data (data : jsval) (w : world) (items : list jsval) :
  JSONRoundTrip J -> holds w items -> Value.is_json data = true ->
  post_prescriptions (JObj [("data", data)]) w
  = (Ok (Json 200 (appendedBody (clock w (reads w)))), afterAppend w items data)
  /\ holds (afterAppend w items data)
       (items ++ [newRecord (clock w (reads w)) (clock w (S (reads w))) data]).
Proof.
  intros HJ Hholds Hjson.
  pose proof (post_prescriptions_run (JObj [("data", data)]) w) as Hrun.
  cbn [Value.nullish] in Hrun. rewrite (holds_storedArray _ _ Hholds) in Hrun.
  change (Value.prop (JObj [("data", data)]) "data") with data in Hrun.
  split; [exact Hrun|].
  destruct (savePrescription_holds items data w HJ Hholds (or_intror Hjson))
    as (w1 & Hsave & Hh & _).
  destruct Hholds as (text & Hf & Hp & Hall).
  rewrite (savePrescription_stored text items _ w Hf Hp) in Hsave.
  injection Hsave as <-. rewrite keptRecord_of_json in Hh by exact Hjson. exact Hh.
Qed.

(** X13: what [handleProcess] leaves on the server for a result with a
    plain doctor name.  On a sound store and an existing results directory,
    with an archive name that the file system takes, both requests are
    answered 200: the history gains one record that carries the result,
    with the first reading of the clock as id, and the archive gains one
    file that holds the result serialized, named after the third reading
    of the clock. *)
Theorem handleProcess_saves_both
    (data : jsval) (doctor : option string) (w : world) (items : list jsval) :
  JSONRoundTrip J -> holds w items ->
  Value.is_json data = true -> Value.truthy data = true ->
  doctorString (doctorOf data) = Some doctor ->
  plainDoctor doctor = true ->
  fs w !! "results" = Some Dir ->
  let name := archiveName doctor (clock w (S (S (reads w)))) in
  Fs.validPath ("results/" +:+ name) = true ->
  fs w !! ("results/" +:+ name) <> Some Dir ->
  exists w',
    serve (handleProcess_requests data) w
    = (Ok [Json 200 (appendedBody (clock w (reads w)));
           Json 200 (savedBody name ("results/" +:+ name))], w')
    /\ holds w' (items ++ [newRecord (clock w (reads w)) (clock w (S (reads w))) data])
    /\ fs w' !! ("results/" +:+ name) = Some (File (JSON_stringify data 2))
    /\ forall p, p <> DB_FILE -> p <> "results/" +:+ name -> fs w' !! p = fs w !! p.
Proof.
  intros HJ Hholds Hjson Ht Hd Hplain Hdir name Hvalid Hfree.
  destruct (append_data data w items HJ Hholds Hjson) as [Hfirst Hh1].
  set (w1 := afterAppend w items data) in *.
  assert (Hstore : forall n, DB_FILE <> "results/" +:+ n) by (intros n; discriminate).
  assert (Hsecond := post_save_result_written (JObj [("result", data)]) doctor w1
                       eq_refl Ht Hd Hplain).
  cbv zeta in Hsecond.
  change (clock w1 (reads w1)) with (clock w (S (S (reads w)))) in Hsecond.
  fold name in Hsecond.
  change (Value.prop (JObj [("result", data)]) "result") with data in Hsecond.
  assert (Hdir1 : fs w1 !! "results" = Some Dir).
  { unfold w1, afterAppend. cbn [fs Fs.set_fs].
    rewrite lookup_insert_ne by discriminate. exact Hdir. }
  assert (Hfree1 : fs w1 !! ("results/" +:+ name) <> Some Dir).
  { unfold w1, afterAppend. cbn [fs Fs.set_fs].
    rewrite lookup_insert_ne by apply Hstore. exact Hfree. }
  specialize (Hsecond Hdir1 Hvalid Hfree1).
  eexists. split; [|split; [|split]].
  - unfold handleProcess_requests. cbn [serve handle]. unfold bind at 1. rewrite Hfirst.
    unfold bind at 1. unfold bind at 1. rewrite Hsecond. reflexivity.
  - apply (holds_fs w1); [|exact Hh1]. cbn [fs Fs.set_fs tick].
    apply lookup_insert_ne. intros E. symmetry in E. exact (Hstore _ E).
  - cbn [fs Fs.set_fs]. apply lookup_insert_eq.
  - intros p Hp1 Hp2. cbn [fs Fs.set_fs tick].
    rewrite lookup_insert_ne by congruence.
    unfold w1, afterAppend. cbn [fs Fs.set_fs]. apply lookup_insert_ne. congruence.
Qed.

(** X14: a falsy result, which a parsed response can be, is recorded in
    the history but not archived: of the two requests of [handleProcess]
    the first is answered 200 and appends the record, the second is
    answered 400 and writes nothing. *)
Theorem handleProcess_falsy_result (data : jsval) (w : world) (items : list jsval) :
  JSONRoundTrip J -> holds w items ->
  Value.is_json data = true -> Value.truthy data = false ->
  exists w',
    serve (handleProcess_requests data) w
    = (Ok [Json 200 (appendedBody (clock w (reads w)));
           Json 400 (error_body "No result data provided")], w')
    /\ holds w' (items ++ [newRecord (clock w (reads w)) (clock w (S (reads w))) data])
    /\ forall p, p <> DB_FILE -> fs w' !! p = fs w !! p.
Proof.
  intros HJ Hholds Hjson Hf.
  destruct (append_data data w items HJ Hholds Hjson) as [Hfirst Hh1].
  pose proof (post_save_result_cases (JObj [("result", data)]) (afterAppend w items data))
    as Hsecond.
  cbn [Value.nullish] in Hsecond.
  change (Value.prop (JObj [("result", data)]) "result") with data in Hsecond.
  rewrite Hf in Hsecond. cbn [negb] in Hsecond.
  eexists. split; [|split].
  - unfold handleProcess_requests. cbn [serve handle]. unfold bind at 1. rewrite Hfirst.
    unfold bind at 1. unfold bind at 1. rewrite Hsecond. reflexivity.
  - exact Hh1.
  - intros p Hp. unfold afterAppend. cbn [fs Fs.set_fs]. apply lookup_insert_ne. congruence.
Qed.

End SubmitFacts.

(** ** Runs on concrete worlds, with the reference codec *)

Module Runs.

Lemma get_result_file_always_denied_witness :
  let name := "prescription_Dr._Jane_Smith_2023-11-14T22-13-20.json" in
  Path.isAbsolute (cwd archived) = true
  /\ fs archived !! ("results/" +:+ name)
     = Some (File (JSON_stringify (JSONApi := refJson) sampleResult 2))
  /\ get_result_file name archived
     = (Ok (Json 403 (error_body "Access denied")), archived)
  /\ fs archived !! "results/missing.json" = None
  /\ get_result_file "missing.json" archived
     = (Ok (Json 403 (error_body "Access denied")), archived).
Proof.
  cbv zeta. split; [reflexivity|]. split; [reflexivity|].
  split; [|split; [reflexivity|]].
  - exact (proj1 (get_result_file_always_denied archived _ eq_refl)).
  - exact (proj1 (get_result_file_always_denied archived _ eq_refl)).
Defined.

(** C2, on the code: a doctor name with [..] segments takes the written
    file out of the results directory; here it lands in the working
    directory. *)
Theorem save_result_escapes_results_directory :
  let w := booted stuckClock in
  let run := post_save_result (J := refJson) (JObj [("result", traversalResult)]) w in
  let written := "x_2023-11-14T22-13-20.json" in
  fst run = Ok (Json 200 (savedBody "prescription_a/../../x_2023-11-14T22-13-20.json"
                            written))
  /\ fs w !! written = None
  /\ fs (snd run) !! written
     = Some (File (JSON_stringify (JSONApi := refJson) traversalResult 2))
  /\ Js.startsWith written "results/" = false
  /\ Js.startsWith (Path.resolve (cwd w) [written]) (Path.resolve (cwd w) ["results"])
     = false.
Proof. vm_compute. repeat split; reflexivity. Qed.

(** C3, on the code: two appends within one millisecond get the same
    id. *)
Lemma appends_in_one_millisecond_share_an_id :
  let w := snd (appendAll (J := refJson) [JStr "a"; JStr "b"] (booted stuckClock)) in
  exists r1 r2,
    fst (getPrescriptions (J := refJson) w) = Ok (JArr [r1; r2])
    /\ Value.prop r1 "data" = JStr "a" /\ Value.prop r2 "data" = JStr "b"
    /\ recordId r1 = recordId r2.
Proof. vm_compute. do 2 eexists. repeat split; reflexivity. Qed.

Lemma append_then_list_witness :
  JSONRoundTrip refJson
  /\ fs (booted runningClock) !! DB_FILE
     = Some (File (JSON_stringify (JSONApi := refJson) (JArr []) 0))
  /\ Forall isPayload [JStr "a"; JUndefined]
  /\ exists built records w',
       appendAll (J := refJson) [JStr "a"; JUndefined] (booted runningClock)
       = (Ok built, w')
       /\ getPrescriptions (J := refJson) w' = (Ok (JArr records), w')
       /\ List.length records = 2.
Proof.
  assert (Hp : Forall isPayload [JStr "a"; JUndefined]).
  { constructor; [right; reflexivity|]. constructor; [left; reflexivity|]. constructor. }
  split; [exact RefJsonFacts.refJson_round_trip|]. split; [reflexivity|].
  split; [exact Hp|].
  destruct (append_then_list (J := refJson) [JStr "a"; JUndefined] (booted runningClock)
              RefJsonFacts.refJson_round_trip eq_refl Hp)
    as (built & records & w' & Hrun & Hlist & Hlen & _).
  exists built, records, w'. repeat split; assumption.
Defined.

Lemma save_result_filename_witness :
  let body := JObj [("result", sampleResult)] in
  Value.nullish body = false
  /\ Value.truthy (Value.prop body "result") = true
  /\ doctorString (doctorOf (Value.prop body "result")) = Some (Some "Dr. Jane Smith")
  /\ plainDoctor (Some "Dr. Jane Smith") = true
  /\ resultsTakes (fs (booted runningClock))
       "prescription_Dr._Jane_Smith_2023-11-14T22-13-20.json" = true
  /\ post_save_result (J := refJson) body (booted runningClock)
     = (Ok (Json 200
              (savedBody "prescription_Dr._Jane_Smith_2023-11-14T22-13-20.json"
                 "results/prescription_Dr._Jane_Smith_2023-11-14T22-13-20.json")),
        Fs.set_fs
          (<["results/prescription_Dr._Jane_Smith_2023-11-14T22-13-20.json" :=
               File (JSON_stringify (JSONApi := refJson) sampleResult 2)]>
             (fs (booted runningClock)))
          (tick (booted runningClock))).
Proof.
  cbv zeta. do 5 (split; [reflexivity|]).
  exact (proj2 (proj1 (proj2 (save_result_filename (J := refJson)
                                (JObj [("result", sampleResult)])
                                (booted runningClock) eq_refl eq_refl))
                  eq_refl)).
Defined.

Lemma saved_result_not_read_back_witness :
  let body := JObj [("result", sampleResult)] in
  let name := "prescription_Dr._Jane_Smith_2023-11-14T22-13-20.json" in
  let path := "results/prescription_Dr._Jane_Smith_2023-11-14T22-13-20.json" in
  Path.isAbsolute (cwd (booted runningClock)) = true
  /\ Fs.writable (fs (booted runningClock)) path = true
  /\ exists w',
       post_save_result (J := refJson) body (booted runningClock)
       = (Ok (Json 200 (savedBody name path)), w')
       /\ fs w' !! path = Some (File (JSON_stringify (JSONApi := refJson) sampleResult 2))
       /\ get_result_file name w' = (Ok (Json 403 (error_body "Access denied")), w').
Proof.
  cbv zeta. split; [reflexivity|]. split; [reflexivity|].
  exact (saved_result_not_read_back (J := refJson) (JObj [("result", sampleResult)])
           sampleResult (Some "Dr. Jane Smith") (booted runningClock)
           eq_refl eq_refl eq_refl eq_refl eq_refl eq_refl).
Defined.

Lemma imageData_spec_witness :
  afterFirstComma "data:image/png;base64,iVBORw0KGgo=" = Some "iVBORw0KGgo="
  /\ afterFirstComma "iVBORw0KGgo=" = None
  /\ Gemini.imageData "data:image/png;base64,iVBORw0KGgo=" = "iVBORw0KGgo="
  /\ Gemini.imageData "iVBORw0KGgo=" = "iVBORw0KGgo=".
Proof.
  split; [reflexivity|]. split; [reflexivity|]. split.
  - destruct (GeminiFacts.imageData_spec "data:image/png;base64,iVBORw0KGgo=")
      as (_ & H & _).
    destruct (H "iVBORw0KGgo=" eq_refl eq_refl) as [E _]; [discriminate|exact E].
  - destruct (GeminiFacts.imageData_spec "iVBORw0KGgo=") as (H & _).
    exact (H eq_refl).
Defined.

Lemma initDb_idempotent_witness :
  fs (freshDisk stuckClock) !! DB_FILE = None
  /\ is_Some (fs (booted stuckClock) !! DB_FILE)
  /\ fs (snd (initDb (J := refJson) (freshDisk stuckClock))) !! DB_FILE = Some (File "[]")
  /\ getPrescriptions (J := refJson) (snd (initDb (J := refJson) (freshDisk stuckClock)))
     = (Ok (JArr []), snd (initDb (J := refJson) (freshDisk stuckClock)))
  /\ times 3 (initDb (J := refJson)) (freshDisk stuckClock)
     = initDb (J := refJson) (freshDisk stuckClock)
  /\ initDb (J := refJson) (booted stuckClock) = (Ok tt, booted stuckClock).
Proof.
  split; [reflexivity|]. split; [eexists; reflexivity|].
  destruct (initDb_idempotent (J := refJson) (freshDisk stuckClock) 2)
    as (Habsent & _ & Htimes).
  destruct (initDb_idempotent (J := refJson) (booted stuckClock) 0)
    as (_ & Hpresent & _).
  destruct (Habsent eq_refl) as [Hinit Hread].
  split; [|split; [|split]].
  - rewrite Hinit. reflexivity.
  - exact (Hread RefJsonFacts.refJson_round_trip).
  - exact Htimes.
  - apply Hpresent. eexists. reflexivity.
Defined.

Lemma save_result_rejects_falsy_witness :
  Value.nullish (JObj [("result", JStr "")]) = false
  /\ In (JStr "") falsyValues /\ In (JNum 0) falsyValues
  /\ post_save_result (J := refJson) (JObj [("result", JStr "")]) (booted stuckClock)
     = (Ok (Json 400 (error_body "No result data provided")), booted stuckClock)
  /\ post_save_result (J := refJson) (JObj [("result", JNum 0)]) (booted stuckClock)
     = (Ok (Json 400 (error_body "No result data provided")), booted stuckClock).
Proof.
  assert (H1 : In (JStr "") falsyValues) by (simpl; auto 6).
  assert (H2 : In (JNum 0) falsyValues) by (simpl; auto 6).
  split; [reflexivity|]. split; [exact H1|]. split; [exact H2|]. split.
  - exact (save_result_rejects_falsy (J := refJson) (JObj [("result", JStr "")])
             (booted stuckClock) eq_refl H1).
  - exact (save_result_rejects_falsy (J := refJson) (JObj [("result", JNum 0)])
             (booted stuckClock) eq_refl H2).
Defined.

Lemma post_prescriptions_without_data_witness :
  JSONRoundTrip refJson
  /\ Value.prop (JObj []) "data" = JUndefined
  /\ holds (J := refJson) (booted runningClock) []
  /\ exists w',
       post_prescriptions (J := refJson) (JObj []) (booted runningClock)
       = (Ok (Json 200 (JObj [("success", JBool true); ("id", JNum 1700000000000)])), w')
       /\ getPrescriptions (J := refJson) w'
          = (Ok (JArr [JObj [("id", JNum 1700000000000);
                             ("created_at", JStr "2023-11-14T22:13:20.007Z")]]), w').
Proof.
  assert (Hh : holds (J := refJson) (booted runningClock) []).
  { exists "[]". repeat split; constructor. }
  split; [exact RefJsonFacts.refJson_round_trip|]. split; [reflexivity|].
  split; [exact Hh|].
  destruct (post_prescriptions_without_data (J := refJson) (JObj []) []
              (booted runningClock) RefJsonFacts.refJson_round_trip eq_refl eq_refl Hh)
    as (w' & Hpost & Hlist & _).
  exists w'. split; [exact Hpost|exact Hlist].
Defined.

Lemma processPrescriptionImage_outcomes_witness :
  let text := RefJson.stringify sampleResult 0 in
  let ai : Gemini.provider := fun _ _ => Ok (Some text) in
  text <> ""
  /\ JSON_parse (JSONApi := refJson) text = Some sampleResult
  /\ Gemini.conforms Gemini.resultSchema sampleResult = true
  /\ Gemini.processPrescriptionImage (J := refJson) "Analyze the prescription image."
       ai "data:image/png;base64,iVBORw0KGgo=" "image/png" []
     = (Ok sampleResult,
        [Gemini.requestFor "Analyze the prescription image."
           "data:image/png;base64,iVBORw0KGgo=" "image/png"]).
Proof.
  cbv zeta.
  assert (Hne : RefJson.stringify sampleResult 0 <> "") by (vm_compute; discriminate).
  assert (Hp : JSON_parse (JSONApi := refJson) (RefJson.stringify sampleResult 0)
               = Some sampleResult) by (vm_compute; reflexivity).
  split; [exact Hne|]. split; [exact Hp|]. split; [reflexivity|].
  destruct (GeminiFacts.processPrescriptionImage_outcomes (J := refJson)
              "Analyze the prescription image."
              (fun _ _ => Ok (Some (RefJson.stringify sampleResult 0)))
              "data:image/png;base64,iVBORw0KGgo=" "image/png" [])
    as (Hlog & Hok & _).
  specialize (Hok _ sampleResult eq_refl Hne Hp eq_refl).
  apply injective_projections; [exact Hok|exact Hlog].
Defined.

End Runs.

(** ** More runs on the started server *)

Module MoreRuns.

Lemma booted_holds : holds (J := refJson) (booted runningClock) [].
Proof.
  exists (JSON_stringify (JSONApi := refJson) (JArr []) 0).
  split; [reflexivity|]. split; [reflexivity|constructor].
Qed.

Lemma save_result_name_witness :
  let body := JObj [("result", sampleResult)] in
  let name := "prescription_Dr._Jane_Smith_2023-11-14T22-13-20.json" in
  let answer := savedBody name ("results/" +:+ name) in
  post_save_result (J := refJson) body (booted runningClock)
  = (Ok (Json 200 answer), archived)
  /\ exists name' path,
       answer = savedBody name' path
       /\ every unspaced name' = true
       /\ Js.startsWith name' "prescription_" = true
       /\ Js.endsWith name' ".json" = true.
Proof.
  cbv zeta.
  assert (H : post_save_result (J := refJson) (JObj [("result", sampleResult)])
                (booted runningClock)
              = (Ok (Json 200
                       (savedBody "prescription_Dr._Jane_Smith_2023-11-14T22-13-20.json"
                          ("results/" +:+
                           "prescription_Dr._Jane_Smith_2023-11-14T22-13-20.json"))),
                 archived)).
  { unfold archived. apply injective_projections; [vm_compute|]; reflexivity. }
  split; [exact H|].
  exact (save_result_name (J := refJson) _ _ _ _ H).
Defined.

Lemma saved_result_is_listed_witness :
  let body := JObj [("result", sampleResult)] in
  let w := booted runningClock in
  let name := "prescription_Dr._Jane_Smith_2023-11-14T22-13-20.json" in
  Value.nullish body = false
  /\ Value.truthy (Value.prop body "result") = true
  /\ doctorString (doctorOf (Value.prop body "result"))
     = Some (Some "Dr. Jane Smith")
  /\ plainDoctor (Some "Dr. Jane Smith") = true
  /\ fs w !! "results" = Some Dir
  /\ Fs.validPath ("results/" +:+ name) = true
  /\ fs w !! ("results/" +:+ name) <> Some Dir
  /\ exists w' files,
       post_save_result (J := refJson) body w
       = (Ok (Json 200 (savedBody name ("results/" +:+ name))), w')
       /\ fs w' = <[("results/" +:+ name) :=
                      File (JSON_stringify (JSONApi := refJson) sampleResult 2)]> (fs w)
       /\ get_results w' = (Ok (Json 200 (listing files)), w')
       /\ In name files.
Proof.
  cbv zeta. do 6 (split; [reflexivity|]).
  assert (Hfree : fs (booted runningClock)
                    !! ("results/" +:+ "prescription_Dr._Jane_Smith_2023-11-14T22-13-20.json")
                  <> Some Dir) by discriminate.
  split; [exact Hfree|].
  exact (saved_result_is_listed (J := refJson) (JObj [("result", sampleResult)])
           (Some "Dr. Jane Smith") (booted runningClock)
           eq_refl eq_refl eq_refl eq_refl eq_refl eq_refl Hfree).
Defined.

Lemma serve_store_grows_witness :
  JSONRoundTrip refJson
  /\ Forall jsonRequest sampleRequests
  /\ holds (J := refJson) (booted runningClock) []
  /\ exists ress w' more,
       serve (J := refJson) sampleRequests (booted runningClock) = (Ok ress, w')
       /\ holds (J := refJson) w' more
       /\ List.length more = 1%nat
       /\ get_prescriptions (J := refJson) w' = (Ok (Json 200 (JArr more)), w').
Proof.
  assert (Hreqs : Forall jsonRequest sampleRequests).
  { unfold sampleRequests. repeat (constructor; [first [reflexivity|exact I]|]). constructor. }
  split; [exact RefJsonFacts.refJson_round_trip|]. split; [exact Hreqs|].
  split; [exact booted_holds|].
  destruct (serve_store_grows (J := refJson) sampleRequests (booted runningClock) []
              RefJsonFacts.refJson_round_trip Hreqs booted_holds)
    as (ress & w' & more & Hrun & Hh & Hlen & _ & Hget).
  exists ress, w', more. repeat split; assumption.
Defined.

Lemma processPrescriptionImage_no_validation_witness :
  let ai : Gemini.provider := fun _ _ => Ok (Some "[1]") in
  JSON_parse (JSONApi := refJson) "[1]" = Some (JArr [JNum 1])
  /\ Gemini.conforms Gemini.resultSchema (JArr [JNum 1]) = false
  /\ fst (Gemini.processPrescriptionImage (J := refJson) "Analyze the prescription image."
            ai "iVBORw0KGgo=" "image/png" [])
     = Ok (JArr [JNum 1]).
Proof.
  cbv zeta.
  assert (Hp : JSON_parse (JSONApi := refJson) "[1]" = Some (JArr [JNum 1]))
    by (vm_compute; reflexivity).
  split; [exact Hp|]. split; [reflexivity|].
  apply (GeminiFacts.processPrescriptionImage_no_validation (J := refJson)
           "Analyze the prescription image." (fun _ _ => Ok (Some "[1]"))
           "iVBORw0KGgo=" "image/png" "[1]" (JArr [JNum 1]) [] eq_refl).
  - discriminate.
  - exact Hp.
Defined.

Lemma handleProcess_saves_both_witness :
  let w := booted runningClock in
  let name := "prescription_Dr._Jane_Smith_2023-11-14T22-13-20.json" in
  JSONRoundTrip refJson
  /\ holds (J := refJson) w []
  /\ Value.is_json sampleResult = true
  /\ Value.truthy sampleResult = true
  /\ doctorString (doctorOf sampleResult) = Some (Some "Dr. Jane Smith")
  /\ fs w !! "results" = Some Dir
  /\ Fs.validPath ("results/" +:+ name) = true
  /\ exists w',
       serve (J := refJson) (handleProcess_requests sampleResult) w
       = (Ok [Json 200 (appendedBody 1700000000000);
              Json 200 (savedBody name ("results/" +:+ name))], w')
       /\ holds (J := refJson) w'
            [newRecord 1700000000000 1700000000007 sampleResult]
       /\ fs w' !! ("results/" +:+ name)
          = Some (File (JSON_stringify (JSONApi := refJson) sampleResult 2)).
Proof.
  cbv zeta. split; [exact RefJsonFacts.refJson_round_trip|].
  split; [exact booted_holds|]. do 5 (split; [reflexivity|]).
  destruct (handleProcess_saves_both (J := refJson) sampleResult (Some "Dr. Jane Smith")
              (booted runningClock) []
              RefJsonFacts.refJson_round_trip booted_holds
              eq_refl eq_refl eq_refl eq_refl eq_refl eq_refl ltac:(discriminate))
    as (w' & Hrun & Hh & Hfile & _).
  exists w'. split; [exact Hrun|]. split; [exact Hh|exact Hfile].
Defined.

Lemma handleProcess_falsy_result_witness :
  let w := booted runningClock in
  JSONRoundTrip refJson
  /\ holds (J := refJson) w []
  /\ Value.is_json JNull = true
  /\ Value.truthy JNull = false
  /\ exists w',
       serve (J := refJson) (handleProcess_requests JNull) w
       = (Ok [Json 200 (appendedBody 1700000000000);
              Json 400 (error_body "No result data provided")], w')
       /\ holds (J := refJson) w' [newRecord 1700000000000 1700000000007 JNull]
       /\ fs w' !! "results" = Some Dir.
Proof.
  cbv zeta. split; [exact RefJsonFacts.refJson_round_trip|].
  split; [exact booted_holds|]. do 2 (split; [reflexivity|]).
  destruct (handleProcess_falsy_result (J := refJson) JNull (booted runningClock) []
              RefJsonFacts.refJson_round_trip booted_holds eq_refl eq_refl)
    as (w' & Hrun & Hh & Hsame).
  exists w'. split; [exact Hrun|]. split; [exact Hh|].
  rewrite Hsame by discriminate. reflexivity.
Defined.

End MoreRuns.
